(** * Session-Maps: the live team map view (LiveSharedMap)

    A shallow embedding of the client-side session controller of the live
    team map page: path history per member, archival of paths as routes,
    the WebSocket reconnect logic, the signal-lost sweep, the handling of an
    ended session and the GPS watcher.

    JavaScript numbers that carry coordinates are IEEE-754 binary64 values and
    are modelled by Rocq's primitive floats, so every comparison below is
    the one the browser performs.  Identifiers, counters and millisecond
    timestamps only ever hold integers and are modelled by [Z] or [N].

    Every handler is a function on the state it reads and writes, and the
    browser and the server act through events.  React's own scheduling is
    not modelled: a handler sees the current props and state, and state
    updates take effect in the order they are issued. *)

From Stdlib Require Import ZArith NArith List Bool String Ascii Lia Floats.
From Stdlib Require Import DecimalString.
From Stdlib Require Import Sorted Permutation.
Import ListNotations.

Set Implicit Arguments.
Set Warnings "-inexact-float".

(* ================================================================== *)
(** ** JavaScript helpers *)

(** [a || b] on a possibly-null string: null and the empty string are falsy. *)
Definition orElse (a : option string) (b : string) : string :=
  match a with
  | Some s => if String.eqb s EmptyString then b else s
  | None => b
  end.

(** [String(n)] for an integer [n]. *)
Definition intToString (n : Z) : string := NilZero.string_of_int (Z.to_int n).

(** [arr.find(p)] *)
Definition find_first {A} (p : A -> bool) (l : list A) : option A := List.find p l.

(** [arr[arr.length - 1]]: undefined on the empty array. *)
Fixpoint lastElement {A} (l : list A) : option A :=
  match l with
  | [] => None
  | [x] => Some x
  | _ :: r => lastElement r
  end.

(** ** [Map<number, V>]

    A JavaScript [Map] iterates in insertion order and [set] on a present
    key replaces the value in place; keys are compared by value. *)
Module JsMap.
Section WithValue.
Variable V : Type.

Definition t := list (Z * V).

Definition empty : t := [].

Fixpoint get (k : Z) (m : t) : option V :=
  match m with
  | [] => None
  | (k', v) :: r => if Z.eqb k k' then Some v else get k r
  end.

Fixpoint set (k : Z) (v : V) (m : t) : t :=
  match m with
  | [] => [(k, v)]
  | (k', v') :: r =>
      if Z.eqb k k' then (k, v) :: r else (k', v') :: set k v r
  end.

Definition has (k : Z) (m : t) : bool :=
  match get k m with Some _ => true | None => false end.

Definition entries (m : t) : list (Z * V) := m.

Definition keys (m : t) : list Z := List.map fst m.

(** The representation invariant of a [Map]: one binding per key. *)
Definition wf (m : t) : Prop := NoDup (keys m).
End WithValue.

Arguments empty {V}.
End JsMap.

(* ================================================================== *)
(** ** Coordinates and the path history *)

(** A path sample is the pair [[lng, lat]]. *)
Definition Point : Type := (float * float)%type.
Definition Path : Type := list Point.

(** The literal [0.00005] of [updateMemberMarker]. *)
Definition MIN_DISPLACEMENT : float := 0x1.a36e2eb1c432dp-15%float.

(** [Math.abs(lastPoint[0] - lng) > 0.00005 || Math.abs(lastPoint[1] - lat) > 0.00005] *)
Definition exceedsThreshold (lastPoint : Point) (lng lat : float) : bool :=
  (MIN_DISPLACEMENT <? PrimFloat.abs (fst lastPoint - lng))%float
  || (MIN_DISPLACEMENT <? PrimFloat.abs (snd lastPoint - lat))%float.

(** [newPaths.get(userId) || []] *)
Definition pathOf (userId : Z) (paths : JsMap.t Path) : Path :=
  match JsMap.get userId paths with
  | Some p => p
  | None => []
  end.

(** The updater passed to [setMemberPaths] in [updateMemberMarker]. *)
Definition setMemberPaths_updater (userId : Z) (lat lng : float)
    (prev : JsMap.t Path) : JsMap.t Path :=
  let newPaths := prev in
  let currentPath := pathOf userId newPaths in
  match lastElement currentPath with
  | None => JsMap.set userId (currentPath ++ [(lng, lat)]) newPaths
  | Some lastPoint =>
      if exceedsThreshold lastPoint lng lat
      then JsMap.set userId (currentPath ++ [(lng, lat)]) newPaths
      else newPaths
  end.

(* ================================================================== *)
(** ** The [Math] object and number formatting

    ECMAScript leaves the results of [Math.sin], [Math.cos] and
    [Math.atan2] implementation-approximated, and [String(x)] on a number
    is an engine routine; the development is parametric in them.
    [Math.sqrt] and [Math.PI] are fixed by IEEE-754. *)
Class JsMath : Type := {
  Math_sin : float -> float;
  Math_cos : float -> float;
  Math_atan2 : float -> float -> float;
  Math_round : float -> float;
  Number_toString : float -> string
}.

Definition Math_PI : float := 0x1.921fb54442d18p+1%float.
Definition Math_sqrt : float -> float := PrimFloat.sqrt.

(** [const R = 6371000; // meters] *)
Definition EARTH_RADIUS : float := 6371000%float.

Section Haversine.
Context {M : JsMath}.
Local Open Scope float_scope.

(** The body of the loop of [calculatePathDistance]: [R * c] for the
    segment from [[lng1, lat1]] to [[lng2, lat2]]. *)
Definition haversine (p1 p2 : Point) : float :=
  let '(lng1, lat1) := p1 in
  let '(lng2, lat2) := p2 in
  let dLat := (lat2 - lat1) * Math_PI / 180 in
  let dLon := (lng2 - lng1) * Math_PI / 180 in
  let a := Math_sin (dLat / 2) * Math_sin (dLat / 2) +
           Math_cos (lat1 * Math_PI / 180) * Math_cos (lat2 * Math_PI / 180) *
           Math_sin (dLon / 2) * Math_sin (dLon / 2) in
  let c := 2 * Math_atan2 (Math_sqrt a) (Math_sqrt (1 - a)) in
  EARTH_RADIUS * c.

(** [for (let i = 1; i < path.length; i++) total += ...], with
    [prev = path[i - 1]] and [rest] the samples from index [i] on. *)
Fixpoint distanceLoop (prev : Point) (rest : list Point) (total : float) : float :=
  match rest with
  | [] => total
  | p :: rest' => distanceLoop p rest' (total + haversine prev p)
  end.

Definition calculatePathDistance (path : Path) : float :=
  if (List.length path <? 2)%nat then 0
  else match path with
       | [] => 0
       | p0 :: rest => distanceLoop p0 rest 0
       end.

(** The distance as the specification words it: the haversine lengths of
    the consecutive pairs of the path, added up from zero in path order. *)
Definition haversineSum (path : Path) : float :=
  List.fold_left (fun total seg => total + haversine (fst seg) (snd seg))
    (List.combine path (List.tl path)) 0.
End Haversine.

(* ================================================================== *)
(** ** Session data, markers and the backend *)

Record AuthUser : Type := {
  au_id : Z;
  au_username : string;
  au_fullName : option string
}.

(** [LiveMapMember].  [latitude] and [longitude] arrive as strings and are
    read with [parseFloat]; [None] stands for [null] (or the empty string)
    and [Some x] for a string that parses to [x].  [lastActive] is the time
    value of the (well-formed) timestamp string. *)
Record LiveMapMember : Type := {
  userId : Z;
  latitude : option float;
  longitude : option float;
  lastActive : option Z;
  member_username : string;
  member_fullName : option string
}.

Record SessionData : Type := {
  session_id : Z;
  ownerId : Z;
  session_name : string;
  isActive : bool;
  members : list LiveMapMember
}.

(** The DOM element of a member marker, reduced to what the handlers write:
    position, the dot's animation and opacity, the signal-lost overlay and
    the signal-lost label (its text is [Signal Lost <time>]). *)
Record Marker : Type := {
  lngLat : Point;
  dotPulsing : bool;
  dotDimmed : bool;
  lostOverlayShown : bool;
  lostLabelShown : bool;
  lostLabelSince : option Z
}.

Record Toast : Type := { toast_title : string; toast_description : string }.

(** The payload of [POST /api/routes]. [pathCoordinates] is the array handed
    to [JSON.stringify], as [(lat, lng)] objects. *)
Record RouteBody : Type := {
  route_name : string;
  route_description : string;
  waypointIds : list Z;
  pathCoordinates : list (float * float);
  totalDistance : string;
  elevationGain : string;
  elevationLoss : string;
  estimatedTime : Z;
  routingMode : string
}.

Inductive Method : Type := POST | DELETE.

Record ApiRequest : Type := {
  req_method : Method;
  req_url : string;
  req_body : option RouteBody
}.

(** The REST collaborator.  [accepts n] tells whether the [n]-th request
    issued by this client succeeds ([apiRequest] throws otherwise);
    [served] is the log of requests with their outcome. *)
Record Backend : Type := {
  accepts : nat -> bool;
  served : list (ApiRequest * bool)
}.

Definition apiRequest (req : ApiRequest) (b : Backend) : bool * Backend :=
  let ok := accepts b (List.length (served b)) in
  (ok, {| accepts := accepts b; served := served b ++ [(req, ok)] |}).

(** The routes the backend has stored: bodies of the accepted
    [POST /api/routes] requests, oldest first. *)
Definition isRoutePost (r : ApiRequest) : bool :=
  match req_method r with
  | POST => String.eqb (req_url r) "/api/routes"
  | DELETE => false
  end.

Fixpoint persistedRoutes (log : list (ApiRequest * bool)) : list RouteBody :=
  match log with
  | [] => []
  | (r, ok) :: rest =>
      match req_body r with
      | Some body =>
          if ok && isRoutePost r then body :: persistedRoutes rest
          else persistedRoutes rest
      | None => persistedRoutes rest
      end
  end.

(** ** The state of the view

    Props and query data ([user], [sessionId], [session]), whether
    [map.current] is set, the React state [memberPaths], the refs
    [memberLastUpdateRef] and [memberMarkersRef], the router location, the
    toasts shown, the number of [invalidateQueries] calls and the backend. *)
Record View : Type := {
  user : option AuthUser;
  sessionId : option Z;
  session : option SessionData;
  mapCurrent : bool;
  memberPaths : JsMap.t Path;
  memberLastUpdateRef : JsMap.t Z;
  memberMarkersRef : JsMap.t Marker;
  location : string;
  toasts : list Toast;
  invalidated : nat;
  backend : Backend
}.

Definition with_session (s : option SessionData) (v : View) : View :=
  {| user := user v; sessionId := sessionId v; session := s;
     mapCurrent := mapCurrent v; memberPaths := memberPaths v;
     memberLastUpdateRef := memberLastUpdateRef v;
     memberMarkersRef := memberMarkersRef v; location := location v;
     toasts := toasts v; invalidated := invalidated v; backend := backend v |}.

Definition with_memberPaths (p : JsMap.t Path) (v : View) : View :=
  {| user := user v; sessionId := sessionId v; session := session v;
     mapCurrent := mapCurrent v; memberPaths := p;
     memberLastUpdateRef := memberLastUpdateRef v;
     memberMarkersRef := memberMarkersRef v; location := location v;
     toasts := toasts v; invalidated := invalidated v; backend := backend v |}.

Definition with_memberLastUpdate (m : JsMap.t Z) (v : View) : View :=
  {| user := user v; sessionId := sessionId v; session := session v;
     mapCurrent := mapCurrent v; memberPaths := memberPaths v;
     memberLastUpdateRef := m;
     memberMarkersRef := memberMarkersRef v; location := location v;
     toasts := toasts v; invalidated := invalidated v; backend := backend v |}.

Definition with_memberMarkers (m : JsMap.t Marker) (v : View) : View :=
  {| user := user v; sessionId := sessionId v; session := session v;
     mapCurrent := mapCurrent v; memberPaths := memberPaths v;
     memberLastUpdateRef := memberLastUpdateRef v;
     memberMarkersRef := m; location := location v;
     toasts := toasts v; invalidated := invalidated v; backend := backend v |}.

Definition with_location (l : string) (v : View) : View :=
  {| user := user v; sessionId := sessionId v; session := session v;
     mapCurrent := mapCurrent v; memberPaths := memberPaths v;
     memberLastUpdateRef := memberLastUpdateRef v;
     memberMarkersRef := memberMarkersRef v; location := l;
     toasts := toasts v; invalidated := invalidated v; backend := backend v |}.

Definition with_toast (t : Toast) (v : View) : View :=
  {| user := user v; sessionId := sessionId v; session := session v;
     mapCurrent := mapCurrent v; memberPaths := memberPaths v;
     memberLastUpdateRef := memberLastUpdateRef v;
     memberMarkersRef := memberMarkersRef v; location := location v;
     toasts := toasts v ++ [t]; invalidated := invalidated v; backend := backend v |}.

Definition with_invalidate (v : View) : View :=
  {| user := user v; sessionId := sessionId v; session := session v;
     mapCurrent := mapCurrent v; memberPaths := memberPaths v;
     memberLastUpdateRef := memberLastUpdateRef v;
     memberMarkersRef := memberMarkersRef v; location := location v;
     toasts := toasts v; invalidated := S (invalidated v); backend := backend v |}.

Definition with_backend (b : Backend) (v : View) : View :=
  {| user := user v; sessionId := sessionId v; session := session v;
     mapCurrent := mapCurrent v; memberPaths := memberPaths v;
     memberLastUpdateRef := memberLastUpdateRef v;
     memberMarkersRef := memberMarkersRef v; location := location v;
     toasts := toasts v; invalidated := invalidated v; backend := b |}.

Definition with_mapCurrent (m : bool) (v : View) : View :=
  {| user := user v; sessionId := sessionId v; session := session v;
     mapCurrent := m; memberPaths := memberPaths v;
     memberLastUpdateRef := memberLastUpdateRef v;
     memberMarkersRef := memberMarkersRef v; location := location v;
     toasts := toasts v; invalidated := invalidated v; backend := backend v |}.

(** [userId === user?.id] *)
Definition isLocalUser (v : View) (uid : Z) : bool :=
  match user v with
  | Some u => Z.eqb uid (au_id u)
  | None => false
  end.

(** [!session?.members] is false exactly when the session has loaded. *)
Definition membersLoaded (v : View) : bool :=
  match session v with Some _ => true | None => false end.

(* ================================================================== *)
(** ** [updateMemberMarker] *)

Definition freshMarker (lng lat : float) : Marker :=
  {| lngLat := (lng, lat); dotPulsing := true; dotDimmed := false;
     lostOverlayShown := false; lostLabelShown := false;
     lostLabelSince := None |}.

(** The branch for an existing marker: move it, restore the pulsing dot,
    hide the signal-lost overlay and label. *)
Definition refreshMarker (lng lat : float) (m : Marker) : Marker :=
  {| lngLat := (lng, lat); dotPulsing := true; dotDimmed := false;
     lostOverlayShown := false; lostLabelShown := false;
     lostLabelSince := lostLabelSince m |}.

(** [updateMemberMarker(userId, lat, lng)], run at time [now]
    ([Date.now()]).  The marker colour and name label are not modelled. *)
Definition updateMemberMarker (now : Z) (uid : Z) (lat lng : float)
    (v : View) : View :=
  if negb (mapCurrent v) || negb (membersLoaded v) then v
  else
    let v1 := with_memberPaths
                (setMemberPaths_updater uid lat lng (memberPaths v)) v in
    if isLocalUser v uid then v1
    else
      let v2 := with_memberLastUpdate
                  (JsMap.set uid now (memberLastUpdateRef v1)) v1 in
      match JsMap.get uid (memberMarkersRef v2) with
      | Some existingMarker =>
          with_memberMarkers
            (JsMap.set uid (refreshMarker lng lat existingMarker)
               (memberMarkersRef v2)) v2
      | None =>
          with_memberMarkers
            (JsMap.set uid (freshMarker lng lat) (memberMarkersRef v2)) v2
      end.

(** The effect that renders markers from the session data and seeds the
    last-update timestamps: the body of [session.members.forEach]. *)
Definition seedMember (now : Z) (v : View) (member : LiveMapMember) : View :=
  match latitude member, longitude member with
  | Some lat, Some lng =>
      let v1 := updateMemberMarker now (userId member) lat lng v in
      match lastActive member with
      | Some t =>
          if negb (isLocalUser v1 (userId member))
          then with_memberLastUpdate
                 (JsMap.set (userId member) t (memberLastUpdateRef v1)) v1
          else v1
      | None => v1
      end
  | _, _ => v
  end.

Definition seedMemberMarkers (now : Z) (v : View) : View :=
  match session v with
  | Some s =>
      if mapCurrent v then List.fold_left (seedMember now) (members s) v
      else v
  | None => v
  end.

(* ================================================================== *)
(** ** The signal-lost sweep *)

(** [const SIGNAL_LOST_THRESHOLD = 2 * 60 * 1000;] *)
Definition SIGNAL_LOST_THRESHOLD : Z := 2 * 60 * 1000.

(** The two timers the effect installs:
    [setTimeout(checkSignalLost, 2000)] and
    [setInterval(checkSignalLost, 15000)]. *)
Record SweepTimers : Type := { initialCheckDelay : Z; sweepInterval : Z }.

Definition signalLostEffect : SweepTimers :=
  {| initialCheckDelay := 2000; sweepInterval := 15000 |}.

(** [elapsed > SIGNAL_LOST_THRESHOLD] with [elapsed = now - lastUpdate]. *)
Definition signalLost (now lastUpdate : Z) : bool :=
  (SIGNAL_LOST_THRESHOLD <? now - lastUpdate)%Z.

Definition markLost (lastUpdate : Z) (m : Marker) : Marker :=
  {| lngLat := lngLat m; dotPulsing := false; dotDimmed := true;
     lostOverlayShown := true; lostLabelShown := true;
     lostLabelSince := Some lastUpdate |}.

Definition markLive (m : Marker) : Marker :=
  {| lngLat := lngLat m; dotPulsing := dotPulsing m; dotDimmed := false;
     lostOverlayShown := lostOverlayShown m;
     lostLabelShown := lostLabelShown m;
     lostLabelSince := lostLabelSince m |}.

(** The callback of [memberLastUpdateRef.current.forEach]. *)
Definition checkMember (localId : option Z) (now : Z)
    (markers : JsMap.t Marker) (entry : Z * Z) : JsMap.t Marker :=
  let '(uid, lastUpdate) := entry in
  if match localId with Some me => Z.eqb uid me | None => false end
  then markers
  else
    match JsMap.get uid markers with
    | None => markers
    | Some marker =>
        if signalLost now lastUpdate
        then JsMap.set uid (markLost lastUpdate marker) markers
        else JsMap.set uid (markLive marker) markers
    end.

Definition checkSignalLost (now : Z) (v : View) : View :=
  with_memberMarkers
    (List.fold_left (checkMember (option_map au_id (user v)) now)
       (JsMap.entries (memberLastUpdateRef v)) (memberMarkersRef v)) v.

(* ================================================================== *)
(** ** Saving paths as routes, leaving and ending *)

Definition dquote : string := String (Ascii.ascii_of_nat 34) EmptyString.

Definition HOME : string := "/"%string.

Section Archive.
Context {M : JsMath}.
Local Open Scope string_scope.

(** [session?.name || 'Live Team Map'] *)
Definition sessionTitle (v : View) : string :=
  orElse (option_map session_name (session v)) "Live Team Map".

(** The text of [${session?.name}] inside a template literal. *)
Definition sessionNameText (v : View) : string :=
  match session v with
  | Some s => session_name s
  | None => "undefined"
  end.

(** The object literal posted to [/api/routes]; [today] is
    [new Date().toLocaleDateString()]. *)
Definition recordedRoute (v : View) (today : string) (name : string)
    (path : Path) : RouteBody :=
  let distance := calculatePathDistance path in
  {| route_name := name;
     route_description :=
       "Path recorded during live map session " ++ dquote ++
       sessionNameText v ++ dquote ++ " on " ++ today;
     waypointIds := [];
     pathCoordinates := List.map (fun p => (snd p, fst p)) path;
     totalDistance := Number_toString (Math_round distance);
     elevationGain := "0";
     elevationLoss := "0";
     estimatedTime := 0%Z;
     routingMode := "recorded" |}.

(** [member?.user.fullName || member?.user.username || `User ${userId}`] *)
Definition memberNameOf (v : View) (uid : Z) : string :=
  let member :=
    match session v with
    | Some s => find_first (fun m => Z.eqb (userId m) uid) (members s)
    | None => None
    end in
  match member with
  | Some m =>
      orElse (member_fullName m)
        (orElse (Some (member_username m)) ("User " ++ intToString uid))
  | None => "User " ++ intToString uid
  end.

Definition pathRouteName (v : View) (uid : Z) : string :=
  sessionTitle v ++ " - " ++ memberNameOf v uid ++ "'s Path".

(** The loop of [saveSessionPathsAsRoutes] over the entries still to
    visit; a rejected request is caught, logged and skipped. *)
Fixpoint savePathsLoop (v : View) (today : string)
    (entries : list (Z * Path)) (savedCount : nat) (b : Backend)
    : nat * Backend :=
  match entries with
  | [] => (savedCount, b)
  | (uid, path) :: rest =>
      if (List.length path <? 2)%nat
      then savePathsLoop v today rest savedCount b
      else
        let request :=
          {| req_method := POST; req_url := "/api/routes";
             req_body :=
               Some (recordedRoute v today (pathRouteName v uid) path) |} in
        let '(ok, b') := apiRequest request b in
        savePathsLoop v today rest
          (if ok then S savedCount else savedCount) b'
  end.

(** The route the loop posts for a map entry. *)
Definition routeFor (v : View) (today : string) (e : Z * Path) : RouteBody :=
  recordedRoute v today (pathRouteName v (fst e)) (snd e).

Definition saveSessionPathsAsRoutes (today : string) (v : View)
    : nat * View :=
  let '(savedCount, b) :=
    savePathsLoop v today (JsMap.entries (memberPaths v)) 0 (backend v) in
  (savedCount, with_backend b v).

(** [`/api/live-maps/${sessionId}`] *)
Definition sessionUrl (v : View) : string :=
  "/api/live-maps/" ++
  match sessionId v with
  | Some id => intToString id
  | None => "null"
  end.

(** [deleteMutation]: [mutationFn] followed, when it resolves, by
    [onSuccess]. *)
Definition deleteMutation (today : string) (v : View) : View :=
  let '(_, v1) := saveSessionPathsAsRoutes today v in
  let '(ok, b) :=
    apiRequest {| req_method := DELETE; req_url := sessionUrl v1;
                  req_body := None |} (backend v1) in
  let v2 := with_backend b v1 in
  if ok
  then with_location HOME
         (with_toast {| toast_title := "Session ended";
                        toast_description :=
                          "All paths have been saved as routes" |} v2)
  else v2.

(** [user?.id || 0] *)
Definition myId (v : View) : Z :=
  match user v with
  | Some u => au_id u
  | None => 0%Z
  end.

(** [leaveMutation]: the own path is posted first; if that request is
    rejected the mutation fails before the leave request is made. *)
Definition leaveMutation (today : string) (v : View) : View :=
  let leave (v1 : View) : View :=
    let '(ok, b) :=
      apiRequest {| req_method := POST; req_url := sessionUrl v1 ++ "/leave";
                    req_body := None |} (backend v1) in
    let v2 := with_backend b v1 in
    if ok
    then with_location HOME
           (with_toast {| toast_title := "Left session";
                          toast_description :=
                            "Your path has been saved as a route" |} v2)
    else v2 in
  match JsMap.get (myId v) (memberPaths v) with
  | Some myPath =>
      if (2 <=? List.length myPath)%nat
      then
        let '(ok, b) :=
          apiRequest
            {| req_method := POST; req_url := "/api/routes";
               req_body :=
                 Some (recordedRoute v today
                         (sessionTitle v ++ " - My Path") myPath) |}
            (backend v) in
        if ok then leave (with_backend b v) else with_backend b v
      else leave v
  | None => leave v
  end.
End Archive.

(* ================================================================== *)
(** ** Messages from the server *)

Inductive WsMessage : Type :=
| MemberLocationUpdate (uid : Z) (lat lng : float)
| MemberJoined
| MemberLeft
| MemberDisconnected
| MessageNew
| PoiCreated
| PoiDeleted
| RouteCreated
| RouteDeleted
| RouteUpdated
| SessionEnded
| OtherMessage.

(** [ws.onmessage] of the socket opened by [connect].  The callbacks it
    calls are run on the view's current props and state.  The handler in
    the source holds the [updateMemberMarker] of the render in which the
    WebSocket effect ran (the effect depends on [sessionId] and [user]
    only): when that render had no session data yet, its call returns at
    the first guard and the update is dropped.  A dropped update is a run
    of the model without the event, so what holds of every run of the
    model holds of the handler. *)
Definition onmessage (now : Z) (msg : WsMessage) (v : View) : View :=
  match msg with
  | MemberLocationUpdate uid lat lng => updateMemberMarker now uid lat lng v
  | MemberJoined | MemberLeft | MemberDisconnected => with_invalidate v
  | MessageNew => with_invalidate v
  | PoiCreated | PoiDeleted => with_invalidate v
  | RouteCreated | RouteDeleted | RouteUpdated => with_invalidate v
  | SessionEnded =>
      with_location HOME
        (with_toast
           {| toast_title := "Session ended";
              toast_description :=
                "The session owner has ended this live team map" |} v)
  | OtherMessage => v
  end.

(** [ws.onmessage] of the socket opened by [handleLiveMapResume]: it has no
    case for [session:ended]. *)
Definition onmessage_resume (now : Z) (msg : WsMessage) (v : View) : View :=
  match msg with
  | MemberLocationUpdate uid lat lng => updateMemberMarker now uid lat lng v
  | MemberJoined | MemberLeft | MemberDisconnected | MessageNew
  | PoiCreated | PoiDeleted | RouteCreated | RouteDeleted | RouteUpdated =>
      with_invalidate v
  | SessionEnded | OtherMessage => v
  end.

(* ================================================================== *)
(** ** What the component renders *)

(** [const [match] = useRoute("/live-map/:id")] *)
Definition routeMatch (v : View) : bool :=
  String.prefix "/live-map/" (location v).

(** [session && user && session.ownerId === user.id] *)
Definition isOwner (v : View) : bool :=
  match session v, user v with
  | Some s, Some u => Z.eqb (ownerId s) (au_id u)
  | _, _ => false
  end.

(** [session && !session.isActive] *)
Definition isSessionEnded (v : View) : bool :=
  match session v with
  | Some s => negb (isActive s)
  | None => false
  end.

Inductive HeaderAction : Type := BackToMap | EndSession | LeaveSession.

(** The session screen: first the parts whose JSX mentions
    [isSessionEnded], then the controls that start or send a change of the
    session and whose JSX does not mention it.  A control inside a panel,
    banner or dialog is recorded as it is rendered when its container is
    open; [isPending] of a mutation is not modelled (a mutation is one
    step). *)
Record Screen : Type := {
  endedBanner : bool;
  endedTag : bool;
  copyShareCodeButton : bool;
  headerAction : HeaderAction;
  (** [disabled] of Draw New Route and Import Saved in the routes panel *)
  drawNewRouteDisabled : bool;
  importSavedDisabled : bool;
  (** the remove button of a listed route, by the route's creator *)
  routeRemoveButton : Z -> bool;
  (** the Waypoint and Route buttons of the toolbar *)
  toolbarWaypointButton : bool;
  toolbarRouteButton : bool;
  (** [disabled] of Import Saved in the banner shown while drawing *)
  bannerImportSavedDisabled : bool;
  (** Edit and Delete of the route detail panel, by the route's creator *)
  routeDetailButtons : Z -> bool;
  (** the delete button of a listed waypoint and of the waypoint dialog *)
  waypointDeleteButton : bool;
  (** Invite Friends in the members overlay *)
  inviteFriendsButton : bool;
  (** [disabled] of the chat's send button, by [!messageInput.trim()] *)
  sendMessageDisabled : bool -> bool
}.

Inductive Rendered : Type :=
| RenderNothing
| RenderUnavailable
| RenderSession (scr : Screen).

Definition render (v : View) : Rendered :=
  if negb (routeMatch v) then RenderNothing
  else
    match session v with
    | None => RenderUnavailable
    | Some _ =>
        RenderSession
          {| endedBanner := isSessionEnded v;
             endedTag := isSessionEnded v;
             copyShareCodeButton := negb (isSessionEnded v);
             headerAction :=
               if isSessionEnded v then BackToMap
               else if isOwner v then EndSession else LeaveSession;
             drawNewRouteDisabled := isSessionEnded v;
             importSavedDisabled := isSessionEnded v;
             routeRemoveButton := fun createdBy =>
               (isLocalUser v createdBy || isOwner v)
               && negb (isSessionEnded v);
             toolbarWaypointButton := true;
             toolbarRouteButton := true;
             bannerImportSavedDisabled := false;
             routeDetailButtons := fun createdBy =>
               isLocalUser v createdBy || isOwner v;
             waypointDeleteButton := true;
             inviteFriendsButton := true;
             sendMessageDisabled := fun inputIsBlank => inputIsBlank |}
    end.

(** The action button offered in the header, if the screen is shown. *)
Definition offered (v : View) : option HeaderAction :=
  match render v with
  | RenderSession scr => Some (headerAction scr)
  | _ => None
  end.





(* ================================================================== *)
(** ** The events of the view that are followed

    Messages on either socket, the arrival of session data, the sweep and
    the buttons of the header.  The other requests of the component (chat
    messages, invitations, creating a waypoint, saving, updating and
    importing a shared route) and the refetches that follow an
    invalidation are not events of [step]. *)

(** The effect that creates the map: it runs before the seeding effect
    once the session is available and the session screen, which holds the
    map container, is on the page.  The query only ever returns the
    session of this page, so the effect's cleanup (a change of
    [session.id]) does not occur while the page is open. *)
Definition initializeMap (v : View) : View :=
  match render v with
  | RenderSession _ => with_mapCurrent true v
  | _ => v
  end.

Inductive ViewEvent : Type :=
| EvMessage (now : Z) (msg : WsMessage)
| EvResumeMessage (now : Z) (msg : WsMessage)
| EvSessionData (now : Z) (data : SessionData)
| EvSweep (now : Z)
| EvClickEndSession (today : string)
| EvClickLeave (today : string)
| EvClickBack.

Section Step.
Context {M : JsMath}.

Definition step (v : View) (e : ViewEvent) : View :=
  match e with
  | EvMessage now msg => onmessage now msg v
  | EvResumeMessage now msg => onmessage_resume now msg v
  | EvSessionData now data =>
      seedMemberMarkers now (initializeMap (with_session (Some data) v))
  | EvSweep now => checkSignalLost now v
  | EvClickEndSession today =>
      match offered v with
      | Some EndSession => deleteMutation today v
      | _ => v
      end
  | EvClickLeave today =>
      match offered v with
      | Some LeaveSession => leaveMutation today v
      | _ => v
      end
  | EvClickBack =>
      match offered v with
      | Some _ => with_location HOME v
      | None => v
      end
  end.

Definition run (v : View) (es : list ViewEvent) : View :=
  List.fold_left step es v.
End Step.

(* ================================================================== *)
(** ** The connection controller

    The refs and browser objects behind the WebSocket effect, the location
    tracking effect, [handleLiveMapResume] and [useBackgroundResilience].
    Sockets, reconnect timers and geolocation watches are kept in the order
    they were created; their index is their identity. *)

Fixpoint updateAt {A} (i : nat) (f : A -> A) (l : list A) : list A :=
  match l, i with
  | [], _ => []
  | x :: r, O => f x :: r
  | x :: r, S i' => x :: updateAt i' f r
  end.

Inductive ReadyState : Type := CONNECTING | OPEN | CLOSING | CLOSED.

(** Which code created a socket, hence which handlers it carries. *)
Inductive Origin : Type := ByConnect | ByResume.

Inductive ClientMessage : Type :=
| Auth (uid : Z)
| SessionJoin (sid : option Z)
| SessionLocation (lat lng accuracy : float) (heading : option float).

Record Socket : Type := {
  origin : Origin;
  readyState : ReadyState;
  sent : list ClientMessage
}.

(** A reconnect timer made by [setTimeout(connect, delay)]. *)
Record Timer : Type := { delay : N; pending : bool }.

Record Transport : Type := {
  sockets : list Socket;
  wsRef : option nat
}.

Record Backoff : Type := {
  intentionalCloseRef : bool;
  reconnectAttemptRef : N;
  timers : list Timer;
  reconnectTimeoutRef : option nat;
  (** the seconds announced by each [Reconnecting...] toast *)
  notices : list N
}.

Record Gps : Type := {
  (** every watch registered so far; [true] while it is not cleared *)
  watches : list bool;
  watchIdRef : option nat
}.

Record Conn : Type := {
  conn_user : option Z;
  conn_sessionId : option Z;
  geolocation : bool;
  mounted : bool;
  transport : Transport;
  backoff : Backoff;
  gps : Gps;
  (** pending 500 ms resume timers; [true] when the callback re-checks
      [isActiveRef] before resuming *)
  resumeTimers : list bool
}.

Definition with_transport (t : Transport) (c : Conn) : Conn :=
  {| conn_user := conn_user c; conn_sessionId := conn_sessionId c;
     geolocation := geolocation c; mounted := mounted c; transport := t;
     backoff := backoff c; gps := gps c; resumeTimers := resumeTimers c |}.

Definition with_backoff (b : Backoff) (c : Conn) : Conn :=
  {| conn_user := conn_user c; conn_sessionId := conn_sessionId c;
     geolocation := geolocation c; mounted := mounted c;
     transport := transport c; backoff := b; gps := gps c;
     resumeTimers := resumeTimers c |}.

Definition with_gps (g : Gps) (c : Conn) : Conn :=
  {| conn_user := conn_user c; conn_sessionId := conn_sessionId c;
     geolocation := geolocation c; mounted := mounted c;
     transport := transport c; backoff := backoff c; gps := g;
     resumeTimers := resumeTimers c |}.

Definition with_resumeTimers (r : list bool) (c : Conn) : Conn :=
  {| conn_user := conn_user c; conn_sessionId := conn_sessionId c;
     geolocation := geolocation c; mounted := mounted c;
     transport := transport c; backoff := backoff c; gps := gps c;
     resumeTimers := r |}.

Definition with_mounted (m : bool) (c : Conn) : Conn :=
  {| conn_user := conn_user c; conn_sessionId := conn_sessionId c;
     geolocation := geolocation c; mounted := m;
     transport := transport c; backoff := backoff c; gps := gps c;
     resumeTimers := resumeTimers c |}.

(** [!!sessionId && !!user]: a session id of [0] is falsy. *)
Definition isActiveConn (c : Conn) : bool :=
  match conn_sessionId c, conn_user c with
  | Some sid, Some _ => negb (Z.eqb sid 0)
  | _, _ => false
  end.

Definition socketAt (c : Conn) (s : nat) : option Socket :=
  List.nth_error (sockets (transport c)) s.

(** [wsRef.current?.readyState === WebSocket.OPEN] *)
Definition wsIsOpen (c : Conn) : bool :=
  match wsRef (transport c) with
  | Some s =>
      match socketAt c s with
      | Some sock =>
          match readyState sock with OPEN => true | _ => false end
      | None => false
      end
  | None => false
  end.

Definition setReadyState (r : ReadyState) (sock : Socket) : Socket :=
  {| origin := origin sock; readyState := r; sent := sent sock |}.

Definition pushSent (m : ClientMessage) (sock : Socket) : Socket :=
  {| origin := origin sock; readyState := readyState sock;
     sent := sent sock ++ [m] |}.

Definition updateSocket (s : nat) (f : Socket -> Socket) (c : Conn) : Conn :=
  with_transport
    {| sockets := updateAt s f (sockets (transport c));
       wsRef := wsRef (transport c) |} c.

(** [new WebSocket(...)] followed by [wsRef.current = ws]. *)
Definition openSocket (o : Origin) (c : Conn) : Conn :=
  with_transport
    {| sockets := sockets (transport c) ++
                  [{| origin := o; readyState := CONNECTING; sent := [] |}];
       wsRef := Some (List.length (sockets (transport c))) |} c.

Definition connect (c : Conn) : Conn := openSocket ByConnect c.

(** [Math.min(1000 * Math.pow(2, attempt), 30000)].  Both arguments of
    [Math.min] are whole numbers or, from attempt 1024 on, the first is
    [Infinity]; the minimum is the one over the naturals either way. *)
Definition reconnectDelay (attempt : N) : N :=
  N.min (1000 * N.pow 2 attempt) 30000.

(** [Math.round(delay / 1000)] for the toast; [delay] is a whole number of
    milliseconds. *)
Definition delaySeconds (d : N) : N := (d + 500) / 1000.

(** [ws.onopen] as installed by [connect]. *)
Definition onopen_connect (s : nat) (c : Conn) : Conn :=
  let c1 :=
    with_backoff
      {| intentionalCloseRef := intentionalCloseRef (backoff c);
         reconnectAttemptRef := 0;
         timers := timers (backoff c);
         reconnectTimeoutRef := reconnectTimeoutRef (backoff c);
         notices := notices (backoff c) |} c in
  match conn_user c1 with
  | Some uid =>
      updateSocket s (pushSent (SessionJoin (conn_sessionId c1)))
        (updateSocket s (pushSent (Auth uid)) c1)
  | None => c1
  end.

(** [ws.onopen] as installed by [handleLiveMapResume]. *)
Definition onopen_resume (s : nat) (c : Conn) : Conn :=
  match conn_user c with
  | Some uid =>
      updateSocket s (pushSent (SessionJoin (conn_sessionId c)))
        (updateSocket s (pushSent (Auth uid)) c)
  | None => c
  end.

(** [ws.onclose] as installed by [connect]. *)
Definition onclose_connect (c : Conn) : Conn :=
  if negb (intentionalCloseRef (backoff c)) then
    let attempt := reconnectAttemptRef (backoff c) in
    let d := reconnectDelay attempt in
    with_backoff
      {| intentionalCloseRef := intentionalCloseRef (backoff c);
         reconnectAttemptRef := attempt + 1;
         timers := timers (backoff c) ++ [{| delay := d; pending := true |}];
         reconnectTimeoutRef := Some (List.length (timers (backoff c)));
         notices := notices (backoff c) ++ [delaySeconds d] |} c
  else c.

(** The cleanup returned by the WebSocket effect. *)
Definition wsEffectCleanup (c : Conn) : Conn :=
  let b := backoff c in
  let c1 :=
    with_backoff
      {| intentionalCloseRef := true;
         reconnectAttemptRef := reconnectAttemptRef b;
         timers :=
           match reconnectTimeoutRef b with
           | Some t =>
               updateAt t (fun tm => {| delay := delay tm; pending := false |})
                 (timers b)
           | None => timers b
           end;
         reconnectTimeoutRef := None;
         notices := notices b |} c in
  match wsRef (transport c1) with
  | Some s =>
      with_transport
        {| sockets :=
             updateAt s
               (fun sock =>
                  match readyState sock with
                  | CLOSED => sock
                  | _ => setReadyState CLOSING sock
                  end)
               (sockets (transport c1));
           wsRef := None |} c1
  | None => c1
  end.

(** The body of the WebSocket effect. *)
Definition wsEffect (c : Conn) : Conn :=
  if isActiveConn c then
    connect
      (with_backoff
         {| intentionalCloseRef := false;
            reconnectAttemptRef := reconnectAttemptRef (backoff c);
            timers := timers (backoff c);
            reconnectTimeoutRef := reconnectTimeoutRef (backoff c);
            notices := notices (backoff c) |} c)
  else c.

(** [navigator.geolocation.watchPosition(...)], stored in [watchIdRef]. *)
Definition watchPosition (c : Conn) : Conn :=
  with_gps
    {| watches := watches (gps c) ++ [true];
       watchIdRef := Some (List.length (watches (gps c))) |} c.

(** [if (watchIdRef.current !== null) clearWatch(watchIdRef.current)] *)
Definition clearCurrentWatch (c : Conn) : Conn :=
  match watchIdRef (gps c) with
  | Some w =>
      with_gps
        {| watches := updateAt w (fun _ => false) (watches (gps c));
           watchIdRef := watchIdRef (gps c) |} c
  | None => c
  end.

(** The location tracking effect and its cleanup. *)
Definition locationEffect (c : Conn) : Conn :=
  match wsRef (transport c), conn_user c with
  | Some _, Some _ => if geolocation c then watchPosition c else c
  | _, _ => c
  end.

Definition locationEffectCleanup (c : Conn) : Conn := clearCurrentWatch c.

(** The success callback of [watchPosition]: the fix goes out when the
    socket in [wsRef] is open. *)
Definition onPosition (lat lng accuracy : float) (heading : option float)
    (c : Conn) : Conn :=
  if wsIsOpen c then
    match wsRef (transport c) with
    | Some s =>
        updateSocket s (pushSent (SessionLocation lat lng accuracy heading)) c
    | None => c
    end
  else c.

(** [handleLiveMapResume] *)
Definition handleLiveMapResume (c : Conn) : Conn :=
  let c1 := if wsIsOpen c then c else openSocket ByResume c in
  let c2 := clearCurrentWatch c1 in
  if geolocation c2 then watchPosition c2 else c2.

Inductive Visibility : Type := Hidden | Visible.

(** [useBackgroundResilience]: the [visibilitychange] listener.  Going
    hidden only records the time; becoming visible arms a 500 ms timer
    whose callback re-checks [isActiveRef] before resuming. *)
Definition handleVisibilityChange (state : Visibility) (c : Conn) : Conn :=
  match state with
  | Hidden => c
  | Visible => with_resumeTimers (resumeTimers c ++ [true]) c
  end.

(** [useBackgroundResilience]: the [pageshow] listener; its timer resumes
    without a second check. *)
Definition handlePageShow (persisted : bool) (c : Conn) : Conn :=
  if persisted && isActiveConn c
  then with_resumeTimers (resumeTimers c ++ [false]) c
  else c.

(** The callback of a resume timer. *)
Definition resumeTimerCallback (checked : bool) (c : Conn) : Conn :=
  if negb checked || isActiveConn c then handleLiveMapResume c else c.

Inductive ConnEvent : Type :=
| EffectsRun
| EffectsCleanup
| SocketOpened (s : nat)
| SocketClosed (s : nat)
| SocketError (s : nat)
| TimerFired (t : nat)
| PositionFix (w : nat) (lat lng accuracy : float) (heading : option float)
| VisibilityChange (state : Visibility)
| PageShow (persisted : bool)
| ResumeTimerFired.

(** One event of the controller.  A socket event reaches the handlers of
    the code that made the socket; the listeners of
    [useBackgroundResilience] exist while the component is mounted with
    [isActive]; its native (Capacitor) listener is not modelled. *)
Definition connStep (c : Conn) (e : ConnEvent) : Conn :=
  match e with
  | EffectsRun => with_mounted true (locationEffect (wsEffect c))
  | EffectsCleanup =>
      with_mounted false
        (if isActiveConn c then locationEffectCleanup (wsEffectCleanup c)
         else c)
  | SocketOpened s =>
      match socketAt c s with
      | Some sock =>
          match readyState sock with
          | CONNECTING =>
              let c1 := updateSocket s (setReadyState OPEN) c in
              match origin sock with
              | ByConnect => onopen_connect s c1
              | ByResume => onopen_resume s c1
              end
          | _ => c
          end
      | None => c
      end
  | SocketClosed s =>
      match socketAt c s with
      | Some sock =>
          match readyState sock with
          | CLOSED => c
          | _ =>
              let c1 := updateSocket s (setReadyState CLOSED) c in
              match origin sock with
              | ByConnect => onclose_connect c1
              | ByResume => c1
              end
          end
      | None => c
      end
  | SocketError _ => c
  | TimerFired t =>
      match List.nth_error (timers (backoff c)) t with
      | Some tm =>
          if pending tm then
            connect
              (with_backoff
                 {| intentionalCloseRef := intentionalCloseRef (backoff c);
                    reconnectAttemptRef := reconnectAttemptRef (backoff c);
                    timers :=
                      updateAt t
                        (fun tm => {| delay := delay tm; pending := false |})
                        (timers (backoff c));
                    reconnectTimeoutRef := reconnectTimeoutRef (backoff c);
                    notices := notices (backoff c) |} c)
          else c
      | None => c
      end
  | PositionFix w lat lng accuracy heading =>
      match List.nth_error (watches (gps c)) w with
      | Some true => onPosition lat lng accuracy heading c
      | _ => c
      end
  | VisibilityChange state =>
      if mounted c && isActiveConn c then handleVisibilityChange state c
      else c
  | PageShow persisted =>
      if mounted c && isActiveConn c then handlePageShow persisted c else c
  | ResumeTimerFired =>
      match resumeTimers c with
      | [] => c
      | checked :: rest =>
          resumeTimerCallback checked (with_resumeTimers rest c)
      end
  end.

Definition connRun (c : Conn) (es : list ConnEvent) : Conn :=
  List.fold_left connStep es c.

(** The state before the component mounts. *)
Definition initialConn (uid sid : option Z) (geo : bool) : Conn :=
  {| conn_user := uid; conn_sessionId := sid; geolocation := geo;
     mounted := false;
     transport := {| sockets := []; wsRef := None |};
     backoff := {| intentionalCloseRef := false; reconnectAttemptRef := 0;
                   timers := []; reconnectTimeoutRef := None; notices := [] |};
     gps := {| watches := []; watchIdRef := None |};
     resumeTimers := [] |}.

(** The view when the page [/live-map/<sid>] is opened. *)
Definition initialView (u : option AuthUser) (sid : Z) (b : Backend) : View :=
  {| user := u; sessionId := Some sid; session := None; mapCurrent := false;
     memberPaths := JsMap.empty; memberLastUpdateRef := JsMap.empty;
     memberMarkersRef := JsMap.empty;
     location := ("/live-map/" ++ intToString sid)%string;
     toasts := []; invalidated := 0; backend := b |}.

(** The reading of [Date.now()] an event carries, if any. *)
Definition eventTime (e : ViewEvent) : option Z :=
  match e with
  | EvMessage now _ | EvResumeMessage now _ | EvSessionData now _
  | EvSweep now => Some now
  | EvClickEndSession _ | EvClickLeave _ | EvClickBack => None
  end.

(** The clock does not run backwards along the events, starting at
    [since]. *)
Fixpoint chronologicalFrom (since : Z) (es : list ViewEvent) : Prop :=
  match es with
  | [] => True
  | e :: rest =>
      match eventTime e with
      | Some now => (since <= now)%Z /\ chronologicalFrom now rest
      | None => chronologicalFrom since rest
      end
  end.

(** Every indicator that is on belongs to a member other than the local
    user whose last update is more than the threshold before [clock]. *)
Definition indicatorsJustified (clock : Z) (v : View) : Prop :=
  forall (uid : Z) (m : Marker),
    JsMap.get uid (memberMarkersRef v) = Some m ->
    lostOverlayShown m = true ->
    isLocalUser v uid = false /\
    exists t : Z,
      JsMap.get uid (memberLastUpdateRef v) = Some t /\
      (SIGNAL_LOST_THRESHOLD < clock - t)%Z.

(** Feeding one member's location updates, oldest first; each is a
    [member:locationUpdate] received at its time stamp. *)
Record Fix : Type := { fix_time : Z; fix_lat : float; fix_lng : float }.

Definition feedLocations (uid : Z) (fixes : list Fix) (v : View) : View :=
  List.fold_left
    (fun v f => updateMemberMarker (fix_time f) uid (fix_lat f) (fix_lng f) v)
    fixes v.

(** The entries [saveSessionPathsAsRoutes] does not skip. *)
Definition archivable (paths : JsMap.t Path) : list (Z * Path) :=
  List.filter (fun e => (2 <=? List.length (snd e))%nat) (JsMap.entries paths).

(** The route bodies of the requests in a log, accepted or not. *)
Fixpoint submittedRoutes (log : list (ApiRequest * bool)) : list RouteBody :=
  match log with
  | [] => []
  | (r, _) :: rest =>
      match req_body r with
      | Some body =>
          if isRoutePost r then body :: submittedRoutes rest
          else submittedRoutes rest
      | None => submittedRoutes rest
      end
  end.

(** One failed connection attempt of the reconnect loop: the socket in
    [wsRef] closes, then the timer its close handler made fires. *)
Definition failedAttempt (c : Conn) : Conn :=
  match wsRef (transport c) with
  | Some s =>
      connStep (connStep c (SocketClosed s))
        (TimerFired (List.length (timers (backoff c))))
  | None => c
  end.

Fixpoint failedAttempts (k : nat) (c : Conn) : Conn :=
  match k with
  | O => c
  | S k' => failedAttempts k' (failedAttempt c)
  end.

(** The controller is in the reconnect loop: the close was not asked for
    and [wsRef] holds a socket made by [connect] that has not closed yet. *)
Definition inReconnectLoop (c : Conn) : bool :=
  negb (intentionalCloseRef (backoff c)) &&
  match wsRef (transport c) with
  | Some s =>
      match socketAt c s with
      | Some sock =>
          match origin sock, readyState sock with
          | ByConnect, CLOSED => false
          | ByConnect, _ => true
          | ByResume, _ => false
          end
      | None => false
      end
  | None => false
  end.

(** The attempt numbers [n, n+1, ..., n+k-1]. *)
Fixpoint attemptsFrom (n : N) (k : nat) : list N :=
  match k with
  | O => []
  | S k' => n :: attemptsFrom (n + 1) k'
  end.

(* ================================================================== *)
(** ** A reference [Math] and sample data

    A plain series implementation of the [Math] functions, accurate to
    about nine digits on the arguments that occur here; it stands in for
    the engine's when the model is run on the sample data below.  The
    general theorems hold for every [JsMath]. *)
Module Reference.
Local Open Scope float_scope.

Definition sinSeries (x : float) : float :=
  let x2 := x * x in
  x * (1 - x2 / 6 * (1 - x2 / 20 * (1 - x2 / 42 * (1 - x2 / 72 *
      (1 - x2 / 110 * (1 - x2 / 156 * (1 - x2 / 210 * (1 - x2 / 272)))))))).

Definition cosSeries (x : float) : float :=
  let x2 := x * x in
  1 - x2 / 2 * (1 - x2 / 12 * (1 - x2 / 30 * (1 - x2 / 56 * (1 - x2 / 90 *
      (1 - x2 / 132 * (1 - x2 / 182 * (1 - x2 / 240 * (1 - x2 / 306)))))))).

Definition halveTangent (t : float) : float := t / (1 + sqrt (1 + t * t)).

Definition atanSeries (t : float) : float :=
  let u := halveTangent (halveTangent (halveTangent t)) in
  let u2 := u * u in
  8 * (u * (1 - u2 * (1 / 3 - u2 * (1 / 5 - u2 * (1 / 7 - u2 *
      (1 / 9 - u2 * (1 / 11 - u2 * (1 / 13)))))))).

Definition atan2Series (y x : float) : float :=
  if 0 <? x then atanSeries (y / x)
  else if x <? 0 then
    (if y <? 0 then atanSeries (y / x) - Math_PI
     else atanSeries (y / x) + Math_PI)
  else if 0 <? y then Math_PI / 2
  else if y <? 0 then - (Math_PI / 2)
  else 0.

Definition floorFloat (y : float) : float :=
  let big := 0x1p+52 in
  if big <=? abs y then y
  else
    let r := if 0 <=? y then (y + big) - big else (y - big) + big in
    if y <? r then r - 1 else r.

(** [Math.round]: the nearest whole number, ties upward. *)
Definition roundHalfUp (x : float) : float := floorFloat (x + 0.5).

(** [String(x)] on the whole numbers [Math.round] returns. *)
Definition wholeToString (x : float) : string :=
  match Prim2SF x with
  | S754_zero _ => "0"%string
  | S754_infinity s => if s then "-Infinity"%string else "Infinity"%string
  | S754_nan => "NaN"%string
  | S754_finite s m e =>
      let z := if (0 <=? e)%Z then (Z.pos m * 2 ^ e)%Z
               else (Z.pos m / 2 ^ (- e))%Z in
      intToString (if s then (- z)%Z else z)
  end.

Definition math : JsMath :=
  {| Math_sin := sinSeries; Math_cos := cosSeries;
     Math_atan2 := atan2Series; Math_round := roundHalfUp;
     Number_toString := wholeToString |}.
End Reference.

Module Sample.
Local Open Scope string_scope.

Definition alice : AuthUser :=
  {| au_id := 1; au_username := "alice"; au_fullName := Some "Alice A" |}.

Definition memberAlice : LiveMapMember :=
  {| userId := 1; latitude := None; longitude := None; lastActive := None;
     member_username := "alice"; member_fullName := Some "Alice A" |}.

Definition memberBob : LiveMapMember :=
  {| userId := 2; latitude := None; longitude := None; lastActive := None;
     member_username := "bob"; member_fullName := None |}.

Definition ridgeWalk : SessionData :=
  {| session_id := 5; ownerId := 1; session_name := "Ridge Walk";
     isActive := true; members := [memberAlice; memberBob] |}.


Definition alwaysOk : Backend := {| accepts := fun _ => true; served := [] |}.


(** Alice, the owner, looking at the loaded session. *)
Definition ownerView (paths : JsMap.t Path) (b : Backend) : View :=
  {| user := Some alice; sessionId := Some 5%Z; session := Some ridgeWalk;
     mapCurrent := true; memberPaths := paths;
     memberLastUpdateRef := JsMap.empty; memberMarkersRef := JsMap.empty;
     location := "/live-map/5"; toasts := []; invalidated := 0;
     backend := b |}.

Definition bobsPath : Path := [(10, 10); (10.5, 10.25)]%float.
Definition threePoints : Path := [(20, 20); (20.5, 20.5); (21, 20.5)]%float.

Definition twoPaths : JsMap.t Path :=
  [(2%Z, bobsPath); (1%Z, threePoints); (3%Z, [(30, 30)%float])].

Definition bobOnly : JsMap.t Path := [(2%Z, bobsPath)].

Definition today : string := "11/3/2026".

Definition bob : AuthUser :=
  {| au_id := 2; au_username := "bob"; au_fullName := None |}.

(** Bob, a participant, looking at the loaded session. *)
Definition memberView : View :=
  {| user := Some bob; sessionId := Some 5%Z; session := Some ridgeWalk;
     mapCurrent := true; memberPaths := bobOnly;
     memberLastUpdateRef := JsMap.empty; memberMarkersRef := JsMap.empty;
     location := "/live-map/5"; toasts := []; invalidated := 0;
     backend := alwaysOk |}.


(** A mounted controller of user 1 in session 5 with geolocation. *)
Definition mountedConn : Conn :=
  connStep (initialConn (Some 1%Z) (Some 5%Z) true) EffectsRun.

Definition joinedConn : Conn := connStep mountedConn (SocketOpened 0).

End Sample.

(* ================================================================== *)
(** ** What is kept of the per-member maps *)

(** The local user is on neither of the per-member maps of the sweep. *)
Definition localUntracked (v : View) : Prop :=
  forall uid, isLocalUser v uid = true ->
    JsMap.get uid (memberMarkersRef v) = None /\
    JsMap.get uid (memberLastUpdateRef v) = None.

(** Every marker has a last-update time stamp. *)
Definition markersStamped (v : View) : Prop :=
  forall uid m, JsMap.get uid (memberMarkersRef v) = Some m ->
    exists t, JsMap.get uid (memberLastUpdateRef v) = Some t.

(* ================================================================== *)
(** ** The messages on a socket and the reconnect delays *)

Definition isLocationReport (m : ClientMessage) : bool :=
  match m with
  | SessionLocation _ _ _ _ => true
  | _ => false
  end.

(** What a socket has been sent so far: nothing while it is not open yet,
    else [auth], [session:join] and then location reports only. *)
Definition handshakeFirst (uid : Z) (sid : option Z) (sock : Socket) : Prop :=
  match readyState sock with
  | CONNECTING => sent sock = []
  | OPEN =>
      exists reports,
        sent sock = Auth uid :: SessionJoin sid :: reports /\
        List.forallb isLocationReport reports = true
  | _ =>
      sent sock = [] \/
      exists reports,
        sent sock = Auth uid :: SessionJoin sid :: reports /\
        List.forallb isLocationReport reports = true
  end.

(** The delay of every reconnect timer is one of the back-off steps. *)
Definition onSchedule (t : Timer) : Prop :=
  In (delay t) [1000; 2000; 4000; 8000; 16000; 30000]%N.

(** The socket discipline: the user and session are fixed and every socket
    has been sent the handshake first. *)
Definition handshakeKept (uid : Z) (sid : option Z) (c : Conn) : Prop :=
  conn_user c = Some uid /\ conn_sessionId c = sid /\
  Forall (handshakeFirst uid sid) (sockets (transport c)).

(** The reconnect timers and their notices follow the back-off steps. *)
Definition scheduleKept (c : Conn) : Prop :=
  Forall onSchedule (timers (backoff c)) /\
  Forall (fun n => In n [1; 2; 4; 8; 16; 30]%N) (notices (backoff c)) /\
  List.length (notices (backoff c)) = List.length (timers (backoff c)).

(* ================================================================== *)
(** ** Member colours *)

(** [const MEMBER_COLORS = [...]]: blue for the current user first. *)
Definition MEMBER_COLORS : list string :=
  ["#3b82f6"; "#10b981"; "#f59e0b"; "#ef4444"; "#8b5cf6";
   "#ec4899"; "#06b6d4"; "#84cc16"; "#f97316"; "#6366f1"]%string.

(** [arr[i]] for a whole number [i]: undefined outside the array. *)
Definition elementAt {A} (arr : list A) (i : Z) : option A :=
  if (i <? 0)%Z then None else List.nth_error arr (Z.to_nat i).

(** [arr.findIndex(p)]: the index of the first match, or [-1]. *)
Fixpoint findIndex {A} (p : A -> bool) (l : list A) : Z :=
  match l with
  | [] => (-1)%Z
  | x :: r =>
      if p x then 0%Z
      else let i := findIndex p r in
           if (i <? 0)%Z then (-1)%Z else (i + 1)%Z
  end.

(** [arr.sort((a, b) => a.userId - b.userId)]: ascending by [userId],
    members with equal ids in their original order (the sort is stable). *)
Fixpoint insertByUserId (m : LiveMapMember) (sorted : list LiveMapMember)
    : list LiveMapMember :=
  match sorted with
  | [] => [m]
  | x :: r =>
      if (userId m <=? userId x)%Z then m :: x :: r
      else x :: insertByUserId m r
  end.

Definition sortByUserId (l : list LiveMapMember) : list LiveMapMember :=
  List.fold_right insertByUserId [] l.

(** [m.userId !== currentUserId], with [currentUserId] possibly undefined. *)
Definition isCurrentUser (currentUserId : option Z) (id : Z) : bool :=
  match currentUserId with
  | Some me => Z.eqb id me
  | None => false
  end.

(** [getMemberColor(userId, members, currentUserId)]; [None] stands for
    [undefined], the value of an index outside [MEMBER_COLORS]. *)
Definition getMemberColor (uid : Z) (members : list LiveMapMember)
    (currentUserId : option Z) : option string :=
  if isCurrentUser currentUserId uid then elementAt MEMBER_COLORS 0
  else
    let otherMembers :=
      sortByUserId
        (List.filter (fun m => negb (isCurrentUser currentUserId (userId m)))
           members) in
    let index := findIndex (fun m => Z.eqb (userId m) uid) otherMembers in
    elementAt MEMBER_COLORS
      (Z.rem index (Z.of_nat (List.length MEMBER_COLORS) - 1) + 1).

(** The members other than the current user, as listed. *)
Definition otherMembersOf (members : list LiveMapMember)
    (currentUserId : option Z) : list LiveMapMember :=
  List.filter (fun m => negb (isCurrentUser currentUserId (userId m))) members.

(** The number of other members with a smaller id. *)
Definition rankAmong (uid : Z) (others : list LiveMapMember) : nat :=
  List.length (List.filter (fun m => (userId m <? uid)%Z) others).

(** The order [sortByUserId] establishes. *)
Definition byUserId (a b : LiveMapMember) : Prop := (userId a <= userId b)%Z.

(* ================================================================== *)
(** ** Waypoint markers *)

(** A waypoint of the session; the coordinates are the [parseFloat] of the
    strings the server sends. *)
Record Poi : Type := {
  poi_id : Z;
  poi_latitude : float;
  poi_longitude : float
}.

(** [map.delete(k)] *)
Definition JsMap_delete {V} (k : Z) (m : JsMap.t V) : JsMap.t V :=
  List.filter (fun e => negb (Z.eqb (fst e) k)) m.

(** The callback of the first [poiMarkersRef.current.forEach]: a marker
    whose waypoint is gone is removed. *)
Definition removeStalePoiMarker (pois : list Poi) (markers : JsMap.t Point)
    (entry : Z * Point) : JsMap.t Point :=
  match find_first (fun p => Z.eqb (poi_id p) (fst entry)) pois with
  | Some _ => markers
  | None => JsMap_delete (fst entry) markers
  end.

(** The callback of [session.pois.forEach]: a waypoint without a marker
    gets one at [[longitude, latitude]]. *)
Definition addPoiMarker (markers : JsMap.t Point) (poi : Poi)
    : JsMap.t Point :=
  if JsMap.has (poi_id poi) markers then markers
  else JsMap.set (poi_id poi) (poi_longitude poi, poi_latitude poi) markers.

(** The effect that renders the waypoint markers, on [poiMarkersRef];
    [pois] is [session?.pois]. *)
Definition poiMarkersEffect (pois : option (list Poi)) (mapCurrent : bool)
    (markers : JsMap.t Point) : JsMap.t Point :=
  match pois with
  | Some ps =>
      if mapCurrent
      then List.fold_left addPoiMarker ps
             (List.fold_left (removeStalePoiMarker ps)
                (JsMap.entries markers) markers)
      else markers
  | None => markers
  end.

(* ================================================================== *)
(** ** Path lines

    The source [member-path-<userId>] and its line layer
    [member-path-line-<userId>] on the map: the coordinates of the source
    and the [line-color] the layer was created with. *)
Record PathLine : Type := {
  line_coordinates : Path;
  line_color : option string
}.

(** The callback of [memberPaths.forEach] in the effect that draws the
    path lines: an existing source gets the new data, a missing one is
    created together with its layer. *)
Definition drawMemberPath (members : list LiveMapMember)
    (currentUserId : option Z) (lines : JsMap.t PathLine) (entry : Z * Path)
    : JsMap.t PathLine :=
  let '(uid, path) := entry in
  if (List.length path <? 2)%nat then lines
  else
    match JsMap.get uid lines with
    | Some existing =>
        JsMap.set uid
          {| line_coordinates := path; line_color := line_color existing |}
          lines
    | None =>
        JsMap.set uid
          {| line_coordinates := path;
             line_color := getMemberColor uid members currentUserId |}
          lines
    end.

(** The effect, on the lines of the map; [members] is [session?.members]
    and [currentUserId] is [user?.id]. *)
Definition pathLinesEffect (mapCurrent mapReady : bool)
    (members : option (list LiveMapMember)) (currentUserId : option Z)
    (paths : JsMap.t Path) (lines : JsMap.t PathLine) : JsMap.t PathLine :=
  match members with
  | Some ms =>
      if mapCurrent && mapReady
      then List.fold_left (drawMemberPath ms currentUserId)
             (JsMap.entries paths) lines
      else lines
  | None => lines
  end.

(* ================================================================== *)
(** ** The activity recorder ([useActivityRecording])

    The other user of [useBackgroundResilience].  Its React state, the refs
    [lastValidPointRef], [watchIdRef] and [timerRef], and the handlers that
    start, pause, resume, stop and discard a recording, take in a fix and
    bring the recorder back to the foreground.  Waypoints, toasts, the wake
    lock, saving, and the copy of the state in [localStorage] with the
    restoring of a recording from it are not modelled. *)
Module Recording.
Section WithMath.
Context {M : JsMath}.
Local Open Scope float_scope.

Inductive ActivityType : Type := Run | Ski | Hike | Bike.

(** [TrackPoint]; [None] is [null]. *)
Record TrackPoint : Type := {
  latitude : float;
  longitude : float;
  altitude : option float;
  accuracy : float;
  timestamp : float;
  speed : option float
}.

Record ActivityStats : Type := {
  distance : float;
  elapsedTime : float;
  movingTime : float;
  averageSpeed : float;
  maxSpeed : float;
  currentSpeed : float;
  averagePace : float;
  currentPace : float;
  elevationGain : float;
  elevationLoss : float;
  currentAltitude : option float
}.

Definition initialStats : ActivityStats :=
  {| distance := 0; elapsedTime := 0; movingTime := 0; averageSpeed := 0;
     maxSpeed := 0; currentSpeed := 0; averagePace := 0; currentPace := 0;
     elevationGain := 0; elevationLoss := 0; currentAltitude := None |}.

Definition MIN_ACCURACY_THRESHOLD : float := 30.
Definition MIN_DISTANCE_THRESHOLD : float := 3.
Definition STATIONARY_SPEED_THRESHOLD : float := 0x1.3333333333333p-2.

(** [calculateDistance(lat1, lon1, lat2, lon2)] *)
Definition calculateDistance (lat1 lon1 lat2 lon2 : float) : float :=
  let R := 6371000 in
  let dLat := ((lat2 - lat1) * Math_PI) / 180 in
  let dLon := ((lon2 - lon1) * Math_PI) / 180 in
  let a :=
    Math_sin (dLat / 2) * Math_sin (dLat / 2) +
    Math_cos ((lat1 * Math_PI) / 180) *
      Math_cos ((lat2 * Math_PI) / 180) *
      Math_sin (dLon / 2) *
      Math_sin (dLon / 2) in
  let c := 2 * Math_atan2 (Math_sqrt a) (Math_sqrt (1 - a)) in
  R * c.

(** The variables the loop of [updateStats] carries. *)
Record Totals : Type := {
  totalDistance : float;
  totalMovingTime : float;
  totalGain : float;
  totalLoss : float;
  topSpeed : float;
  lastAltitude : option float
}.

(** One round of the loop of [updateStats], for [prev = trackPoints[i - 1]]
    and [curr = trackPoints[i]]. *)
Definition statsRound (prev curr : TrackPoint) (t : Totals) : Totals :=
  let dist := calculateDistance (latitude prev) (longitude prev)
                (latitude curr) (longitude curr) in
  let timeDiff := (timestamp curr - timestamp prev) / 1000 in
  let speed' := dist / timeDiff in
  let climbs :=
    match altitude curr, altitude prev with
    | Some currAlt, Some prevAlt =>
        let altDiff := currAlt - prevAlt in
        if 0 <? altDiff then (totalGain t + altDiff, totalLoss t)
        else (totalGain t, totalLoss t + abs altDiff)
    | _, _ => (totalGain t, totalLoss t)
    end in
  {| totalDistance := totalDistance t + dist;
     totalMovingTime :=
       if STATIONARY_SPEED_THRESHOLD <? speed'
       then totalMovingTime t + timeDiff else totalMovingTime t;
     totalGain := fst climbs;
     totalLoss := snd climbs;
     topSpeed :=
       match speed curr with
       | Some s => if topSpeed t <? s then s else topSpeed t
       | None => topSpeed t
       end;
     lastAltitude :=
       match altitude curr with
       | Some a => Some a
       | None => lastAltitude t
       end |}.

Fixpoint statsLoop (prev : TrackPoint) (rest : list TrackPoint) (t : Totals)
    : Totals :=
  match rest with
  | [] => t
  | curr :: rest' => statsLoop curr rest' (statsRound prev curr t)
  end.

(** [updateStats(trackPoints, startTime)] at time [now] ([Date.now()]);
    [startTime] is the time value of the [Date]. *)
Definition updateStats (now : float) (trackPoints : list TrackPoint)
    (startTime : option float) : ActivityStats :=
  match trackPoints, startTime with
  | first :: rest, Some start =>
      let t := statsLoop first rest
                 {| totalDistance := 0; totalMovingTime := 0; totalGain := 0;
                    totalLoss := 0; topSpeed := 0; lastAltitude := None |} in
      let elapsed := (now - start) / 1000 in
      let average :=
        if 0 <? totalMovingTime t then totalDistance t / totalMovingTime t
        else 0 in
      let current :=
        match lastElement trackPoints with
        | Some lastPoint =>
            match speed lastPoint with Some s => s | None => 0 end
        | None => 0
        end in
      {| distance := totalDistance t;
         elapsedTime := elapsed;
         movingTime := totalMovingTime t;
         averageSpeed := average;
         maxSpeed := topSpeed t;
         currentSpeed := current;
         averagePace := if 0 <? average then 1000 / average else 0;
         currentPace := if 0 <? current then 1000 / current else 0;
         elevationGain := totalGain t;
         elevationLoss := totalLoss t;
         currentAltitude := lastAltitude t |}
  | _, _ => initialStats
  end.

Record RecordingState : Type := {
  isRecording : bool;
  isPaused : bool;
  activityType : ActivityType;
  startTime : option float;
  trackPoints : list TrackPoint;
  stats : ActivityStats;
  currentPosition : option (float * float)
}.

(** The hook: its state and refs, and the geolocation watches and interval
    timers it has registered ([true] while not cleared). *)
Record Hook : Type := {
  state : RecordingState;
  lastValidPointRef : option TrackPoint;
  watches : list bool;
  watchIdRef : option nat;
  intervals : list bool;
  timerRef : option nat
}.

Definition with_state (s : RecordingState) (h : Hook) : Hook :=
  {| state := s; lastValidPointRef := lastValidPointRef h;
     watches := watches h; watchIdRef := watchIdRef h;
     intervals := intervals h; timerRef := timerRef h |}.

Definition with_position (lat lng : float) (s : RecordingState)
    : RecordingState :=
  {| isRecording := isRecording s; isPaused := isPaused s;
     activityType := activityType s; startTime := startTime s;
     trackPoints := trackPoints s; stats := stats s;
     currentPosition := Some (lat, lng) |}.

Definition with_elapsed (e : float) (s : RecordingState) : RecordingState :=
  {| isRecording := isRecording s; isPaused := isPaused s;
     activityType := activityType s; startTime := startTime s;
     trackPoints := trackPoints s;
     stats :=
       {| distance := distance (stats s); elapsedTime := e;
          movingTime := movingTime (stats s);
          averageSpeed := averageSpeed (stats s);
          maxSpeed := maxSpeed (stats s);
          currentSpeed := currentSpeed (stats s);
          averagePace := averagePace (stats s);
          currentPace := currentPace (stats s);
          elevationGain := elevationGain (stats s);
          elevationLoss := elevationLoss (stats s);
          currentAltitude := currentAltitude (stats s) |};
     currentPosition := currentPosition s |}.

Definition with_flags (recording paused : bool) (s : RecordingState)
    : RecordingState :=
  {| isRecording := recording; isPaused := paused;
     activityType := activityType s; startTime := startTime s;
     trackPoints := trackPoints s; stats := stats s;
     currentPosition := currentPosition s |}.

Definition idleState : RecordingState :=
  {| isRecording := false; isPaused := false; activityType := Hike;
     startTime := None; trackPoints := []; stats := initialStats;
     currentPosition := None |}.

(** The hook when the component mounts. *)
Definition initialHook : Hook :=
  {| state := idleState; lastValidPointRef := None; watches := [];
     watchIdRef := None; intervals := []; timerRef := None |}.

(** [handlePositionUpdate(position)]: [newPoint] holds the coordinates of
    the fix, [now] is [Date.now()] when the state updater runs. *)
Definition handlePositionUpdate (now : float) (newPoint : TrackPoint)
    (h : Hook) : Hook :=
  if MIN_ACCURACY_THRESHOLD <? accuracy newPoint then h
  else
    let prev := state h in
    let located := with_position (latitude newPoint) (longitude newPoint) in
    if negb (isRecording prev) || isPaused prev
    then with_state (located prev) h
    else
      let tooClose :=
        match lastValidPointRef h with
        | Some lastPoint =>
            calculateDistance (latitude lastPoint) (longitude lastPoint)
              (latitude newPoint) (longitude newPoint)
            <? MIN_DISTANCE_THRESHOLD
        | None => false
        end in
      if tooClose then with_state (located prev) h
      else
        let newTrackPoints := trackPoints prev ++ [newPoint] in
        {| state :=
             {| isRecording := isRecording prev; isPaused := isPaused prev;
                activityType := activityType prev;
                startTime := startTime prev;
                trackPoints := newTrackPoints;
                stats := updateStats now newTrackPoints (startTime prev);
                currentPosition :=
                  Some (latitude newPoint, longitude newPoint) |};
           lastValidPointRef := Some newPoint;
           watches := watches h; watchIdRef := watchIdRef h;
           intervals := intervals h; timerRef := timerRef h |}.

(** [navigator.geolocation.watchPosition(...)], stored in [watchIdRef]. *)
Definition watchPosition (h : Hook) : Hook :=
  {| state := state h; lastValidPointRef := lastValidPointRef h;
     watches := watches h ++ [true];
     watchIdRef := Some (List.length (watches h));
     intervals := intervals h; timerRef := timerRef h |}.

(** [if (watchIdRef.current !== null) clearWatch(watchIdRef.current)] *)
Definition clearWatch (h : Hook) : Hook :=
  match watchIdRef h with
  | Some w =>
      {| state := state h; lastValidPointRef := lastValidPointRef h;
         watches := updateAt w (fun _ => false) (watches h);
         watchIdRef := watchIdRef h;
         intervals := intervals h; timerRef := timerRef h |}
  | None => h
  end.

(** The callback of the one-second interval. *)
Definition tick (now : float) (h : Hook) : Hook :=
  let prev := state h in
  match startTime prev with
  | Some start =>
      if negb (isRecording prev) || isPaused prev then h
      else with_state (with_elapsed ((now - start) / 1000) prev) h
  | None => h
  end.

(** [handleForegroundResume], the [onForegroundResume] handed to
    [useBackgroundResilience]. *)
Definition handleForegroundResume (now : float) (h : Hook) : Hook :=
  let h1 := watchPosition (clearWatch h) in
  let prev := state h1 in
  match startTime prev with
  | Some start =>
      if negb (isRecording prev) then h1
      else with_state (with_elapsed ((now - start) / 1000) prev) h1
  | None => h1
  end.

(** [startRecording(activityType)] with geolocation available; [now] is
    the time value of [new Date()]. *)
Definition startRecording (now : float) (type : ActivityType) (h : Hook)
    : Hook :=
  {| state :=
       {| isRecording := true; isPaused := false; activityType := type;
          startTime := Some now; trackPoints := []; stats := initialStats;
          currentPosition := None |};
     lastValidPointRef := None;
     watches := watches h ++ [true];
     watchIdRef := Some (List.length (watches h));
     intervals := intervals h ++ [true];
     timerRef := Some (List.length (intervals h)) |}.

Definition pauseRecording (h : Hook) : Hook :=
  with_state (with_flags (isRecording (state h)) true (state h)) h.

Definition resumeRecording (h : Hook) : Hook :=
  with_state (with_flags (isRecording (state h)) false (state h)) h.

(** [stopRecording]: the watch and the interval are cleared and their refs
    reset, the points stay. *)
Definition stopRecording (h : Hook) : Hook :=
  {| state := with_flags false false (state h);
     lastValidPointRef := lastValidPointRef h;
     watches :=
       match watchIdRef h with
       | Some w => updateAt w (fun _ => false) (watches h)
       | None => watches h
       end;
     watchIdRef := None;
     intervals :=
       match timerRef h with
       | Some t => updateAt t (fun _ => false) (intervals h)
       | None => intervals h
       end;
     timerRef := None |}.

Definition discardRecording (h : Hook) : Hook :=
  let h1 := stopRecording h in
  {| state := idleState; lastValidPointRef := None;
     watches := watches h1; watchIdRef := watchIdRef h1;
     intervals := intervals h1; timerRef := timerRef h1 |}.

Inductive Event : Type :=
| Start (now : float) (type : ActivityType)
| Pause
| Resume
| Stop
| Discard
| Position (now : float) (point : TrackPoint)
| Tick (now : float)
| ForegroundResume (now : float).

Definition step (h : Hook) (e : Event) : Hook :=
  match e with
  | Start now type => startRecording now type h
  | Pause => pauseRecording h
  | Resume => resumeRecording h
  | Stop => stopRecording h
  | Discard => discardRecording h
  | Position now point => handlePositionUpdate now point h
  | Tick now => tick now h
  | ForegroundResume now => handleForegroundResume now h
  end.

Definition run (h : Hook) (es : list Event) : Hook :=
  List.fold_left step es h.

(** [trackPoints.map((p) => [p.longitude, p.latitude])], the path
    [saveRecording] stores. *)
Definition pathCoordinatesOf (points : list TrackPoint) : Path :=
  List.map (fun p => (longitude p, latitude p)) points.

(** Consecutive points pass the distance filter. *)
Fixpoint spaced (points : list TrackPoint) : Prop :=
  match points with
  | p :: ((q :: _) as rest) =>
      (calculateDistance (latitude p) (longitude p) (latitude q) (longitude q)
       <? MIN_DISTANCE_THRESHOLD) = false /\ spaced rest
  | _ => True
  end.

End WithMath.
End Recording.

(** What holds of the hook after every event. *)
Definition recorderKept {M : JsMath} (h : Recording.Hook) : Prop :=
  Recording.spaced (Recording.trackPoints (Recording.state h)) /\
  Forall (fun p => (Recording.MIN_ACCURACY_THRESHOLD <?
                    Recording.accuracy p)%float = false)
    (Recording.trackPoints (Recording.state h)) /\
  Recording.lastValidPointRef h =
    lastElement (Recording.trackPoints (Recording.state h)) /\
  Recording.distance (Recording.stats (Recording.state h)) =
    calculatePathDistance
      (Recording.pathCoordinatesOf
         (Recording.trackPoints (Recording.state h))) /\
  (Recording.isRecording (Recording.state h) = true ->
   Recording.startTime (Recording.state h) <> None).

(* ================================================================== *)
(** ** The map tools: waypoint placement, measuring, route drawing

    The React state the map click handler and the toolbar buttons share. *)
Record Tools : Type := {
  isAddingPoi : bool;
  (** [{ lat, lng }] *)
  pendingPoiLocation : option (float * float);
  isMeasuring : bool;
  measurementPath : list Point;
  isDrawingRoute : bool;
  drawRoutePoints : list Point;
  isEditingSharedRoute : bool
}.

Definition initialTools : Tools :=
  {| isAddingPoi := false; pendingPoiLocation := None; isMeasuring := false;
     measurementPath := []; isDrawingRoute := false; drawRoutePoints := [];
     isEditingSharedRoute := false |}.

(** [handleClick(e)] for a click at [e.lngLat = (lng, lat)].  The handler is
    re-registered when [isAddingPoi], [isMeasuring] or [isDrawingRoute]
    change, not when [isEditingSharedRoute] does: [editingSeen] is the value
    of [isEditingSharedRoute] the registered handler closed over. *)
Definition handleClick (lng lat : float) (editingSeen : bool) (t : Tools)
    : Tools :=
  if isAddingPoi t then
    {| isAddingPoi := false; pendingPoiLocation := Some (lat, lng);
       isMeasuring := isMeasuring t; measurementPath := measurementPath t;
       isDrawingRoute := isDrawingRoute t;
       drawRoutePoints := drawRoutePoints t;
       isEditingSharedRoute := isEditingSharedRoute t |}
  else if isMeasuring t then
    {| isAddingPoi := isAddingPoi t;
       pendingPoiLocation := pendingPoiLocation t;
       isMeasuring := isMeasuring t;
       measurementPath := measurementPath t ++ [(lng, lat)];
       isDrawingRoute := isDrawingRoute t;
       drawRoutePoints := drawRoutePoints t;
       isEditingSharedRoute := isEditingSharedRoute t |}
  else if isDrawingRoute t && negb editingSeen then
    {| isAddingPoi := isAddingPoi t;
       pendingPoiLocation := pendingPoiLocation t;
       isMeasuring := isMeasuring t; measurementPath := measurementPath t;
       isDrawingRoute := isDrawingRoute t;
       drawRoutePoints := drawRoutePoints t ++ [(lng, lat)];
       isEditingSharedRoute := isEditingSharedRoute t |}
  else t.

Definition setAddingPoi (b : bool) (t : Tools) : Tools :=
  {| isAddingPoi := b; pendingPoiLocation := pendingPoiLocation t;
     isMeasuring := isMeasuring t; measurementPath := measurementPath t;
     isDrawingRoute := isDrawingRoute t; drawRoutePoints := drawRoutePoints t;
     isEditingSharedRoute := isEditingSharedRoute t |}.

Definition setPendingPoiLocation (p : option (float * float)) (t : Tools)
    : Tools :=
  {| isAddingPoi := isAddingPoi t; pendingPoiLocation := p;
     isMeasuring := isMeasuring t; measurementPath := measurementPath t;
     isDrawingRoute := isDrawingRoute t; drawRoutePoints := drawRoutePoints t;
     isEditingSharedRoute := isEditingSharedRoute t |}.

Definition setMeasuring (b : bool) (path : list Point) (t : Tools) : Tools :=
  {| isAddingPoi := isAddingPoi t; pendingPoiLocation := pendingPoiLocation t;
     isMeasuring := b; measurementPath := path;
     isDrawingRoute := isDrawingRoute t; drawRoutePoints := drawRoutePoints t;
     isEditingSharedRoute := isEditingSharedRoute t |}.

Definition setDrawing (b : bool) (points : list Point) (t : Tools) : Tools :=
  {| isAddingPoi := isAddingPoi t; pendingPoiLocation := pendingPoiLocation t;
     isMeasuring := isMeasuring t; measurementPath := measurementPath t;
     isDrawingRoute := b; drawRoutePoints := points;
     isEditingSharedRoute := isEditingSharedRoute t |}.

Definition setEditingSharedRoute (b : bool) (t : Tools) : Tools :=
  {| isAddingPoi := isAddingPoi t; pendingPoiLocation := pendingPoiLocation t;
     isMeasuring := isMeasuring t; measurementPath := measurementPath t;
     isDrawingRoute := isDrawingRoute t; drawRoutePoints := drawRoutePoints t;
     isEditingSharedRoute := b |}.

(** [clearMeasurement]: [setMeasurementPath([])]; the markers, labels and
    the map layer it also removes are not modelled. *)
Definition clearMeasurement (t : Tools) : Tools :=
  setMeasuring (isMeasuring t) [] t.

(** The Measure button of the toolbar. *)
Definition clickMeasure (t : Tools) : Tools :=
  let t1 := if isMeasuring t then clearMeasurement t else t in
  setMeasuring (negb (isMeasuring t)) (measurementPath t1) t1.

(** The Done button of the measurement panel. *)
Definition clickDoneMeasurement (t : Tools) : Tools :=
  setMeasuring false (measurementPath (clearMeasurement t))
    (clearMeasurement t).

(** The Route button of the toolbar. *)
Definition clickRoute (t : Tools) : Tools :=
  setDrawing (negb (isDrawingRoute t))
    (if isDrawingRoute t then [] else drawRoutePoints t) t.

(** The Undo button: [prev.slice(0, -1)]. *)
Definition clickUndo (t : Tools) : Tools :=
  setDrawing (isDrawingRoute t) (List.removelast (drawRoutePoints t)) t.

(** The Cancel button of the drawing banner, and [onSuccess] of
    [saveRouteMutation]: the points are dropped and drawing ends. *)
Definition clickCancelDrawing (t : Tools) : Tools := setDrawing false [] t.

Definition saveRouteSucceeded (t : Tools) : Tools := setDrawing false [] t.

(** The Draw New Route button of the routes panel. *)
Definition clickDrawNewRoute (t : Tools) : Tools :=
  setDrawing true (drawRoutePoints t) t.

(** [dragend] of the marker of point [index]:
    [updated[index] = [lngLat.lng, lngLat.lat]]. *)
Definition dragRoutePoint (index : nat) (lng lat : float) (t : Tools)
    : Tools :=
  setDrawing (isDrawingRoute t)
    (updateAt index (fun _ => (lng, lat)) (drawRoutePoints t)) t.

Inductive ToolEvent : Type :=
| MapClick (lng lat : float) (editingSeen : bool)
| ClickWaypoint
| ClickCancelWaypoint
| CreatePoiSucceeded
| ClosePoiDialog
| ClickMeasure
| ClickClearMeasurement
| ClickDoneMeasurement
| ClickRoute
| ClickDrawNewRoute
| ClickUndo
| ClickCancelDrawing
| SaveRouteSucceeded
| DragRoutePoint (index : nat) (lng lat : float)
| EditSharedRoute (on : bool).

(** A marker exists for each current point only, so a drag carries an index
    inside the array. *)
Definition toolStep (t : Tools) (e : ToolEvent) : Tools :=
  match e with
  | MapClick lng lat editingSeen => handleClick lng lat editingSeen t
  | ClickWaypoint => setAddingPoi (negb (isAddingPoi t)) t
  | ClickCancelWaypoint => setAddingPoi false t
  | CreatePoiSucceeded => setAddingPoi false t
  | ClosePoiDialog => setPendingPoiLocation None t
  | ClickMeasure => clickMeasure t
  | ClickClearMeasurement => clearMeasurement t
  | ClickDoneMeasurement => clickDoneMeasurement t
  | ClickRoute => clickRoute t
  | ClickDrawNewRoute => clickDrawNewRoute t
  | ClickUndo => clickUndo t
  | ClickCancelDrawing => clickCancelDrawing t
  | SaveRouteSucceeded => saveRouteSucceeded t
  | DragRoutePoint index lng lat =>
      if (index <? List.length (drawRoutePoints t))%nat
      then dragRoutePoint index lng lat t else t
  | EditSharedRoute on => setEditingSharedRoute on t
  end.

Definition toolRun (t : Tools) (es : list ToolEvent) : Tools :=
  List.fold_left toolStep es t.

(** Points are held only by a tool that is switched on. *)
Definition toolsTidy (t : Tools) : Prop :=
  (measurementPath t <> [] -> isMeasuring t = true) /\
  (drawRoutePoints t <> [] -> isDrawingRoute t = true).

(* ================================================================== *)
(** * Facts about the containers *)

Lemma get_set_same : forall V (k : Z) (v : V) (m : JsMap.t V),
  JsMap.get k (JsMap.set k v m) = Some v.
Proof.
  induction m as [|[k' v'] r IH]; simpl.
  - now rewrite Z.eqb_refl.
  - destruct (Z.eqb_spec k k') as [->|Hne]; simpl.
    + now rewrite Z.eqb_refl.
    + destruct (Z.eqb_spec k k'); [contradiction|exact IH].
Qed.

Lemma get_set_other : forall V (k k' : Z) (v : V) (m : JsMap.t V),
  k <> k' -> JsMap.get k' (JsMap.set k v m) = JsMap.get k' m.
Proof.
  intros V k k' v m Hne.
  induction m as [|[k0 v0] r IH]; simpl.
  - destruct (Z.eqb_spec k' k); [congruence|reflexivity].
  - destruct (Z.eqb_spec k k0) as [->|Hk]; simpl.
    + destruct (Z.eqb_spec k' k0); [congruence|reflexivity].
    + destruct (Z.eqb_spec k' k0); [reflexivity|exact IH].
Qed.

Lemma keys_set : forall V (k : Z) (v : V) (m : JsMap.t V),
  JsMap.keys (JsMap.set k v m) =
  if JsMap.has k m then JsMap.keys m else JsMap.keys m ++ [k].
Proof.
  unfold JsMap.has.
  induction m as [|[k' v'] r IH]; simpl; [reflexivity|].
  destruct (Z.eqb_spec k k') as [->|Hne]; simpl; [reflexivity|].
  rewrite IH. now destruct (JsMap.get k r).
Qed.

Lemma has_keys : forall V (k : Z) (m : JsMap.t V),
  JsMap.has k m = true <-> In k (JsMap.keys m).
Proof.
  unfold JsMap.has.
  induction m as [|[k' v'] r IH]; simpl.
  - split; [discriminate|tauto].
  - destruct (Z.eqb_spec k k') as [->|Hne].
    + split; auto.
    + rewrite IH. split; [auto|intros [H|H]; [congruence|exact H]].
Qed.

Lemma wf_set : forall V (k : Z) (v : V) (m : JsMap.t V),
  JsMap.wf m -> JsMap.wf (JsMap.set k v m).
Proof.
  unfold JsMap.wf. intros V k v m Hwf. rewrite keys_set.
  destruct (JsMap.has k m) eqn:Hhas; [exact Hwf|].
  apply NoDup_app; [exact Hwf| repeat constructor; simpl; tauto |].
  intros x Hx [<-|[]].
  apply has_keys in Hx. congruence.
Qed.

Lemma get_of_entry : forall V (k : Z) (v : V) (m : JsMap.t V),
  JsMap.wf m -> In (k, v) (JsMap.entries m) -> JsMap.get k m = Some v.
Proof.
  unfold JsMap.wf, JsMap.entries.
  induction m as [|[k' v'] r IH]; simpl; intros Hwf Hin; [contradiction|].
  inversion Hwf as [|? ? Hnot Hrest]; subst.
  destruct Hin as [Heq|Hin].
  - inversion Heq; subst. now rewrite Z.eqb_refl.
  - destruct (Z.eqb_spec k k') as [->|Hne].
    + exfalso. apply Hnot. change (In k' (List.map fst r)).
      apply in_map_iff. now exists (k', v).
    + now apply IH.
Qed.

Lemma entry_of_get : forall V (k : Z) (v : V) (m : JsMap.t V),
  JsMap.get k m = Some v -> In (k, v) (JsMap.entries m).
Proof.
  unfold JsMap.entries.
  induction m as [|[k' v'] r IH]; simpl; intros H; [discriminate|].
  destruct (Z.eqb_spec k k') as [->|Hne].
  - inversion H; subst. now left.
  - right. now apply IH.
Qed.

Lemma lastElement_snoc : forall A (l : list A) (x : A),
  lastElement (l ++ [x]) = Some x.
Proof.
  induction l as [|a l IH]; intros x; [reflexivity|].
  simpl. rewrite IH. destruct (l ++ [x]) eqn:E; [|reflexivity].
  now destruct l.
Qed.

Lemma snoc_neq : forall A (l : list A) (x : A), l ++ [x] <> l.
Proof.
  intros A l x H. apply (f_equal (@List.length A)) in H.
  rewrite length_app in H. simpl in H. lia.
Qed.

Lemma updateAt_length : forall A (i : nat) (f : A -> A) (l : list A),
  List.length (updateAt i f l) = List.length l.
Proof.
  intros A i f l. revert i.
  induction l as [|x r IH]; intros [|i]; simpl; auto.
Qed.

Lemma updateAt_nth_same : forall A (i : nat) (f : A -> A) (l : list A) (x : A),
  List.nth_error l i = Some x ->
  List.nth_error (updateAt i f l) i = Some (f x).
Proof.
  intros A i f l. revert i.
  induction l as [|y r IH]; intros [|i] x; simpl; try discriminate.
  - now intros [= ->].
  - apply IH.
Qed.

(* ================================================================== *)
(** * The path history *)

Lemma pathOf_updater_self : forall uid lat lng prev,
  pathOf uid (setMemberPaths_updater uid lat lng prev) =
  match lastElement (pathOf uid prev) with
  | None => pathOf uid prev ++ [(lng, lat)]
  | Some lastPoint =>
      if exceedsThreshold lastPoint lng lat
      then pathOf uid prev ++ [(lng, lat)]
      else pathOf uid prev
  end.
Proof.
  intros uid lat lng prev. unfold setMemberPaths_updater.
  destruct (lastElement (pathOf uid prev)) as [lp|].
  - destruct (exceedsThreshold lp lng lat); [|reflexivity].
    unfold pathOf at 1. now rewrite get_set_same.
  - unfold pathOf at 1. now rewrite get_set_same.
Qed.

Lemma pathOf_updater_other : forall uid uid' lat lng prev,
  uid <> uid' ->
  pathOf uid' (setMemberPaths_updater uid lat lng prev) = pathOf uid' prev.
Proof.
  intros uid uid' lat lng prev Hne. unfold setMemberPaths_updater.
  destruct (lastElement (pathOf uid prev)) as [lp|].
  - destruct (exceedsThreshold lp lng lat); [|reflexivity].
    unfold pathOf. now rewrite get_set_other.
  - unfold pathOf. now rewrite get_set_other.
Qed.

Lemma updater_wf : forall uid lat lng prev,
  JsMap.wf prev -> JsMap.wf (setMemberPaths_updater uid lat lng prev).
Proof.
  intros uid lat lng prev Hwf. unfold setMemberPaths_updater.
  destruct (lastElement (pathOf uid prev)) as [lp|].
  - destruct (exceedsThreshold lp lng lat); [now apply wf_set|exact Hwf].
  - now apply wf_set.
Qed.

(** What [updateMemberMarker] does to [memberPaths]. *)
Lemma memberPaths_updateMemberMarker : forall now uid lat lng v,
  memberPaths (updateMemberMarker now uid lat lng v) =
  if negb (mapCurrent v) || negb (membersLoaded v) then memberPaths v
  else setMemberPaths_updater uid lat lng (memberPaths v).
Proof.
  intros now uid lat lng v. unfold updateMemberMarker.
  destruct (negb (mapCurrent v) || negb (membersLoaded v)); [reflexivity|].
  destruct (isLocalUser _ uid); [reflexivity|].
  simpl. now destruct (JsMap.get uid (memberMarkersRef v)).
Qed.

(** [updateMemberMarker] leaves the guards of later calls as they are. *)
Lemma updateMemberMarker_props : forall now uid lat lng v,
  let v' := updateMemberMarker now uid lat lng v in
  mapCurrent v' = mapCurrent v /\ session v' = session v /\
  user v' = user v /\ backend v' = backend v /\ location v' = location v.
Proof.
  intros now uid lat lng v. unfold updateMemberMarker.
  destruct (negb (mapCurrent v) || negb (membersLoaded v)); [now repeat split|].
  destruct (isLocalUser _ uid); [now repeat split|].
  simpl. now destruct (JsMap.get uid (memberMarkersRef v)).
Qed.

Lemma updateMemberMarker_grows : forall now uid' lat lng v uid,
  pathOf uid (memberPaths (updateMemberMarker now uid' lat lng v)) =
    pathOf uid (memberPaths v)
  \/ pathOf uid (memberPaths (updateMemberMarker now uid' lat lng v)) =
    pathOf uid (memberPaths v) ++ [(lng, lat)].
Proof.
  intros now uid' lat lng v uid.
  rewrite memberPaths_updateMemberMarker.
  destruct (negb (mapCurrent v) || negb (membersLoaded v)); [now left|].
  destruct (Z.eq_dec uid' uid) as [->|Hne].
  - rewrite pathOf_updater_self.
    destruct (lastElement (pathOf uid (memberPaths v))) as [lp|];
      [destruct (exceedsThreshold lp lng lat)|]; auto.
  - left. now apply pathOf_updater_other.
Qed.

Lemma feedLocations_within : forall uid lastPoint fixes v,
  mapCurrent v = true -> membersLoaded v = true ->
  lastElement (pathOf uid (memberPaths v)) = Some lastPoint ->
  Forall (fun f => exceedsThreshold lastPoint (fix_lng f) (fix_lat f) = false)
    fixes ->
  pathOf uid (memberPaths (feedLocations uid fixes v)) =
  pathOf uid (memberPaths v).
Proof.
  intros uid lastPoint fixes. unfold feedLocations.
  induction fixes as [|f rest IH]; intros v Hmap Hmem Hlast Hall;
    [reflexivity|].
  inversion Hall as [|? ? Hf Hrest]; subst. simpl.
  pose proof (updateMemberMarker_props (fix_time f) uid (fix_lat f)
                (fix_lng f) v) as (Hm & Hs & _).
  assert (Hsame : pathOf uid (memberPaths (updateMemberMarker (fix_time f)
                    uid (fix_lat f) (fix_lng f) v)) =
                  pathOf uid (memberPaths v)).
  { rewrite memberPaths_updateMemberMarker, Hmap, Hmem. simpl.
    rewrite pathOf_updater_self, Hlast, Hf. reflexivity. }
  rewrite IH; auto.
  - congruence.
  - unfold membersLoaded in *. now rewrite Hs.
  - now rewrite Hsame.
Qed.

(** C1.  A member's path gains a point exactly when the update is displaced
    from the last stored point by more than the threshold ([0.00005] degrees
    on either axis): the path resulting from the [setMemberPaths] updater is
    the old one with the new point appended if the displacement exceeds the
    threshold and the old one otherwise.  Feeding a first point and then any
    number of points that stay within the threshold of it leaves a path of
    length one.  [updateMemberMarker] applies this updater to every update
    it handles once the map and the member list exist. *)
Theorem path_gains_point_iff_displacement_exceeds :
  forall (uid : Z) (prev : JsMap.t Path),
    (forall (lat lng : float) (lastPoint : Point),
        lastElement (pathOf uid prev) = Some lastPoint ->
        let before := pathOf uid prev in
        let after := pathOf uid (setMemberPaths_updater uid lat lng prev) in
        (after = before ++ [(lng, lat)] <->
           exceedsThreshold lastPoint lng lat = true) /\
        (after = before <-> exceedsThreshold lastPoint lng lat = false) /\
        (List.length after = S (List.length before) <->
           exceedsThreshold lastPoint lng lat = true))
    /\ (forall (v : View) (first : Fix) (rest : list Fix),
        memberPaths v = prev ->
        mapCurrent v = true -> membersLoaded v = true ->
        pathOf uid prev = [] ->
        Forall (fun f => exceedsThreshold (fix_lng first, fix_lat first)
                           (fix_lng f) (fix_lat f) = false) rest ->
        pathOf uid (memberPaths (feedLocations uid (first :: rest) v)) =
          [(fix_lng first, fix_lat first)]
        /\ List.length
             (pathOf uid (memberPaths (feedLocations uid (first :: rest) v)))
           = 1%nat)
    /\ (forall (now : Z) (lat lng : float) (v : View),
        memberPaths v = prev ->
        mapCurrent v = true -> membersLoaded v = true ->
        memberPaths (updateMemberMarker now uid lat lng v) =
          setMemberPaths_updater uid lat lng prev).
Proof.
  intros uid prev. split; [|split].
  - intros lat lng lastPoint Hlast before after.
    subst before after. rewrite pathOf_updater_self, Hlast.
    destruct (exceedsThreshold lastPoint lng lat) eqn:Hex.
    + repeat split; auto; try discriminate.
      * intros H. exfalso. exact (@snoc_neq _ _ _ H).
      * intros _. rewrite length_app. simpl. lia.
    + repeat split; auto; try discriminate.
      * intros H. symmetry in H. exfalso. exact (@snoc_neq _ _ _ H).
      * intros H. lia.
  - intros v first rest Hprev Hmap Hmem Hempty Hall. subst prev.
    assert (Hfirst :
      pathOf uid (memberPaths (updateMemberMarker (fix_time first) uid
                                 (fix_lat first) (fix_lng first) v)) =
      [(fix_lng first, fix_lat first)]).
    { rewrite memberPaths_updateMemberMarker, Hmap, Hmem. simpl.
      rewrite pathOf_updater_self, Hempty. reflexivity. }
    pose proof (updateMemberMarker_props (fix_time first) uid (fix_lat first)
                  (fix_lng first) v) as (Hm & Hs & _).
    assert (Hgoal :
      pathOf uid (memberPaths (feedLocations uid (first :: rest) v)) =
      [(fix_lng first, fix_lat first)]).
    { change (feedLocations uid (first :: rest) v) with
        (feedLocations uid rest
           (updateMemberMarker (fix_time first) uid (fix_lat first)
              (fix_lng first) v)).
      rewrite feedLocations_within with
        (lastPoint := (fix_lng first, fix_lat first)); auto.
      - congruence.
      - unfold membersLoaded in *. now rewrite Hs.
      - now rewrite Hfirst. }
    split; [exact Hgoal|now rewrite Hgoal].
  - intros now lat lng v Hprev Hmap Hmem. subst prev.
    now rewrite memberPaths_updateMemberMarker, Hmap, Hmem.
Qed.

(** A run of C1 on the sample view: Bob's first fix is stored, two fixes a
    few millionths of a degree away are dropped, and a fix a hundredth of a
    degree away is appended. *)
Lemma path_gains_point_witness :
  let v := Sample.ownerView JsMap.empty Sample.alwaysOk in
  let first := {| fix_time := 0; fix_lat := 10; fix_lng := 10 |} in
  let near := [ {| fix_time := 1; fix_lat := 10.000001; fix_lng := 10 |};
                {| fix_time := 2; fix_lat := 10; fix_lng := 9.999999 |} ] in
  (mapCurrent v = true /\ membersLoaded v = true /\
   pathOf 2 (memberPaths v) = [] /\
   Forall (fun f => exceedsThreshold (fix_lng first, fix_lat first)
                      (fix_lng f) (fix_lat f) = false) near) /\
  List.length (pathOf 2 (memberPaths (feedLocations 2 (first :: near) v)))
    = 1%nat /\
  (exceedsThreshold (10, 10)%float 10.01 10.01 = true /\
   pathOf 2 (setMemberPaths_updater 2 10.01 10.01
               (memberPaths (feedLocations 2 (first :: near) v))) =
   [(10, 10); (10.01, 10.01)]%float).
Proof.
  intros v first near.
  assert (Hnear : Forall (fun f => exceedsThreshold
                    (fix_lng first, fix_lat first) (fix_lng f) (fix_lat f)
                    = false) near).
  { repeat constructor. }
  split; [repeat split; [reflexivity..|exact Hnear]|].
  split.
  - exact (proj2 (proj1 (proj2
      (path_gains_point_iff_displacement_exceeds 2 (memberPaths v)))
      v first near eq_refl eq_refl eq_refl eq_refl Hnear)).
  - split; [reflexivity|].
    apply (proj1 (proj1
      (path_gains_point_iff_displacement_exceeds 2
         (memberPaths (feedLocations 2 (first :: near) v)))
      10.01%float 10.01%float (10, 10)%float eq_refl));
    reflexivity.
Defined.

(* ================================================================== *)
(** * Archival leaves the view's own state alone *)

Section ArchiveFacts.
Context {M : JsMath}.

Lemma saveSessionPathsAsRoutes_view : forall today v,
  exists b, snd (saveSessionPathsAsRoutes today v) = with_backend b v.
Proof.
  intros today v. unfold saveSessionPathsAsRoutes.
  destruct (savePathsLoop v today _ 0 (backend v)) as [n b].
  now exists b.
Qed.

(** Ending changes the backend, and on success the toasts and location. *)
Lemma deleteMutation_view : forall today v,
  let v' := deleteMutation today v in
  memberPaths v' = memberPaths v /\ session v' = session v /\
  user v' = user v /\ mapCurrent v' = mapCurrent v /\
  memberLastUpdateRef v' = memberLastUpdateRef v /\
  memberMarkersRef v' = memberMarkersRef v.
Proof.
  intros today v. unfold deleteMutation.
  destruct (saveSessionPathsAsRoutes_view today v) as [b Hb].
  destruct (saveSessionPathsAsRoutes today v) as [n v1]. simpl in Hb.
  subst v1.
  destruct (apiRequest _ _) as [ok b']. destruct ok; now repeat split.
Qed.

Lemma leaveMutation_view : forall today v,
  let v' := leaveMutation today v in
  memberPaths v' = memberPaths v /\ session v' = session v /\
  user v' = user v /\ mapCurrent v' = mapCurrent v /\
  memberLastUpdateRef v' = memberLastUpdateRef v /\
  memberMarkersRef v' = memberMarkersRef v.
Proof.
  intros today v. unfold leaveMutation.
  destruct (JsMap.get (myId v) (memberPaths v)) as [myPath|].
  - destruct (2 <=? List.length myPath)%nat.
    + destruct (apiRequest _ (backend v)) as [ok b]. destruct ok.
      * destruct (apiRequest _ _) as [ok' b']. destruct ok'; now repeat split.
      * now repeat split.
    + destruct (apiRequest _ _) as [ok' b']. destruct ok'; now repeat split.
  - destruct (apiRequest _ _) as [ok' b']. destruct ok'; now repeat split.
Qed.
End ArchiveFacts.

Lemma seedMember_grows : forall now v member uid,
  exists added,
    pathOf uid (memberPaths (seedMember now v member)) =
    pathOf uid (memberPaths v) ++ added.
Proof.
  intros now v member uid. unfold seedMember.
  destruct (latitude member) as [lat|]; [|exists []; now rewrite app_nil_r].
  destruct (longitude member) as [lng|]; [|exists []; now rewrite app_nil_r].
  assert (H : exists added,
    pathOf uid (memberPaths (updateMemberMarker now (userId member) lat lng v))
    = pathOf uid (memberPaths v) ++ added).
  { destruct (updateMemberMarker_grows now (userId member) lat lng v uid)
      as [H|H]; rewrite H; [exists []; now rewrite app_nil_r|eauto]. }
  destruct (lastActive member); [|exact H].
  destruct (negb (isLocalUser _ _)); exact H.
Qed.

Lemma seedMembers_grow : forall now ms v uid,
  exists added,
    pathOf uid (memberPaths (List.fold_left (seedMember now) ms v)) =
    pathOf uid (memberPaths v) ++ added.
Proof.
  intros now ms. induction ms as [|m ms IH]; intros v uid; simpl.
  - exists []. now rewrite app_nil_r.
  - destruct (IH (seedMember now v m) uid) as [a2 H2].
    destruct (seedMember_grows now v m uid) as [a1 H1].
    exists (a1 ++ a2). now rewrite H2, H1, app_assoc.
Qed.

Lemma step_grows : forall (M : JsMath) (v : View) (e : ViewEvent) (uid : Z),
  exists added : Path,
    pathOf uid (memberPaths (step v e)) = pathOf uid (memberPaths v) ++ added.
Proof.
  intros M v e uid.
  assert (Hsame : forall v', memberPaths v' = memberPaths v ->
            exists added, pathOf uid (memberPaths v') =
                          pathOf uid (memberPaths v) ++ added).
  { intros v' ->. exists []. now rewrite app_nil_r. }
  assert (Hupd : forall now uid' lat lng, exists added,
            pathOf uid (memberPaths (updateMemberMarker now uid' lat lng v)) =
            pathOf uid (memberPaths v) ++ added).
  { intros now uid' lat lng.
    destruct (updateMemberMarker_grows now uid' lat lng v uid) as [H|H];
      rewrite H; [exists []; now rewrite app_nil_r|eauto]. }
  destruct e as [now msg|now msg|now data|now|today|today|]; simpl.
  - destruct msg; simpl; auto.
  - destruct msg; simpl; auto.
  - unfold seedMemberMarkers.
    set (v0 := initializeMap (with_session (Some data) v)).
    assert (Hv0 : memberPaths v0 = memberPaths v).
    { subst v0. unfold initializeMap. now destruct (render _). }
    destruct (session v0); [|now apply Hsame].
    destruct (mapCurrent v0); [|now apply Hsame].
    rewrite <- Hv0. apply seedMembers_grow.
  - now apply Hsame.
  - destruct (offered v) as [[| |]|]; auto.
    apply Hsame, deleteMutation_view.
  - destruct (offered v) as [[| |]|]; auto.
    apply Hsame, leaveMutation_view.
  - destruct (offered v); now apply Hsame.
Qed.

(** C9.  No operation on the view shortens or rewrites a member's path:
    after any event every path is the old path followed by the points
    added, so its length never decreases, and one location update adds at
    most the one point it carries. *)
Theorem member_paths_only_grow :
  forall (M : JsMath) (v : View),
    (forall (e : ViewEvent) (uid : Z),
        exists added : Path,
          pathOf uid (memberPaths (step v e)) =
          pathOf uid (memberPaths v) ++ added)
    /\ (forall (es : list ViewEvent) (uid : Z),
        (List.length (pathOf uid (memberPaths v)) <=
         List.length (pathOf uid (memberPaths (run v es))))%nat)
    /\ (forall (now uid' : Z) (lat lng : float) (uid : Z),
        let v' := updateMemberMarker now uid' lat lng v in
        pathOf uid (memberPaths v') = pathOf uid (memberPaths v)
        \/ pathOf uid (memberPaths v') =
           pathOf uid (memberPaths v) ++ [(lng, lat)]).
Proof.
  intros M v. split; [|split].
  - apply step_grows.
  - intros es uid. revert v. unfold run.
    induction es as [|e es IH]; intros v; simpl; [lia|].
    specialize (IH (step v e)).
    destruct (step_grows M v e uid) as [added H].
    rewrite H, length_app in IH. lia.
  - intros now uid' lat lng uid. apply updateMemberMarker_grows.
Qed.

(** C10.  When the member has no stored point yet, the updater appends the
    incoming point whatever its coordinates: the displacement test is only
    consulted when a last point exists.  The same holds for
    [updateMemberMarker] on an initialised view. *)
Theorem first_update_appended_unconditionally :
  forall (uid : Z) (lat lng : float) (prev : JsMap.t Path),
    pathOf uid prev = [] ->
    pathOf uid (setMemberPaths_updater uid lat lng prev) = [(lng, lat)]
    /\ setMemberPaths_updater uid lat lng prev =
       JsMap.set uid [(lng, lat)] prev
    /\ (forall (now : Z) (v : View),
         memberPaths v = prev ->
         mapCurrent v = true -> membersLoaded v = true ->
         pathOf uid (memberPaths (updateMemberMarker now uid lat lng v)) =
         [(lng, lat)]).
Proof.
  intros uid lat lng prev Hempty.
  assert (Hupd : setMemberPaths_updater uid lat lng prev =
                 JsMap.set uid [(lng, lat)] prev).
  { unfold setMemberPaths_updater. now rewrite Hempty. }
  assert (Hpath : pathOf uid (setMemberPaths_updater uid lat lng prev) =
                  [(lng, lat)]).
  { rewrite Hupd. unfold pathOf. now rewrite get_set_same. }
  repeat split; auto.
  intros now v Hprev Hmap Hmem. subst prev.
  now rewrite memberPaths_updateMemberMarker, Hmap, Hmem.
Qed.

(** C10 at work: a first fix whose coordinates are not even numbers, so
    that no comparison with it can succeed, is stored all the same. *)
Lemma first_update_witness :
  pathOf 2 (@JsMap.empty Path) = [] /\
  pathOf 2 (setMemberPaths_updater 2 nan nan JsMap.empty) = [(nan, nan)] /\
  exceedsThreshold (0, 0)%float nan nan = false.
Proof.
  split; [reflexivity|]. split; [|reflexivity].
  exact (proj1 (@first_update_appended_unconditionally 2 nan nan
                  JsMap.empty eq_refl)).
Defined.

(* ================================================================== *)
(** * The reconnect loop *)

Lemma updateAt_snoc : forall A (f : A -> A) (l : list A) (x : A),
  updateAt (List.length l) f (l ++ [x]) = l ++ [f x].
Proof.
  induction l as [|y r IH]; intros x; simpl; [reflexivity|].
  now rewrite IH.
Qed.

Lemma nth_error_snoc : forall A (l : list A) (x : A),
  List.nth_error (l ++ [x]) (List.length l) = Some x.
Proof.
  induction l as [|y r IH]; intros x; simpl; auto.
Qed.

Lemma map_delay_updateAt : forall t (l : list Timer),
  List.map delay
    (updateAt t (fun tm => {| delay := delay tm; pending := false |}) l) =
  List.map delay l.
Proof.
  intros t l. revert t.
  induction l as [|x r IH]; intros [|t]; simpl; auto.
  now rewrite IH.
Qed.

(** A close event on a socket of [connect] that is not yet closed runs the
    close handler on the state with that socket marked closed. *)
Lemma close_of_connect_socket : forall c s sock,
  socketAt c s = Some sock -> origin sock = ByConnect ->
  readyState sock <> CLOSED ->
  connStep c (SocketClosed s) =
  onclose_connect (updateSocket s (setReadyState CLOSED) c).
Proof.
  intros c s sock Hs Ho Hr. simpl. rewrite Hs, Ho.
  destruct (readyState sock); congruence.
Qed.

Lemma failedAttempt_spec : forall c,
  inReconnectLoop c = true ->
  let c' := failedAttempt c in
  inReconnectLoop c' = true /\
  reconnectAttemptRef (backoff c') = (reconnectAttemptRef (backoff c) + 1)%N /\
  timers (backoff c') =
    timers (backoff c) ++
    [{| delay := reconnectDelay (reconnectAttemptRef (backoff c));
        pending := false |}].
Proof.
  intros c Hloop. unfold inReconnectLoop in Hloop.
  apply andb_true_iff in Hloop as [Hflag Hsock].
  apply negb_true_iff in Hflag.
  unfold failedAttempt.
  destruct (wsRef (transport c)) as [s|] eqn:Hws; [|discriminate].
  destruct (socketAt c s) as [sock|] eqn:Hs; [|discriminate].
  destruct (origin sock) eqn:Ho; [|discriminate].
  assert (Hr : readyState sock <> CLOSED)
    by (destruct (readyState sock); congruence).
  rewrite (close_of_connect_socket c s Hs Ho Hr).
  unfold onclose_connect, updateSocket, with_transport. cbn [backoff].
  rewrite Hflag. cbn [negb].
  cbn [connStep backoff with_backoff timers].
  rewrite nth_error_snoc. cbn [pending].
  rewrite updateAt_snoc. cbn [delay].
  unfold connect, openSocket, inReconnectLoop, socketAt.
  cbn [backoff with_backoff with_transport transport intentionalCloseRef
       wsRef sockets reconnectAttemptRef timers].
  rewrite nth_error_snoc. cbn. repeat split; reflexivity.
Qed.

Lemma failedAttempts_spec : forall k c,
  inReconnectLoop c = true ->
  List.map delay
    (List.skipn (List.length (timers (backoff c)))
       (timers (backoff (failedAttempts k c)))) =
  List.map reconnectDelay (attemptsFrom (reconnectAttemptRef (backoff c)) k)
  /\ reconnectAttemptRef (backoff (failedAttempts k c)) =
     (reconnectAttemptRef (backoff c) + N.of_nat k)%N.
Proof.
  assert (Hgen : forall k c, inReconnectLoop c = true ->
    exists added,
      timers (backoff (failedAttempts k c)) = timers (backoff c) ++ added /\
      List.map delay added =
        List.map reconnectDelay
          (attemptsFrom (reconnectAttemptRef (backoff c)) k) /\
      reconnectAttemptRef (backoff (failedAttempts k c)) =
        (reconnectAttemptRef (backoff c) + N.of_nat k)%N).
  { induction k as [|k IH]; intros c Hloop.
    - exists []. cbn [failedAttempts attemptsFrom List.map].
      rewrite app_nil_r. repeat split. lia.
    - destruct (failedAttempt_spec c Hloop) as (Hloop' & Hn & Ht).
      destruct (IH (failedAttempt c) Hloop') as (added & Ha & Hd & Hk).
      exists ({| delay := reconnectDelay (reconnectAttemptRef (backoff c));
                 pending := false |} :: added).
      cbn [failedAttempts attemptsFrom List.map delay].
      rewrite Ha, Ht, <- app_assoc. cbn [app].
      rewrite Hd, Hn, Hk. repeat split. lia. }
  intros k c Hloop.
  destruct (Hgen k c Hloop) as (added & Ha & Hd & Hk).
  split; [|exact Hk].
  rewrite Ha, skipn_app, skipn_all, Nat.sub_diag. exact Hd.
Qed.

(** The handlers of a socket opened by [handleLiveMapResume] never write
    the reconnect state. *)
Lemma resume_socket_keeps_backoff : forall c s sock,
  socketAt c s = Some sock -> origin sock = ByResume ->
  backoff (connStep c (SocketOpened s)) = backoff c /\
  backoff (connStep c (SocketClosed s)) = backoff c.
Proof.
  intros c s sock Hs Ho. cbn [connStep]. rewrite Hs, Ho. split.
  - unfold onopen_resume, updateSocket, with_transport.
    destruct (readyState sock); try reflexivity.
    cbn [conn_user]. now destruct (conn_user c).
  - now destruct (readyState sock).
Qed.

(** C3, as stated, fails for a re-open that is not made by [connect].  The
    page goes to the background and the first socket of the joined
    controller drops, which schedules the reconnect of attempt 0 and raises
    the counter to 1.  Before the timer fires the page comes back to the
    foreground: [handleLiveMapResume] finds no open socket and opens one
    itself.  This socket opens and joins the session, yet the counter is
    still 1; and when it drops in turn, no reconnect is scheduled, after no
    delay at all. *)
Lemma resume_reopen_keeps_the_counter :
  let dropped :=
    connRun Sample.joinedConn [VisibilityChange Hidden; SocketClosed 0] in
  let reopened :=
    connRun dropped
      [VisibilityChange Visible; ResumeTimerFired; SocketOpened 1] in
  let droppedAgain := connStep reopened (SocketClosed 1) in
  intentionalCloseRef (backoff dropped) = false /\
  reconnectAttemptRef (backoff dropped) = 1%N /\
  wsRef (transport reopened) = Some 1%nat /\
  socketAt reopened 1 =
    Some {| origin := ByResume; readyState := OPEN;
            sent := [Auth 1; SessionJoin (Some 5%Z)] |} /\
  reconnectAttemptRef (backoff reopened) = 1%N /\
  ~ (reconnectAttemptRef (backoff reopened) = 0%N) /\
  option_map readyState (socketAt droppedAgain 1) = Some CLOSED /\
  timers (backoff droppedAgain) = timers (backoff reopened) /\
  reconnectAttemptRef (backoff droppedAgain) = 1%N.
Proof.
  cbv zeta. repeat split; try reflexivity.
  vm_compute. discriminate.
Qed.

(** C3, amended.  When a socket opened by [connect] closes and the close
    was not intentional, the handler schedules [connect] after
    [min(1000 * 2^n, 30000)] ms, [n] being the attempt counter, and
    increments the counter; attempts 0..5 wait 1000, 2000, 4000, 8000,
    16000 and 30000 ms; [k] failures in a row from attempt [n] schedule the
    delays of attempts [n .. n+k-1]; the open handler of such a socket
    resets the counter to 0.  A socket opened by [handleLiveMapResume] does
    neither: when it opens the counter stays as it is, and when it closes
    no timer is made and the counter does not move. *)
Theorem reconnect_backoff_schedule :
  (forall (c : Conn) (s : nat) (sock : Socket),
      socketAt c s = Some sock -> origin sock = ByConnect ->
      readyState sock <> CLOSED ->
      intentionalCloseRef (backoff c) = false ->
      let n := reconnectAttemptRef (backoff c) in
      let c' := connStep c (SocketClosed s) in
      timers (backoff c') =
        timers (backoff c) ++
        [{| delay := N.min (1000 * 2 ^ n) 30000; pending := true |}]
      /\ reconnectTimeoutRef (backoff c') =
         Some (List.length (timers (backoff c)))
      /\ reconnectAttemptRef (backoff c') = (n + 1)%N)
  /\ List.map reconnectDelay [0; 1; 2; 3; 4; 5]%N =
     [1000; 2000; 4000; 8000; 16000; 30000]%N
  /\ (forall (c : Conn) (k : nat),
      inReconnectLoop c = true ->
      List.map delay
        (List.skipn (List.length (timers (backoff c)))
           (timers (backoff (failedAttempts k c)))) =
      List.map (fun n => N.min (1000 * 2 ^ n) 30000)
        (attemptsFrom (reconnectAttemptRef (backoff c)) k))
  /\ (forall (c : Conn) (s : nat) (sock : Socket),
      socketAt c s = Some sock -> origin sock = ByConnect ->
      readyState sock = CONNECTING ->
      reconnectAttemptRef (backoff (connStep c (SocketOpened s))) = 0%N)
  /\ (forall (c : Conn) (s : nat) (sock : Socket),
      socketAt c s = Some sock -> origin sock = ByResume ->
      reconnectAttemptRef (backoff (connStep c (SocketOpened s))) =
        reconnectAttemptRef (backoff c)
      /\ timers (backoff (connStep c (SocketClosed s))) = timers (backoff c)
      /\ reconnectTimeoutRef (backoff (connStep c (SocketClosed s))) =
         reconnectTimeoutRef (backoff c)
      /\ reconnectAttemptRef (backoff (connStep c (SocketClosed s))) =
         reconnectAttemptRef (backoff c)).
Proof.
  split; [|split; [reflexivity|split; [|split]]].
  - intros c s sock Hs Ho Hr Hflag n c'. subst n c'.
    rewrite (close_of_connect_socket c s Hs Ho Hr).
    unfold onclose_connect, updateSocket, with_transport. cbn [backoff].
    rewrite Hflag. cbn. repeat split; reflexivity.
  - intros c k Hloop. exact (proj1 (failedAttempts_spec k c Hloop)).
  - intros c s sock Hs Ho Hr. simpl. rewrite Hs, Hr, Ho.
    unfold onopen_connect.
    cbn [conn_user with_backoff updateSocket with_transport].
    now destruct (conn_user c).
  - intros c s sock Hs Ho.
    destruct (resume_socket_keeps_backoff c s Hs Ho) as [Hopen Hclose].
    rewrite Hopen, Hclose. repeat split.
Qed.

(** The amended C3 on the sample controller: joined on the first socket, then six
    failed attempts in a row, then the seventh socket opens and, when it
    closes in turn, the wait is 1000 ms again. *)
Lemma reconnect_backoff_witness :
  inReconnectLoop Sample.joinedConn = true /\
  List.map delay
    (List.skipn (List.length (timers (backoff Sample.joinedConn)))
       (timers (backoff (failedAttempts 6 Sample.joinedConn)))) =
  List.map (fun n => N.min (1000 * 2 ^ n) 30000)
    (attemptsFrom (reconnectAttemptRef (backoff Sample.joinedConn)) 6) /\
  List.map delay (timers (backoff (failedAttempts 6 Sample.joinedConn))) =
    [1000; 2000; 4000; 8000; 16000; 30000]%N /\
  reconnectAttemptRef (backoff (failedAttempts 6 Sample.joinedConn)) = 6%N /\
  reconnectAttemptRef
    (backoff (connStep (failedAttempts 6 Sample.joinedConn) (SocketOpened 6)))
    = 0%N /\
  List.map delay
    (timers (backoff
       (connStep (connStep (failedAttempts 6 Sample.joinedConn)
                    (SocketOpened 6)) (SocketClosed 6)))) =
    [1000; 2000; 4000; 8000; 16000; 30000; 1000]%N.
Proof.
  split; [reflexivity|]. split; [|repeat split; reflexivity].
  exact (proj1 (proj2 (proj2 reconnect_backoff_schedule))
           Sample.joinedConn 6%nat eq_refl).
Defined.

(* ================================================================== *)
(** * After an intentional close *)

(** Case analysis on every [match] scrutinee left in the goal. *)
Ltac break_matches :=
  repeat match goal with
         | |- context [match ?x with _ => _ end] => destruct x eqn:?
         | |- context [if ?x then _ else _] => destruct x eqn:?
         end.

Lemma backoff_handleLiveMapResume : forall c,
  backoff (handleLiveMapResume c) = backoff c.
Proof.
  intros c. unfold handleLiveMapResume, clearCurrentWatch, watchPosition,
    openSocket.
  break_matches; reflexivity.
Qed.

Lemma backoff_onPosition : forall lat lng acc heading c,
  backoff (onPosition lat lng acc heading c) = backoff c.
Proof.
  intros. unfold onPosition, updateSocket. break_matches; reflexivity.
Qed.

(** While the intentional-close flag is set, no event other than a new run
    of the effects creates a reconnect timer, shows a reconnect notice or
    clears the flag. *)
Lemma closed_stays_closed : forall c e,
  e <> EffectsRun ->
  intentionalCloseRef (backoff c) = true ->
  intentionalCloseRef (backoff (connStep c e)) = true /\
  List.map delay (timers (backoff (connStep c e))) =
    List.map delay (timers (backoff c)) /\
  notices (backoff (connStep c e)) = notices (backoff c).
Proof.
  intros c e Hne Hflag.
  destruct e as [| |s|s|s|t|w lat lng acc heading|vis|persisted|];
    try congruence.
  - (* EffectsCleanup *)
    cbn [connStep]. unfold locationEffectCleanup, clearCurrentWatch,
      wsEffectCleanup.
    break_matches; cbn; rewrite ?map_delay_updateAt; auto.
  - (* SocketOpened *)
    cbn [connStep]. unfold onopen_connect, onopen_resume, updateSocket.
    break_matches; cbn; auto.
  - (* SocketClosed *)
    cbn [connStep]. unfold onclose_connect, updateSocket.
    cbn [backoff with_transport]. rewrite Hflag. cbn [negb].
    break_matches; cbn; auto.
  - (* SocketError *)
    cbn; auto.
  - (* TimerFired *)
    cbn [connStep]. unfold connect, openSocket.
    break_matches; cbn; rewrite ?map_delay_updateAt; auto.
  - (* PositionFix *)
    cbn [connStep]. break_matches; rewrite ?backoff_onPosition; auto.
  - (* VisibilityChange *)
    cbn [connStep]. unfold handleVisibilityChange.
    break_matches; cbn; auto.
  - (* PageShow *)
    cbn [connStep]. unfold handlePageShow. break_matches; cbn; auto.
  - (* ResumeTimerFired *)
    cbn [connStep]. unfold resumeTimerCallback.
    break_matches; rewrite ?backoff_handleLiveMapResume; cbn; auto.
Qed.

(** C7.  Once the cleanup of the WebSocket effect has set the
    intentional-close flag (the component unmounts when the user leaves,
    ends the session or navigates away), no later event, in particular no
    close event of any socket, schedules a reconnect: the list of timers
    made by [setTimeout(connect, ...)] and the reconnect notices stay as
    they were, and the timer that was pending in [reconnectTimeoutRef] is
    cancelled. *)
Theorem no_reconnect_after_intentional_close :
  forall (c : Conn) (events : list ConnEvent),
    isActiveConn c = true ->
    ~ In EffectsRun events ->
    let closed := connStep c EffectsCleanup in
    let final := connRun closed events in
    intentionalCloseRef (backoff closed) = true
    /\ intentionalCloseRef (backoff final) = true
    /\ List.map delay (timers (backoff final)) =
       List.map delay (timers (backoff c))
    /\ notices (backoff final) = notices (backoff c)
    /\ (forall t tm,
          reconnectTimeoutRef (backoff c) = Some t ->
          List.nth_error (timers (backoff c)) t = Some tm ->
          List.nth_error (timers (backoff closed)) t =
          Some {| delay := delay tm; pending := false |}).
Proof.
  intros c events Hactive Hnorun closed final.
  assert (Hclosed : intentionalCloseRef (backoff closed) = true /\
                    List.map delay (timers (backoff closed)) =
                      List.map delay (timers (backoff c)) /\
                    notices (backoff closed) = notices (backoff c)).
  { subst closed. cbn [connStep]. rewrite Hactive.
    unfold locationEffectCleanup, clearCurrentWatch, wsEffectCleanup.
    break_matches; cbn; rewrite ?map_delay_updateAt; auto. }
  destruct Hclosed as (Hflag & Htimers & Hnotices).
  assert (Hrun : forall es c0,
            ~ In EffectsRun es ->
            intentionalCloseRef (backoff c0) = true ->
            intentionalCloseRef (backoff (connRun c0 es)) = true /\
            List.map delay (timers (backoff (connRun c0 es))) =
              List.map delay (timers (backoff c0)) /\
            notices (backoff (connRun c0 es)) = notices (backoff c0)).
  { unfold connRun. induction es as [|e es IH]; intros c0 Hno H0; simpl.
    - auto.
    - assert (He : e <> EffectsRun) by (intros ->; apply Hno; now left).
      destruct (closed_stays_closed c0 He H0) as (H1 & H2 & H3).
      destruct (IH (connStep c0 e)) as (I1 & I2 & I3); auto.
      + intros Hin. apply Hno. now right.
      + repeat split; congruence. }
  destruct (Hrun events closed Hnorun Hflag) as (R1 & R2 & R3).
  split; [exact Hflag|]. split; [exact R1|].
  split; [subst final; now rewrite R2|].
  split; [subst final; now rewrite R3|].
  intros t tm Href Hnth. subst closed. cbn [connStep]. rewrite Hactive.
  unfold locationEffectCleanup, clearCurrentWatch, wsEffectCleanup.
  cbn [backoff with_backoff with_gps with_transport with_mounted timers
       transport gps].
  rewrite Href.
  break_matches; cbn;
    exact (@updateAt_nth_same _ t
             (fun tm0 => {| delay := delay tm0; pending := false |}) _ _ Hnth).
Qed.

(** C7 on the sample controller: it unmounts while joined, and afterwards
    the socket closes, a stale timer index fires, the page comes back to
    the foreground and the resume socket closes as well. *)
Lemma no_reconnect_witness :
  let events :=
    [SocketClosed 0; TimerFired 0; VisibilityChange Visible;
     ResumeTimerFired; SocketOpened 1; SocketClosed 1] in
  isActiveConn Sample.joinedConn = true /\
  ~ In EffectsRun events /\
  timers (backoff
            (connRun (connStep Sample.joinedConn EffectsCleanup) events)) = []
  /\ timers (backoff (connStep Sample.joinedConn (SocketClosed 0))) =
     [{| delay := 1000; pending := true |}].
Proof.
  intros events.
  assert (Hno : ~ In EffectsRun events).
  { subst events. simpl. intuition discriminate. }
  split; [reflexivity|]. split; [exact Hno|]. split; [|reflexivity].
  pose proof (proj1 (proj2 (proj2
    (@no_reconnect_after_intentional_close Sample.joinedConn events
       eq_refl Hno)))) as H.
  apply map_eq_nil in H. exact H.
Defined.

(* ================================================================== *)
(** * GPS forwarding and re-subscription *)

Lemma socketAt_updateSocket : forall c s f sock,
  socketAt c s = Some sock ->
  socketAt (updateSocket s f c) s = Some (f sock).
Proof.
  intros c s f sock H. unfold socketAt, updateSocket. cbn.
  now apply updateAt_nth_same.
Qed.

Lemma resume_resubscribes : forall c,
  geolocation c = true ->
  let c' := handleLiveMapResume c in
  let fresh := List.length (watches (gps c)) in
  watchIdRef (gps c') = Some fresh /\
  List.nth_error (watches (gps c')) fresh = Some true /\
  (forall w0, watchIdRef (gps c) = Some w0 -> (w0 < fresh)%nat ->
              List.nth_error (watches (gps c')) w0 = Some false).
Proof.
  intros c Hgeo c' fresh. subst c' fresh. unfold handleLiveMapResume.
  set (c1 := if wsIsOpen c then c else openSocket ByResume c).
  assert (Hg : gps c1 = gps c) by (subst c1; now destruct (wsIsOpen c)).
  assert (Hgeo1 : geolocation (clearCurrentWatch c1) = true).
  { unfold clearCurrentWatch. subst c1.
    destruct (wsIsOpen c); break_matches; exact Hgeo. }
  rewrite Hgeo1. unfold watchPosition, clearCurrentWatch. rewrite Hg.
  destruct (watchIdRef (gps c)) as [w|] eqn:Hw; cbn.
  - rewrite updateAt_length. split; [reflexivity|]. split.
    + rewrite <- (updateAt_length w (fun _ => false) (watches (gps c))).
      apply nth_error_snoc.
    + intros w0 [= <-] Hlt.
      rewrite nth_error_app1 by (now rewrite updateAt_length).
      destruct (List.nth_error (watches (gps c)) w) as [b|] eqn:Hb.
      * exact (@updateAt_nth_same _ w (fun _ => false) _ _ Hb).
      * apply nth_error_None in Hb. lia.
  - rewrite Hg. split; [reflexivity|]. split; [apply nth_error_snoc|].
    discriminate.
Qed.

(** C8.  A fix delivered to a registered watch while the socket in [wsRef]
    is open is sent on that socket as a [session:location] message with
    the latitude, longitude, accuracy and heading of the fix.  Mounting
    with geolocation available registers the watch, and every return to
    the foreground (hidden, visible, then the 500 ms resume timer) clears
    the watch in [watchIdRef] and registers a fresh one. *)
Theorem gps_fixes_forwarded_and_resubscribed :
  (forall (c : Conn) (w s : nat) (sock : Socket)
          (lat lng accuracy : float) (heading : option float),
      List.nth_error (watches (gps c)) w = Some true ->
      wsRef (transport c) = Some s ->
      socketAt c s = Some sock ->
      readyState sock = OPEN ->
      socketAt (connStep c (PositionFix w lat lng accuracy heading)) s =
      Some {| origin := origin sock; readyState := OPEN;
              sent := sent sock ++
                      [SessionLocation lat lng accuracy heading] |})
  /\ (forall (uid sid : Z),
      sid <> 0%Z ->
      let c := connStep (initialConn (Some uid) (Some sid) true) EffectsRun in
      watchIdRef (gps c) = Some 0%nat /\ watches (gps c) = [true])
  /\ (forall (c : Conn),
      mounted c = true -> isActiveConn c = true -> geolocation c = true ->
      resumeTimers c = [] ->
      let c' := connRun c [VisibilityChange Hidden; VisibilityChange Visible;
                           ResumeTimerFired] in
      let fresh := List.length (watches (gps c)) in
      watchIdRef (gps c') = Some fresh /\
      List.nth_error (watches (gps c')) fresh = Some true /\
      (forall w0, watchIdRef (gps c) = Some w0 -> (w0 < fresh)%nat ->
                  List.nth_error (watches (gps c')) w0 = Some false)).
Proof.
  split; [|split].
  - intros c w s sock lat lng accuracy heading Hw Hws Hs Hopen.
    cbn [connStep]. rewrite Hw. unfold onPosition, wsIsOpen.
    rewrite Hws, Hs, Hopen.
    rewrite (socketAt_updateSocket c s
               (pushSent (SessionLocation lat lng accuracy heading)) Hs).
    unfold pushSent. now rewrite Hopen.
  - intros uid sid Hsid c. subst c.
    unfold connStep, wsEffect, isActiveConn, initialConn.
    cbn [conn_sessionId conn_user].
    destruct (Z.eqb_spec sid 0) as [|_]; [contradiction|].
    cbn. split; reflexivity.
  - intros c Hmounted Hactive Hgeo Hresume c' fresh. subst c' fresh.
    unfold connRun. cbn [List.fold_left connStep].
    rewrite Hmounted, Hactive. cbn [andb handleVisibilityChange].
    rewrite Hmounted, Hactive, Hresume.
    cbn [andb app resumeTimers with_resumeTimers].
    set (c0 := with_resumeTimers [] (with_resumeTimers [true] c)).
    assert (Hact : isActiveConn c0 = true) by exact Hactive.
    unfold resumeTimerCallback. rewrite Hact. cbn [negb orb].
    exact (@resume_resubscribes c0 Hgeo).
Qed.

(** C8 on the sample controller: a fix while joined goes out on socket 0,
    and one trip to the background replaces watch 0 by watch 1. *)
Lemma gps_witness :
  let cycle := [VisibilityChange Hidden; VisibilityChange Visible;
                ResumeTimerFired] in
  (List.nth_error (watches (gps Sample.joinedConn)) 0 = Some true /\
   wsIsOpen Sample.joinedConn = true /\
   mounted Sample.joinedConn = true /\
   isActiveConn Sample.joinedConn = true) /\
  option_map (@sent)
    (socketAt (connStep Sample.joinedConn
                 (PositionFix 0 46.5 7.25 12 (Some 90%float))) 0) =
    Some [Auth 1; SessionJoin (Some 5%Z);
          SessionLocation 46.5 7.25 12 (Some 90%float)] /\
  watchIdRef (gps (connRun Sample.joinedConn cycle)) = Some 1%nat /\
  watches (gps (connRun Sample.joinedConn cycle)) = [false; true].
Proof.
  intros cycle. split; [repeat split; reflexivity|].
  split; [|split; [|reflexivity]].
  - rewrite (proj1 gps_fixes_forwarded_and_resubscribed Sample.joinedConn
               0%nat 0%nat
               {| origin := ByConnect; readyState := OPEN;
                  sent := [Auth 1; SessionJoin (Some 5%Z)] |}
               46.5%float 7.25%float 12%float (Some 90%float)
               eq_refl eq_refl eq_refl eq_refl).
    reflexivity.
  - exact (proj1 (proj2 (proj2 gps_fixes_forwarded_and_resubscribed)
                   Sample.joinedConn eq_refl eq_refl eq_refl eq_refl)).
Defined.

(* ================================================================== *)
(** * The signal-lost sweep *)

Lemma checkMember_other : forall me now markers uid entry,
  fst entry <> uid ->
  JsMap.get uid (checkMember me now markers entry) = JsMap.get uid markers.
Proof.
  intros me now markers uid [k t] Hne. simpl in Hne. unfold checkMember.
  break_matches; auto; now apply get_set_other.
Qed.

Lemma sweep_skips_absent : forall me now entries markers uid,
  ~ In uid (List.map fst entries) ->
  JsMap.get uid (List.fold_left (checkMember me now) entries markers) =
  JsMap.get uid markers.
Proof.
  intros me now entries. induction entries as [|e rest IH];
    intros markers uid Hnot; simpl; [reflexivity|].
  rewrite IH by (intros H; apply Hnot; now right).
  apply checkMember_other. intros H. apply Hnot. now left.
Qed.

Lemma sweep_skips_local : forall me now entries markers,
  JsMap.get me (List.fold_left (checkMember (Some me) now) entries markers) =
  JsMap.get me markers.
Proof.
  intros me now entries. induction entries as [|[k t] rest IH];
    intros markers; simpl; [reflexivity|].
  rewrite IH. destruct (Z.eq_dec k me) as [->|Hne].
  - now rewrite Z.eqb_refl.
  - now apply (checkMember_other (Some me) now markers (k, t)).
Qed.

Lemma sweep_visits_once : forall me now entries markers uid t m,
  NoDup (List.map fst entries) ->
  In (uid, t) entries ->
  JsMap.get uid markers = Some m ->
  match me with Some id => Z.eqb uid id | None => false end = false ->
  JsMap.get uid (List.fold_left (checkMember me now) entries markers) =
  Some (if signalLost now t then markLost t m else markLive m).
Proof.
  intros me now entries. induction entries as [|[k t'] rest IH];
    intros markers uid t m Hnd Hin Hget Hme; simpl in *; [contradiction|].
  inversion Hnd as [|? ? Hnot Hrest]; subst.
  destruct Hin as [Heq|Hin].
  - inversion Heq; subst.
    rewrite sweep_skips_absent by exact Hnot.
    rewrite Hme, Hget.
    destruct (signalLost now t); apply get_set_same.
  - assert (Hne : k <> uid).
    { intros ->. apply Hnot. apply in_map_iff. now exists (uid, t). }
    apply IH; auto.
    rewrite (checkMember_other me now markers (k, t')); auto.
Qed.

Lemma sweep_no_marker : forall me now entries markers uid,
  JsMap.get uid markers = None ->
  JsMap.get uid (List.fold_left (checkMember me now) entries markers) = None.
Proof.
  intros me now entries. induction entries as [|[k t] rest IH];
    intros markers uid Hnone; simpl; [exact Hnone|].
  apply IH. unfold checkMember.
  destruct (match me with Some id => Z.eqb k id | None => false end);
    [exact Hnone|].
  destruct (Z.eq_dec k uid) as [->|Hne].
  - now rewrite Hnone.
  - destruct (JsMap.get k markers); [|exact Hnone].
    destruct (signalLost now t); now rewrite get_set_other.
Qed.

(** The marker of every member after a sweep. *)
Lemma sweep_marker_after : forall now v uid,
  JsMap.wf (memberLastUpdateRef v) ->
  JsMap.get uid (memberMarkersRef (checkSignalLost now v)) =
  match JsMap.get uid (memberMarkersRef v) with
  | None => None
  | Some m =>
      if isLocalUser v uid then Some m
      else
        match JsMap.get uid (memberLastUpdateRef v) with
        | None => Some m
        | Some t => Some (if signalLost now t then markLost t m else markLive m)
        end
  end.
Proof.
  intros now v uid Hwf. unfold checkSignalLost.
  cbn [memberMarkersRef with_memberMarkers].
  destruct (JsMap.get uid (memberMarkersRef v)) as [m|] eqn:Hm;
    [|now apply sweep_no_marker].
  unfold isLocalUser. destruct (user v) as [me|] eqn:Hu; cbn [option_map].
  - destruct (Z.eqb_spec uid (au_id me)) as [->|Hne].
    + now rewrite sweep_skips_local.
    + destruct (JsMap.get uid (memberLastUpdateRef v)) as [t|] eqn:Ht.
      * apply sweep_visits_once; auto using entry_of_get.
        now apply Z.eqb_neq.
      * rewrite sweep_skips_absent; [exact Hm|].
        intros Hin. apply has_keys in Hin.
        unfold JsMap.has, JsMap.entries in Hin. now rewrite Ht in Hin.
  - destruct (JsMap.get uid (memberLastUpdateRef v)) as [t|] eqn:Ht.
    + apply sweep_visits_once; auto using entry_of_get.
    + rewrite sweep_skips_absent; [exact Hm|].
      intros Hin. apply has_keys in Hin.
      unfold JsMap.has, JsMap.entries in Hin. now rewrite Ht in Hin.
Qed.

(** An update that passes the guards and is not the local user's stamps
    the member and leaves the member's indicator off. *)
Lemma updateMemberMarker_cases : forall now uid lat lng v,
  let v' := updateMemberMarker now uid lat lng v in
  (memberMarkersRef v' = memberMarkersRef v /\
   memberLastUpdateRef v' = memberLastUpdateRef v /\
   (mapCurrent v = false \/ membersLoaded v = false \/
    isLocalUser v uid = true))
  \/ ((exists m', JsMap.get uid (memberMarkersRef v') = Some m' /\
                  lostOverlayShown m' = false) /\
      memberLastUpdateRef v' = JsMap.set uid now (memberLastUpdateRef v) /\
      (forall uid', uid <> uid' ->
         JsMap.get uid' (memberMarkersRef v') =
         JsMap.get uid' (memberMarkersRef v))).
Proof.
  intros now uid lat lng v. unfold updateMemberMarker.
  destruct (mapCurrent v); [|left; cbn; auto].
  destruct (membersLoaded v); [|left; cbn; auto].
  cbn [negb orb].
  destruct (isLocalUser v uid) eqn:Hlocal.
  - left. cbn. auto.
  - right. cbn [memberMarkersRef memberLastUpdateRef with_memberPaths
      with_memberLastUpdate].
    destruct (JsMap.get uid (memberMarkersRef v)) as [m|];
      cbn [memberMarkersRef memberLastUpdateRef with_memberMarkers
           with_memberLastUpdate with_memberPaths].
    + split; [eexists; split; [apply get_set_same|reflexivity]|].
      split; [reflexivity|]. intros uid' Hne. now apply get_set_other.
    + split; [eexists; split; [apply get_set_same|reflexivity]|].
      split; [reflexivity|]. intros uid' Hne. now apply get_set_other.
Qed.

Lemma isLocalUser_user : forall v v' uid,
  user v' = user v -> isLocalUser v' uid = isLocalUser v uid.
Proof. intros v v' uid H. unfold isLocalUser. now rewrite H. Qed.

Lemma justified_weaken : forall clock clock' v,
  (clock <= clock')%Z ->
  indicatorsJustified clock v -> indicatorsJustified clock' v.
Proof.
  intros clock clock' v Hle Hinv uid m Hm Hon.
  destruct (Hinv uid m Hm Hon) as (Hl & t & Ht & Hlt).
  split; [exact Hl|]. exists t. split; [exact Ht|lia].
Qed.

(** Setting the time stamp of a member whose indicator is off. *)
Lemma justified_stamp : forall clock v uid t,
  (forall m, JsMap.get uid (memberMarkersRef v) = Some m ->
             lostOverlayShown m = false) ->
  indicatorsJustified clock v ->
  indicatorsJustified clock
    (with_memberLastUpdate (JsMap.set uid t (memberLastUpdateRef v)) v).
Proof.
  intros clock v uid t Hoff Hinv uid' m Hm Hon.
  cbn [memberMarkersRef with_memberLastUpdate] in Hm.
  destruct (Z.eq_dec uid uid') as [<-|Hne].
  - rewrite (Hoff m Hm) in Hon. discriminate.
  - destruct (Hinv uid' m Hm Hon) as (Hl & t' & Ht' & Hlt).
    split; [exact Hl|]. exists t'. split; [|exact Hlt].
    cbn [memberLastUpdateRef with_memberLastUpdate].
    now rewrite get_set_other.
Qed.

Lemma justified_update : forall clock now uid lat lng v,
  indicatorsJustified clock v ->
  indicatorsJustified clock (updateMemberMarker now uid lat lng v).
Proof.
  intros clock now uid lat lng v Hinv.
  pose proof (updateMemberMarker_props now uid lat lng v)
    as (_ & _ & Hu & _).
  destruct (updateMemberMarker_cases now uid lat lng v)
    as [(Hm & Hl & _)|((m' & Hget & Hoff) & Hl & Hother)].
  - intros uid' m Hm' Hon. rewrite Hm in Hm'.
    rewrite (isLocalUser_user _ _ _ Hu), Hl. exact (Hinv uid' m Hm' Hon).
  - intros uid' m Hm' Hon.
    destruct (Z.eq_dec uid uid') as [<-|Hne].
    + rewrite Hget in Hm'. inversion Hm'; subst. congruence.
    + rewrite (Hother uid' Hne) in Hm'.
      destruct (Hinv uid' m Hm' Hon) as (Hloc & t & Ht & Hlt).
      rewrite (isLocalUser_user _ _ _ Hu). split; [exact Hloc|].
      exists t. split; [|exact Hlt]. rewrite Hl. now rewrite get_set_other.
Qed.

Lemma justified_seedMember : forall clock now v member,
  mapCurrent v = true -> membersLoaded v = true ->
  indicatorsJustified clock v ->
  indicatorsJustified clock (seedMember now v member).
Proof.
  intros clock now v member Hmap Hmem Hinv. unfold seedMember.
  destruct (latitude member) as [lat|]; [|exact Hinv].
  destruct (longitude member) as [lng|]; [|exact Hinv].
  pose proof (justified_update now (userId member) lat lng Hinv) as Hinv1.
  destruct (lastActive member) as [t|]; [|exact Hinv1].
  pose proof (updateMemberMarker_props now (userId member) lat lng v)
    as (_ & _ & Hu & _).
  rewrite (isLocalUser_user _ _ _ Hu).
  destruct (isLocalUser v (userId member)) eqn:Hlocal; [exact Hinv1|].
  cbn [negb]. apply justified_stamp; [|exact Hinv1].
  destruct (updateMemberMarker_cases now (userId member) lat lng v)
    as [(_ & _ & [H|[H|H]])|((m' & Hget & Hoff) & _)]; congruence.
Qed.

Lemma seedMember_guards : forall now v member,
  mapCurrent (seedMember now v member) = mapCurrent v /\
  session (seedMember now v member) = session v /\
  user (seedMember now v member) = user v.
Proof.
  intros now v member. unfold seedMember.
  destruct (latitude member) as [lat|]; [|auto].
  destruct (longitude member) as [lng|]; [|auto].
  pose proof (updateMemberMarker_props now (userId member) lat lng v)
    as (Hm & Hs & Hu & _).
  destruct (lastActive member); [destruct (negb _)|]; cbn; auto.
Qed.

Lemma justified_seedMembers : forall clock now ms v,
  mapCurrent v = true -> membersLoaded v = true ->
  indicatorsJustified clock v ->
  indicatorsJustified clock (List.fold_left (seedMember now) ms v).
Proof.
  intros clock now ms. induction ms as [|m ms IH];
    intros v Hmap Hmem Hinv; simpl; [exact Hinv|].
  destruct (seedMember_guards now v m) as (Hm & Hs & _).
  apply IH.
  - congruence.
  - unfold membersLoaded in *. now rewrite Hs.
  - now apply justified_seedMember.
Qed.

Lemma justified_sweep : forall clock now v,
  JsMap.wf (memberLastUpdateRef v) ->
  (clock <= now)%Z ->
  indicatorsJustified clock v ->
  indicatorsJustified now (checkSignalLost now v).
Proof.
  intros clock now v Hwf Hle Hinv uid m' Hm' Hon.
  rewrite sweep_marker_after in Hm' by exact Hwf.
  change (isLocalUser (checkSignalLost now v) uid) with (isLocalUser v uid).
  change (memberLastUpdateRef (checkSignalLost now v))
    with (memberLastUpdateRef v).
  destruct (JsMap.get uid (memberMarkersRef v)) as [m|] eqn:Hm;
    [|discriminate].
  assert (Hold : lostOverlayShown m = true ->
                 isLocalUser v uid = false /\
                 exists t, JsMap.get uid (memberLastUpdateRef v) = Some t /\
                           (SIGNAL_LOST_THRESHOLD < now - t)%Z).
  { intros H. destruct (Hinv uid m Hm H) as (Hl & t & Ht & Hlt).
    split; [exact Hl|]. exists t. split; [exact Ht|lia]. }
  destruct (isLocalUser v uid) eqn:Hlocal.
  - inversion Hm'; subst. destruct (Hold Hon) as [H _]. discriminate.
  - split; [reflexivity|].
    destruct (JsMap.get uid (memberLastUpdateRef v)) as [t|] eqn:Ht.
    + exists t. split; [reflexivity|].
      inversion Hm' as [Heq]. clear Hm'.
      destruct (signalLost now t) eqn:Hs.
      * unfold signalLost in Hs. now apply Z.ltb_lt in Hs.
      * subst m'. cbn in Hon. destruct (Hold Hon) as (_ & t' & Ht' & Hlt).
        congruence.
    + inversion Hm'; subst. destruct (Hold Hon) as (_ & t' & Ht' & _).
      discriminate.
Qed.

Section Reachable.
Context {M : JsMath}.

Lemma lastUpdate_wf_updateMemberMarker : forall now uid lat lng v,
  JsMap.wf (memberLastUpdateRef v) ->
  JsMap.wf (memberLastUpdateRef (updateMemberMarker now uid lat lng v)).
Proof.
  intros now uid lat lng v Hwf.
  destruct (updateMemberMarker_cases now uid lat lng v)
    as [(_ & -> & _)|(_ & -> & _)]; [exact Hwf|now apply wf_set].
Qed.

Lemma lastUpdate_wf_seedMembers : forall now ms v,
  JsMap.wf (memberLastUpdateRef v) ->
  JsMap.wf (memberLastUpdateRef (List.fold_left (seedMember now) ms v)).
Proof.
  intros now ms. induction ms as [|m ms IH]; intros v Hwf; simpl;
    [exact Hwf|].
  apply IH. unfold seedMember.
  destruct (latitude m) as [lat|]; [|exact Hwf].
  destruct (longitude m) as [lng|]; [|exact Hwf].
  assert (Hwf1 : JsMap.wf (memberLastUpdateRef
                    (updateMemberMarker now (userId m) lat lng v)))
    by (now apply lastUpdate_wf_updateMemberMarker).
  destruct (lastActive m); [destruct (negb _)|]; auto.
  cbn. now apply wf_set.
Qed.

Lemma lastUpdate_wf_step : forall v e,
  JsMap.wf (memberLastUpdateRef v) ->
  JsMap.wf (memberLastUpdateRef (step v e)).
Proof.
  intros v e Hwf.
  destruct e as [now msg|now msg|now data|now|today|today|]; cbn [step].
  - destruct msg; cbn; auto using lastUpdate_wf_updateMemberMarker.
  - destruct msg; cbn; auto using lastUpdate_wf_updateMemberMarker.
  - unfold seedMemberMarkers.
    set (v0 := initializeMap (with_session (Some data) v)).
    assert (Hv0 : JsMap.wf (memberLastUpdateRef v0)).
    { subst v0. unfold initializeMap. now destruct (render _). }
    destruct (session v0); [|exact Hv0].
    destruct (mapCurrent v0); [|exact Hv0].
    now apply lastUpdate_wf_seedMembers.
  - exact Hwf.
  - destruct (offered v) as [[| |]|]; auto.
    now rewrite (proj1 (proj2 (proj2 (proj2 (proj2
                   (deleteMutation_view today v)))))).
  - destruct (offered v) as [[| |]|]; auto.
    now rewrite (proj1 (proj2 (proj2 (proj2 (proj2
                   (leaveMutation_view today v)))))).
  - now destruct (offered v).
Qed.

Lemma justified_step : forall clock v e,
  JsMap.wf (memberLastUpdateRef v) ->
  indicatorsJustified clock v ->
  match eventTime e with
  | Some now => (clock <= now)%Z -> indicatorsJustified now (step v e)
  | None => indicatorsJustified clock (step v e)
  end.
Proof.
  intros clock v e Hwf Hinv.
  assert (Hsame : forall v',
            memberMarkersRef v' = memberMarkersRef v ->
            memberLastUpdateRef v' = memberLastUpdateRef v ->
            user v' = user v ->
            indicatorsJustified clock v').
  { intros v' Hm Hl Hu uid m Hget Hon. rewrite Hm in Hget.
    rewrite (isLocalUser_user _ _ _ Hu), Hl. exact (Hinv uid m Hget Hon). }
  destruct e as [now msg|now msg|now data|now|today|today|];
    cbn [eventTime step].
  - intros Hle. apply (justified_weaken Hle).
    destruct msg; cbn; auto using justified_update.
  - intros Hle. apply (justified_weaken Hle).
    destruct msg; cbn; auto using justified_update.
  - intros Hle. apply (justified_weaken Hle).
    unfold seedMemberMarkers.
    set (v0 := initializeMap (with_session (Some data) v)).
    assert (Hv0 : indicatorsJustified clock v0).
    { subst v0. unfold initializeMap.
      destruct (render _); now apply Hsame. }
    destruct (session v0) as [s0|] eqn:Hs0; [|exact Hv0].
    destruct (mapCurrent v0) eqn:Hmap; [|exact Hv0].
    apply justified_seedMembers; auto.
    unfold membersLoaded. now rewrite Hs0.
  - intros Hle. now apply justified_sweep with (clock := clock).
  - destruct (offered v) as [[| |]|]; auto.
    destruct (deleteMutation_view today v) as (_ & _ & Hu & _ & Hl & Hm).
    now apply Hsame.
  - destruct (offered v) as [[| |]|]; auto.
    destruct (leaveMutation_view today v) as (_ & _ & Hu & _ & Hl & Hm).
    now apply Hsame.
  - destruct (offered v); now apply Hsame.
Qed.

(** Along a run whose clock does not run backwards, the indicators are
    justified when the closing sweep starts. *)
Lemma run_justified : forall events since v now,
  chronologicalFrom since (events ++ [EvSweep now]) ->
  JsMap.wf (memberLastUpdateRef v) ->
  indicatorsJustified since v ->
  exists clock,
    (clock <= now)%Z /\
    indicatorsJustified clock (run v events) /\
    JsMap.wf (memberLastUpdateRef (run v events)).
Proof.
  unfold run.
  induction events as [|e events IH]; intros since v now Hchron Hwf Hinv.
  - cbn in Hchron. exists since. cbn. intuition.
  - cbn [app chronologicalFrom] in Hchron. cbn [List.fold_left].
    pose proof (@justified_step since v e Hwf Hinv) as Hstep.
    pose proof (@lastUpdate_wf_step v e Hwf) as Hwf'.
    destruct (eventTime e) as [t|].
    + destruct Hchron as [Hle Hrest].
      exact (IH t (step v e) now Hrest Hwf' (Hstep Hle)).
    + exact (IH since (step v e) now Hchron Hwf' Hstep).
Qed.

Lemma initial_justified : forall clock u sid b,
  indicatorsJustified clock (initialView u sid b) /\
  JsMap.wf (memberLastUpdateRef (initialView u sid b)).
Proof.
  intros clock u sid b. split.
  - intros uid m Hm. discriminate Hm.
  - constructor.
Qed.
End Reachable.

(** C5.  The sweep is installed with a 15000 ms interval.  In any run of
    the view from the opening of the page whose clock readings do not
    decrease, a sweep at time [now] leaves the signal-lost indicator of a
    member other than the local user on exactly when [now] minus that
    member's last update exceeds 120000 ms, and the local user's indicator
    off.  The sweep writes marker elements only: the backend, the stored
    timestamps, the paths and the session data are as before. *)
Theorem signal_lost_sweep :
  forall (M : JsMath) (u : option AuthUser) (sid : Z) (b : Backend)
         (since : Z) (events : list ViewEvent) (now : Z),
    chronologicalFrom since (events ++ [EvSweep now]) ->
    let v := run (initialView u sid b) events in
    let v' := step v (EvSweep now) in
    sweepInterval signalLostEffect = 15000%Z
    /\ (forall (uid lastUpdate : Z) (marker' : Marker),
        isLocalUser v uid = false ->
        JsMap.get uid (memberLastUpdateRef v) = Some lastUpdate ->
        JsMap.get uid (memberMarkersRef v') = Some marker' ->
        (lostOverlayShown marker' = true <->
           (now - lastUpdate > 120 * 1000)%Z))
    /\ (forall (uid : Z) (marker' : Marker),
        isLocalUser v uid = true ->
        JsMap.get uid (memberMarkersRef v') = Some marker' ->
        lostOverlayShown marker' = false)
    /\ (backend v' = backend v /\
        memberLastUpdateRef v' = memberLastUpdateRef v /\
        memberPaths v' = memberPaths v /\ session v' = session v).
Proof.
  intros M u sid b since events now Hchron v v'.
  destruct (initial_justified since u sid b) as [Hinit Hwf0].
  destruct (@run_justified M events since (initialView u sid b) now
              Hchron Hwf0 Hinit)
    as (clock & Hle & Hinv & Hwf).
  fold v in Hinv, Hwf.
  pose proof (@justified_sweep clock now v Hwf Hle Hinv) as Hafter.
  split; [reflexivity|]. split; [|split; [|now repeat split]].
  - intros uid lastUpdate marker' Hlocal Hlast Hm'.
    subst v'. cbn [step] in Hm'.
    rewrite sweep_marker_after in Hm' by exact Hwf.
    destruct (JsMap.get uid (memberMarkersRef v)) as [m|] eqn:Hm;
      [|discriminate].
    rewrite Hlocal, Hlast in Hm'. inversion Hm' as [Heq]. clear Hm'.
    unfold signalLost, SIGNAL_LOST_THRESHOLD.
    destruct (Z.ltb_spec (2 * 60 * 1000) (now - lastUpdate)) as [Hlt|Hge].
    + cbn. split; [lia|reflexivity].
    + cbn. split; [|lia]. intros Hon.
      destruct (Hinv uid m Hm Hon) as (_ & t & Ht & Hlt).
      unfold SIGNAL_LOST_THRESHOLD in Hlt.
      assert (t = lastUpdate) by congruence. lia.
  - intros uid marker' Hlocal Hm'.
    destruct (lostOverlayShown marker') eqn:Hon; [|reflexivity].
    destruct (Hafter uid marker' Hm' Hon) as [Hloc _].
    change (isLocalUser (checkSignalLost now v) uid)
      with (isLocalUser v uid) in Hloc.
    congruence.
Qed.

(** C5 on the sample data: Alice opens the page, the session loads, Bob
    reports a position at time 1000; the sweep at 121001 marks Bob, and in
    the same run a sweep at 121000 would not. *)
Lemma signal_lost_witness :
  let events := [EvSessionData 0 Sample.ridgeWalk;
                 EvMessage 1000 (MemberLocationUpdate 2 10 10)] in
  let v := @run Reference.math
             (initialView (Some Sample.alice) 5 Sample.alwaysOk) events in
  chronologicalFrom 0 (events ++ [EvSweep 121001]) /\
  (isLocalUser v 2 = false /\
   JsMap.get 2 (memberLastUpdateRef v) = Some 1000%Z) /\
  option_map lostOverlayShown
    (JsMap.get 2 (memberMarkersRef
                    (@step Reference.math v (EvSweep 121001)))) = Some true /\
  option_map lostOverlayShown
    (JsMap.get 2 (memberMarkersRef
                    (@step Reference.math v (EvSweep 121000)))) = Some false /\
  (lostOverlayShown (markLost 1000 (freshMarker 10 10)) = true <->
   (121001 - 1000 > 120 * 1000)%Z).
Proof.
  intros events v.
  assert (Hchron : chronologicalFrom 0 (events ++ [EvSweep 121001])).
  { cbn. lia. }
  split; [exact Hchron|]. split; [split; reflexivity|].
  split; [reflexivity|]. split; [reflexivity|].
  exact (proj1 (proj2
    (@signal_lost_sweep Reference.math (Some Sample.alice) 5%Z
       Sample.alwaysOk 0%Z events 121001%Z Hchron))
    2%Z 1000%Z (markLost 1000 (freshMarker 10 10))
    eq_refl eq_refl eq_refl).
Defined.

(* ================================================================== *)
(** * Learning that the session has ended *)






(* ================================================================== *)
(** * Archiving paths as routes *)

Lemma submittedRoutes_app : forall l1 l2,
  submittedRoutes (l1 ++ l2) = submittedRoutes l1 ++ submittedRoutes l2.
Proof.
  induction l1 as [|[r ok] l1 IH]; intros l2; simpl; [reflexivity|].
  rewrite IH. destruct (req_body r); [destruct (isRoutePost r)|]; reflexivity.
Qed.

Lemma persistedRoutes_app : forall l1 l2,
  persistedRoutes (l1 ++ l2) = persistedRoutes l1 ++ persistedRoutes l2.
Proof.
  induction l1 as [|[r ok] l1 IH]; intros l2; simpl; [reflexivity|].
  rewrite IH.
  destruct (req_body r); [destruct (ok && isRoutePost r)|]; reflexivity.
Qed.

Section ArchiveLoop.
Context {M : JsMath}.
Variables (v : View) (today : string).

Lemma savePathsLoop_spec : forall entries n b,
  let r := savePathsLoop v today entries n b in
  accepts (snd r) = accepts b /\
  submittedRoutes (served (snd r)) =
    submittedRoutes (served b) ++
    List.map (routeFor v today)
      (List.filter (fun e => (2 <=? List.length (snd e))%nat) entries) /\
  ((forall k, accepts b k = true) ->
   persistedRoutes (served (snd r)) =
     persistedRoutes (served b) ++
     List.map (routeFor v today)
       (List.filter (fun e => (2 <=? List.length (snd e))%nat) entries)).
Proof.
  induction entries as [|[uid path] rest IH]; intros n b; cbn zeta.
  - cbn. rewrite !app_nil_r. auto.
  - cbn [savePathsLoop List.filter snd].
    destruct (Nat.ltb_spec (List.length path) 2) as [Hshort|Hlong].
    + destruct (Nat.leb_spec 2 (List.length path)); [lia|]. apply IH.
    + destruct (Nat.leb_spec 2 (List.length path)); [|lia].
      unfold apiRequest. cbv beta iota zeta.
      set (req := {| req_method := POST; req_url := "/api/routes";
                     req_body := Some (recordedRoute v today
                                         (pathRouteName v uid) path) |}).
      set (ok := accepts b (List.length (served b))).
      set (b' := {| accepts := accepts b;
                    served := served b ++ [(req, ok)] |}).
      destruct (IH (if ok then S n else n) b') as (Ha & Hs & Hp).
      split; [exact Ha|]. split.
      * rewrite Hs. subst b'. cbn [served].
        rewrite submittedRoutes_app. cbn. now rewrite <- app_assoc.
      * intros Hall. rewrite Hp by exact Hall. subst b'. cbn [served].
        rewrite persistedRoutes_app. cbn.
        subst ok. rewrite Hall. cbn. now rewrite <- app_assoc.
Qed.

Lemma deleteMutation_routes :
  submittedRoutes (served (backend (deleteMutation today v))) =
    submittedRoutes (served (backend v)) ++
    List.map (routeFor v today) (archivable (memberPaths v))
  /\ ((forall k, accepts (backend v) k = true) ->
      persistedRoutes (served (backend (deleteMutation today v))) =
        persistedRoutes (served (backend v)) ++
        List.map (routeFor v today) (archivable (memberPaths v))
      /\ location (deleteMutation today v) = HOME).
Proof.
  unfold deleteMutation, saveSessionPathsAsRoutes, archivable.
  pose proof (savePathsLoop_spec (JsMap.entries (memberPaths v)) 0
                (backend v)) as (Ha & Hs & Hp).
  destruct (savePathsLoop v today (JsMap.entries (memberPaths v)) 0
              (backend v)) as [n b]. cbn [snd] in *.
  unfold apiRequest. cbn [backend with_backend].
  split.
  - destruct (accepts b (List.length (served b)));
      cbn [backend with_backend with_location with_toast served];
      rewrite submittedRoutes_app, Hs; cbn; now rewrite app_nil_r.
  - intros Hall. rewrite Ha, Hall.
    cbn [backend with_backend with_location with_toast served location].
    rewrite persistedRoutes_app, Hp by exact Hall. cbn.
    now rewrite app_nil_r.
Qed.

End ArchiveLoop.











(** The loop of [calculatePathDistance] adds the haversine lengths of the
    consecutive pairs of the path. *)
Lemma calculatePathDistance_is_haversineSum :
  forall (M : JsMath) (path : Path),
    calculatePathDistance path = haversineSum path.
Proof.
  intros M path. unfold calculatePathDistance, haversineSum.
  assert (Hloop : forall rest p0 total,
    distanceLoop p0 rest total =
    List.fold_left (fun t seg => (t + haversine (fst seg) (snd seg))%float)
      (List.combine (p0 :: rest) rest) total).
  { induction rest as [|q r IH]; intros p0 total; [reflexivity|].
    cbn [distanceLoop List.combine List.fold_left fst snd]. apply IH. }
  destruct path as [|p0 [|p1 rest]]; try reflexivity.
  cbn [List.length Nat.ltb Nat.leb List.tl]. apply Hloop.
Qed.

Lemma archivable_keys_nodup : forall paths : JsMap.t Path,
  JsMap.wf paths -> NoDup (List.map fst (archivable paths)).
Proof.
  unfold JsMap.wf, JsMap.keys, archivable, JsMap.entries.
  induction paths as [|[k p] rest IH]; intros Hwf; [constructor|].
  inversion Hwf as [|? ? Hnot Hrest]; subst.
  cbn [List.filter snd].
  destruct (2 <=? List.length p)%nat; [|now apply IH].
  cbn [List.map fst]. constructor; [|now apply IH].
  intros Hin. apply Hnot. apply in_map_iff in Hin as ([k' p'] & Hk & Hin).
  apply filter_In in Hin as [Hin _]. simpl in Hk. subst k'.
  apply in_map_iff. now exists (k, p').
Qed.

Lemma archivable_spec : forall (paths : JsMap.t Path) uid path,
  JsMap.wf paths ->
  (In (uid, path) (archivable paths) <->
   JsMap.get uid paths = Some path /\ (2 <= List.length path)%nat).
Proof.
  intros paths uid path Hwf. unfold archivable. rewrite filter_In.
  cbn [snd]. rewrite Nat.leb_le. split; intros [H1 H2]; split; auto.
  - now apply get_of_entry.
  - now apply entry_of_get.
Qed.

(** What End Session does on a view whose [memberPaths] is a proper map. *)
Lemma end_session_archives :
  forall (M : JsMath) (today : string) (v : View),
    offered v = Some EndSession ->
    JsMap.wf (memberPaths v) ->
    let v' := step v (EvClickEndSession today) in
    let saved := archivable (memberPaths v) in
    submittedRoutes (served (backend v')) =
      submittedRoutes (served (backend v)) ++
      List.map (routeFor v today) saved
    /\ ((forall k, accepts (backend v) k = true) ->
        persistedRoutes (served (backend v')) =
          persistedRoutes (served (backend v)) ++
          List.map (routeFor v today) saved)
    /\ (forall (uid : Z) (path : Path),
        JsMap.get uid (memberPaths v) = Some path ->
        (2 <= List.length path)%nat ->
        In (uid, path) saved /\
        List.count_occ Z.eq_dec (List.map fst saved) uid = 1%nat)
    /\ (forall uid : Z,
        (List.length (pathOf uid (memberPaths v)) < 2)%nat ->
        ~ In uid (List.map fst saved))
    /\ (forall (uid : Z) (path : Path),
        let r := routeFor v today (uid, path) in
        pathCoordinates r = List.map (fun p => (snd p, fst p)) path
        /\ List.length (pathCoordinates r) = List.length path
        /\ totalDistance r = Number_toString (Math_round (haversineSum path))
        /\ route_name r =
           (sessionTitle v ++ " - " ++ memberNameOf v uid ++ "'s Path")%string)
    /\ (exists s : SessionData,
        session v = Some s /\
        (session_name s <> EmptyString -> sessionTitle v = session_name s))
    /\ EARTH_RADIUS = 6371000%float.
Proof.
  intros M today v Hoffered Hwf v' saved. subst v' saved.
  cbn [step]. rewrite Hoffered.
  destruct (deleteMutation_routes v today) as [Hsub Hper].
  split; [exact Hsub|]. split; [intros Hall; apply Hper, Hall|].
  split; [|split; [|split; [|split]]].
  - intros uid path Hget Hlen.
    assert (Hin : In (uid, path) (archivable (memberPaths v)))
      by (apply archivable_spec; auto).
    split; [exact Hin|].
    apply NoDup_count_occ'; [now apply archivable_keys_nodup|].
    apply in_map_iff. now exists (uid, path).
  - intros uid Hshort Hin.
    apply in_map_iff in Hin as ([k path] & Hk & Hin). simpl in Hk. subst k.
    apply archivable_spec in Hin as [Hget Hlen]; [|exact Hwf].
    unfold pathOf in Hshort. rewrite Hget in Hshort. lia.
  - intros uid path. unfold routeFor, recordedRoute.
    cbn [pathCoordinates totalDistance route_name fst snd].
    rewrite length_map, calculatePathDistance_is_haversineSum.
    repeat split.
  - unfold offered, render in Hoffered.
    destruct (negb (routeMatch v)); [discriminate|].
    destruct (session v) as [s|] eqn:Hs; [|discriminate].
    exists s. split; [reflexivity|]. intros Hname.
    unfold sessionTitle. rewrite Hs. cbn.
    destruct (String.eqb_spec (session_name s) EmptyString);
      [contradiction|reflexivity].
  - reflexivity.
Qed.

Lemma memberPaths_wf_step : forall (M : JsMath) (v : View) (e : ViewEvent),
  JsMap.wf (memberPaths v) -> JsMap.wf (memberPaths (step v e)).
Proof.
  intros M v e Hwf.
  assert (Hupd : forall now uid lat lng,
            JsMap.wf (memberPaths (updateMemberMarker now uid lat lng v))).
  { intros now uid lat lng. rewrite memberPaths_updateMemberMarker.
    destruct (negb (mapCurrent v) || negb (membersLoaded v));
      [exact Hwf|now apply updater_wf]. }
  destruct e as [now msg|now msg|now data|now|today|today|]; cbn [step].
  - destruct msg; cbn; auto.
  - destruct msg; cbn; auto.
  - unfold seedMemberMarkers.
    set (v0 := initializeMap (with_session (Some data) v)).
    assert (Hv0 : JsMap.wf (memberPaths v0)).
    { subst v0. unfold initializeMap. now destruct (render _). }
    destruct (session v0) as [s0|]; [|exact Hv0].
    destruct (mapCurrent v0); [|exact Hv0].
    clearbody v0. clear Hupd. revert v0 Hv0.
    induction (members s0) as [|m ms IH]; intros v0 Hv0; [exact Hv0|].
    cbn [List.fold_left]. apply IH. unfold seedMember.
    destruct (latitude m) as [lat|]; [|exact Hv0].
    destruct (longitude m) as [lng|]; [|exact Hv0].
    assert (H1 : JsMap.wf (memberPaths
                   (updateMemberMarker now (userId m) lat lng v0))).
    { rewrite memberPaths_updateMemberMarker.
      destruct (negb (mapCurrent v0) || negb (membersLoaded v0));
        [exact Hv0|now apply updater_wf]. }
    destruct (lastActive m); [destruct (negb _)|]; exact H1.
  - exact Hwf.
  - destruct (offered v) as [[| |]|]; auto.
    now rewrite (proj1 (deleteMutation_view today v)).
  - destruct (offered v) as [[| |]|]; auto.
    now rewrite (proj1 (leaveMutation_view today v)).
  - now destruct (offered v).
Qed.

(** Along any run from the opening of the page [memberPaths] has one entry
    per member. *)
Lemma memberPaths_wf_run :
  forall (M : JsMath) (events : list ViewEvent) (v : View),
    JsMap.wf (memberPaths v) -> JsMap.wf (memberPaths (run v events)).
Proof.
  intros M events. unfold run.
  induction events as [|e es IH]; intros v Hwf; [exact Hwf|].
  cbn [List.fold_left]. apply IH. now apply memberPaths_wf_step.
Qed.

(** C4.  In any view reached from the opening of the page, pressing End
    Session posts, for every member whose path has at least two points,
    exactly one route, and none for the others; when the backend accepts
    the requests these are exactly the routes added to the store.  The
    route of a member carries the member's path point for point, a name
    that begins with the session's name, and as total distance the
    haversine sum over consecutive points (Earth radius 6371000 m),
    rounded by [Math.round] and written out by [String]. *)
Theorem ending_session_archives_each_path :
  forall (M : JsMath) (u : option AuthUser) (sid : Z) (b : Backend)
         (events : list ViewEvent) (today : string),
    let v := run (initialView u sid b) events in
    offered v = Some EndSession ->
    let v' := step v (EvClickEndSession today) in
    let saved := archivable (memberPaths v) in
    submittedRoutes (served (backend v')) =
      submittedRoutes (served (backend v)) ++
      List.map (routeFor v today) saved
    /\ ((forall k, accepts (backend v) k = true) ->
        persistedRoutes (served (backend v')) =
          persistedRoutes (served (backend v)) ++
          List.map (routeFor v today) saved)
    /\ (forall (uid : Z) (path : Path),
        JsMap.get uid (memberPaths v) = Some path ->
        (2 <= List.length path)%nat ->
        In (uid, path) saved /\
        List.count_occ Z.eq_dec (List.map fst saved) uid = 1%nat)
    /\ (forall uid : Z,
        (List.length (pathOf uid (memberPaths v)) < 2)%nat ->
        ~ In uid (List.map fst saved))
    /\ (forall (uid : Z) (path : Path),
        let r := routeFor v today (uid, path) in
        pathCoordinates r = List.map (fun p => (snd p, fst p)) path
        /\ List.length (pathCoordinates r) = List.length path
        /\ totalDistance r = Number_toString (Math_round (haversineSum path))
        /\ route_name r =
           (sessionTitle v ++ " - " ++ memberNameOf v uid ++ "'s Path")%string)
    /\ (exists s : SessionData,
        session v = Some s /\
        (session_name s <> EmptyString -> sessionTitle v = session_name s))
    /\ EARTH_RADIUS = 6371000%float.
Proof.
  intros M u sid b events today v Hoffered.
  apply (@end_session_archives M today v Hoffered).
  apply memberPaths_wf_run. constructor.
Qed.

(** C4 on the sample data: Alice opens the page, the session loads, Bob
    reports two positions apart, member 3 three and member 4 one; then
    Alice ends the session.  Bob's and member 3's paths become one route
    each, member 4 gets none. *)
Lemma ending_session_witness :
  let events :=
    [EvSessionData 0 Sample.ridgeWalk;
     EvMessage 10 (MemberLocationUpdate 2 10 10);
     EvMessage 20 (MemberLocationUpdate 3 20 20);
     EvMessage 30 (MemberLocationUpdate 2 10.25 10.5);
     EvMessage 40 (MemberLocationUpdate 4 30 30);
     EvMessage 50 (MemberLocationUpdate 3 20.5 20.5);
     EvMessage 60 (MemberLocationUpdate 3 20.5 21)] in
  let v := @run Reference.math
             (initialView (Some Sample.alice) 5 Sample.alwaysOk) events in
  let v' := @step Reference.math v (EvClickEndSession Sample.today) in
  (offered v = Some EndSession /\ forall k, accepts (backend v) k = true) /\
  memberPaths v =
    [(2%Z, Sample.bobsPath); (3%Z, Sample.threePoints);
     (4%Z, [(30, 30)%float])] /\
  persistedRoutes (served (backend v')) =
    persistedRoutes (served (backend v)) ++
    List.map (@routeFor Reference.math v Sample.today)
      (archivable (memberPaths v)) /\
  List.map route_name (persistedRoutes (served (backend v'))) =
    ["Ridge Walk - bob's Path"; "Ridge Walk - User 3's Path"]%string /\
  List.map pathCoordinates (persistedRoutes (served (backend v'))) =
    [[(10, 10); (10.25, 10.5)]; [(20, 20); (20.5, 20.5); (20.5, 21)]]%float /\
  List.map totalDistance (persistedRoutes (served (backend v'))) =
    ["61387"; "128312"]%string.
Proof.
  intros events v v'.
  assert (Hall : forall k, accepts (backend v) k = true) by reflexivity.
  split; [split; [reflexivity|exact Hall]|].
  split; [reflexivity|].
  split; [|repeat split; vm_compute; reflexivity].
  exact (proj1 (proj2
    (@ending_session_archives_each_path Reference.math (Some Sample.alice)
       5%Z Sample.alwaysOk events Sample.today eq_refl)) Hall).
Defined.

(* ================================================================== *)
(** * The per-member maps along a run *)

Lemma user_step : forall (M : JsMath) (v : View) (e : ViewEvent),
  user (step v e) = user v.
Proof.
  intros M v e.
  destruct e as [now msg|now msg|now data|now|today|today|]; simpl.
  - destruct msg; simpl; try reflexivity. apply updateMemberMarker_props.
  - destruct msg; simpl; try reflexivity. apply updateMemberMarker_props.
  - unfold seedMemberMarkers.
    set (v0 := initializeMap (with_session (Some data) v)).
    assert (Hv0 : user v0 = user v).
    { subst v0. unfold initializeMap. now destruct (render _). }
    destruct (session v0); [|exact Hv0].
    destruct (mapCurrent v0); [|exact Hv0].
    rewrite <- Hv0. clear Hv0. generalize v0.
    induction (members s) as [|m ms IH]; intros w; simpl; [reflexivity|].
    rewrite IH. apply seedMember_guards.
  - reflexivity.
  - destruct (offered v) as [[| |]|]; try reflexivity.
    apply deleteMutation_view.
  - destruct (offered v) as [[| |]|]; try reflexivity.
    apply leaveMutation_view.
  - destruct (offered v); reflexivity.
Qed.

Lemma user_run : forall (M : JsMath) (es : list ViewEvent) (v : View),
  user (run v es) = user v.
Proof.
  intros M es. unfold run.
  induction es as [|e es IH]; intros v; simpl; [reflexivity|].
  rewrite IH. apply user_step.
Qed.

Lemma updateMemberMarker_lookup : forall now uid lat lng v,
  let v' := updateMemberMarker now uid lat lng v in
  (memberMarkersRef v' = memberMarkersRef v /\
   memberLastUpdateRef v' = memberLastUpdateRef v)
  \/ (isLocalUser v uid = false /\
      (exists m', JsMap.get uid (memberMarkersRef v') = Some m') /\
      JsMap.get uid (memberLastUpdateRef v') = Some now /\
      forall uid', uid <> uid' ->
        JsMap.get uid' (memberMarkersRef v') =
          JsMap.get uid' (memberMarkersRef v) /\
        JsMap.get uid' (memberLastUpdateRef v') =
          JsMap.get uid' (memberLastUpdateRef v)).
Proof.
  intros now uid lat lng v. unfold updateMemberMarker.
  destruct (negb (mapCurrent v) || negb (membersLoaded v)); [now left|].
  change (isLocalUser (with_memberPaths _ v) uid) with (isLocalUser v uid).
  destruct (isLocalUser v uid) eqn:Hloc; [now left|].
  right. split; [reflexivity|]. cbn.
  destruct (JsMap.get uid (memberMarkersRef v)) as [m|]; cbn;
    (split; [eexists; apply get_set_same|]);
    (split; [apply get_set_same|]);
    intros uid' Hne; split; now apply get_set_other.
Qed.

Lemma untracked_update : forall now uid lat lng v,
  localUntracked v -> localUntracked (updateMemberMarker now uid lat lng v).
Proof.
  intros now uid lat lng v Hinv uid' Hloc.
  pose proof (updateMemberMarker_props now uid lat lng v) as (_ & _ & Hu & _).
  rewrite (isLocalUser_user _ _ uid' Hu) in Hloc.
  destruct (updateMemberMarker_lookup now uid lat lng v)
    as [[Hm Hl]|(Hnl & _ & _ & Hother)].
  - rewrite Hm, Hl. now apply Hinv.
  - assert (Hne : uid <> uid') by (intros ->; congruence).
    destruct (Hother uid' Hne) as [-> ->]. now apply Hinv.
Qed.

Lemma stamped_update : forall now uid lat lng v,
  markersStamped v -> markersStamped (updateMemberMarker now uid lat lng v).
Proof.
  intros now uid lat lng v Hinv uid' m Hget.
  destruct (updateMemberMarker_lookup now uid lat lng v)
    as [[Hm Hl]|(_ & _ & Hstamp & Hother)].
  - rewrite Hl. rewrite Hm in Hget. now apply (Hinv uid' m).
  - destruct (Z.eq_dec uid uid') as [<-|Hne]; [eauto|].
    destruct (Hother uid' Hne) as [Hm Hl]. rewrite Hl.
    rewrite Hm in Hget. now apply (Hinv uid' m).
Qed.

Lemma untracked_seedMember : forall now v member,
  localUntracked v -> localUntracked (seedMember now v member).
Proof.
  intros now v member Hinv. unfold seedMember.
  destruct (latitude member) as [lat|]; [|exact Hinv].
  destruct (longitude member) as [lng|]; [|exact Hinv].
  pose proof (untracked_update now (userId member) lat lng Hinv) as H1.
  set (v1 := updateMemberMarker now (userId member) lat lng v) in *.
  destruct (lastActive member) as [t|]; [|exact H1].
  destruct (isLocalUser v1 (userId member)) eqn:Hloc; [exact H1|].
  cbn [negb]. intros uid Huid.
  change (isLocalUser (with_memberLastUpdate _ v1) uid)
    with (isLocalUser v1 uid) in Huid.
  destruct (H1 uid Huid) as [Hm Hl]. cbn. split; [exact Hm|].
  rewrite get_set_other; [exact Hl|]. intros E. rewrite E in Hloc.
  congruence.
Qed.

Lemma stamped_seedMember : forall now v member,
  markersStamped v -> markersStamped (seedMember now v member).
Proof.
  intros now v member Hinv. unfold seedMember.
  destruct (latitude member) as [lat|]; [|exact Hinv].
  destruct (longitude member) as [lng|]; [|exact Hinv].
  pose proof (stamped_update now (userId member) lat lng Hinv) as H1.
  set (v1 := updateMemberMarker now (userId member) lat lng v) in *.
  destruct (lastActive member) as [t|]; [|exact H1].
  destruct (negb (isLocalUser v1 (userId member))); [|exact H1].
  intros uid m Hget. cbn in Hget |- *.
  destruct (Z.eq_dec (userId member) uid) as [<-|Hne].
  - rewrite get_set_same. eauto.
  - rewrite get_set_other by exact Hne. now apply (H1 uid m).
Qed.

Lemma sweep_has_marker : forall me now entries markers uid (m : Marker),
  JsMap.get uid markers = Some m ->
  exists m', JsMap.get uid (List.fold_left (checkMember me now) entries markers)
             = Some m'.
Proof.
  intros me now entries. induction entries as [|[k t] rest IH];
    intros markers uid m Hget; simpl; [eauto|].
  assert (H : exists m1, JsMap.get uid (checkMember me now markers (k, t))
                         = Some m1).
  { unfold checkMember.
    destruct (match me with Some id => Z.eqb k id | None => false end);
      [eauto|].
    destruct (JsMap.get k markers) as [mk|] eqn:Hk; [|eauto].
    destruct (Z.eq_dec k uid) as [->|Hne].
    - destruct (signalLost now t); rewrite get_set_same; eauto.
    - destruct (signalLost now t); rewrite get_set_other by exact Hne; eauto. }
  destruct H as [m1 H1]. exact (IH _ uid m1 H1).
Qed.

Lemma sweep_marker_none : forall now v uid,
  JsMap.get uid (memberMarkersRef (checkSignalLost now v)) = None <->
  JsMap.get uid (memberMarkersRef v) = None.
Proof.
  intros now v uid. unfold checkSignalLost. cbn. split; intros H.
  - destruct (JsMap.get uid (memberMarkersRef v)) as [m|] eqn:Hm;
      [|reflexivity].
    destruct (sweep_has_marker (option_map au_id (user v)) now
                (JsMap.entries (memberLastUpdateRef v)) _ uid Hm) as [m' Hm'].
    congruence.
  - now apply sweep_no_marker.
Qed.

Section Tracking.
Context {M : JsMath}.

Lemma tracking_step : forall v e,
  localUntracked v /\ markersStamped v ->
  localUntracked (step v e) /\ markersStamped (step v e).
Proof.
  intros v e [Hu Hs].
  assert (Hsame : forall v',
            user v' = user v ->
            memberMarkersRef v' = memberMarkersRef v ->
            memberLastUpdateRef v' = memberLastUpdateRef v ->
            localUntracked v' /\ markersStamped v').
  { intros v' Hus Hm Hl. split.
    - intros uid Hloc. rewrite Hm, Hl. apply Hu.
      now rewrite <- (isLocalUser_user v v' uid Hus).
    - intros uid m. rewrite Hm, Hl. apply Hs. }
  assert (Hupd : forall now uid lat lng,
            localUntracked (updateMemberMarker now uid lat lng v) /\
            markersStamped (updateMemberMarker now uid lat lng v)).
  { intros. split; [now apply untracked_update|now apply stamped_update]. }
  destruct e as [now msg|now msg|now data|now|today|today|]; simpl.
  - destruct msg; simpl; try (now apply Hsame); apply Hupd.
  - destruct msg; simpl; try (now apply Hsame); apply Hupd.
  - unfold seedMemberMarkers.
    set (v0 := initializeMap (with_session (Some data) v)).
    assert (Hv0 : localUntracked v0 /\ markersStamped v0).
    { subst v0. unfold initializeMap.
      destruct (render _); now apply Hsame. }
    destruct (session v0); [|exact Hv0].
    destruct (mapCurrent v0); [|exact Hv0].
    revert Hv0. generalize v0.
    induction (members s) as [|m ms IH]; intros w Hw; simpl; [exact Hw|].
    apply IH. destruct Hw as [Hwu Hws]. split;
      [now apply untracked_seedMember|now apply stamped_seedMember].
  - split.
    + intros uid Hloc.
      change (isLocalUser (checkSignalLost now v) uid)
        with (isLocalUser v uid) in Hloc.
      destruct (Hu uid Hloc) as [Hm Hl]. split; [|exact Hl].
      now apply sweep_marker_none.
    + intros uid m Hget.
      change (memberLastUpdateRef (checkSignalLost now v))
        with (memberLastUpdateRef v).
      destruct (JsMap.get uid (memberMarkersRef v)) as [m0|] eqn:Hm0.
      * exact (Hs uid m0 Hm0).
      * apply (sweep_marker_none now v uid) in Hm0. congruence.
  - destruct (offered v) as [[| |]|]; try (split; assumption).
    pose proof (deleteMutation_view today v) as (_ & _ & H1 & _ & H2 & H3).
    now apply Hsame.
  - destruct (offered v) as [[| |]|]; try (split; assumption).
    pose proof (leaveMutation_view today v) as (_ & _ & H1 & _ & H2 & H3).
    now apply Hsame.
  - destruct (offered v); [now apply Hsame|split; assumption].
Qed.

Lemma tracking_run : forall es v,
  localUntracked v /\ markersStamped v ->
  localUntracked (run v es) /\ markersStamped (run v es).
Proof.
  unfold run. induction es as [|e es IH]; intros v H; simpl; [exact H|].
  apply IH. now apply tracking_step.
Qed.
End Tracking.

Lemma tracking_initial : forall u sid b,
  localUntracked (initialView u sid b) /\ markersStamped (initialView u sid b).
Proof.
  intros u sid b. split.
  - intros uid _. split; reflexivity.
  - intros uid m H. discriminate H.
Qed.

(** X1.  The local user is never tracked like the other members: after any
    events on a freshly opened page [memberMarkersRef] holds no marker and
    [memberLastUpdateRef] no time stamp under the user's own id, and no
    sweep creates one. *)
Theorem local_user_is_never_tracked :
  forall (M : JsMath) (u : AuthUser) (sid : Z) (b : Backend)
         (events : list ViewEvent),
    let v := run (initialView (Some u) sid b) events in
    JsMap.get (au_id u) (memberMarkersRef v) = None /\
    JsMap.get (au_id u) (memberLastUpdateRef v) = None /\
    (forall now, JsMap.get (au_id u)
                   (memberMarkersRef (checkSignalLost now v)) = None).
Proof.
  intros M u sid b events v.
  destruct (tracking_run events (tracking_initial (Some u) sid b))
    as [Hu _].
  assert (Hloc : isLocalUser v (au_id u) = true).
  { unfold isLocalUser. subst v. rewrite user_run. cbn.
    apply Z.eqb_refl. }
  destruct (Hu (au_id u) Hloc) as [Hm Hl].
  split; [exact Hm|]. split; [exact Hl|].
  intros now. now apply sweep_marker_none.
Qed.

(** X2.  After any events on a freshly opened page, every marker in
    [memberMarkersRef] belongs to a member other than the local user and
    has an entry in [memberLastUpdateRef], so the sweep, which walks the
    entries of [memberLastUpdateRef], reaches every marker. *)
Theorem every_marker_has_a_time_stamp :
  forall (M : JsMath) (u : option AuthUser) (sid : Z) (b : Backend)
         (events : list ViewEvent) (uid : Z) (m : Marker),
    let v := run (initialView u sid b) events in
    JsMap.get uid (memberMarkersRef v) = Some m ->
    isLocalUser v uid = false /\
    exists t : Z, JsMap.get uid (memberLastUpdateRef v) = Some t /\
                  In (uid, t) (JsMap.entries (memberLastUpdateRef v)).
Proof.
  intros M u sid b events uid m v Hget.
  destruct (tracking_run events (tracking_initial u sid b)) as [Hu Hs].
  split.
  - destruct (isLocalUser v uid) eqn:Hloc; [|reflexivity].
    destruct (Hu uid Hloc) as [Hm _]. fold v in Hm. congruence.
  - destruct (Hs uid m Hget) as [t Ht]. exists t. split; [exact Ht|].
    now apply entry_of_get.
Qed.

(** X2 on the member page after one update from member 2. *)
Lemma every_marker_witness :
  let v := @run Reference.math
             (initialView (Some Sample.alice) 5 Sample.alwaysOk)
             [EvSessionData 0 Sample.ridgeWalk;
              EvMessage 1000 (MemberLocationUpdate 2 10 10)] in
  JsMap.get 2 (memberMarkersRef v) = Some (freshMarker 10 10) /\
  (isLocalUser v 2 = false /\
   exists t : Z, JsMap.get 2 (memberLastUpdateRef v) = Some t /\
                 In (2%Z, t) (JsMap.entries (memberLastUpdateRef v))).
Proof.
  intros v.
  assert (H : JsMap.get 2 (memberMarkersRef v) = Some (freshMarker 10 10))
    by reflexivity.
  split; [exact H|].
  exact (@every_marker_has_a_time_stamp Reference.math (Some Sample.alice) 5
           Sample.alwaysOk
           [EvSessionData 0 Sample.ridgeWalk;
            EvMessage 1000 (MemberLocationUpdate 2 10 10)]
           2 (freshMarker 10 10) H).
Defined.

(* ================================================================== *)
(** * Requests *)

Section Requests.
Context {M : JsMath}.

Lemma savePathsLoop_log : forall (v : View) (today : string) entries n b,
  let r := savePathsLoop v today entries n b in
  exists added,
    served (snd r) = served b ++ added /\
    List.length added =
      List.length
        (List.filter (fun e => (2 <=? List.length (snd e))%nat) entries) /\
    fst r = (n + List.length (persistedRoutes added))%nat /\
    ((forall k, accepts b k = false) -> persistedRoutes added = []).
Proof.
  intros v today.
  induction entries as [|[uid path] rest IH]; intros n b; cbn zeta.
  - exists []. cbn. rewrite app_nil_r. repeat split; auto.
  - cbn [savePathsLoop List.filter snd].
    destruct (Nat.ltb_spec (List.length path) 2) as [Hshort|Hlong].
    + destruct (Nat.leb_spec 2 (List.length path)); [lia|]. apply IH.
    + destruct (Nat.leb_spec 2 (List.length path)); [|lia].
      unfold apiRequest. cbv beta iota zeta.
      set (req := {| req_method := POST; req_url := "/api/routes";
                     req_body := Some (recordedRoute v today
                                         (pathRouteName v uid) path) |}).
      set (ok := accepts b (List.length (served b))).
      set (b' := {| accepts := accepts b;
                    served := served b ++ [(req, ok)] |}).
      destruct (IH (if ok then S n else n) b') as (added & Hs & Hl & Hn & Hf).
      exists ((req, ok) :: added). split; [|split; [|split]].
      * rewrite Hs. subst b'. cbn [served]. now rewrite <- app_assoc.
      * cbn [List.length]. now rewrite Hl.
      * rewrite Hn. cbn [persistedRoutes req_body req].
        destruct ok; cbn; lia.
      * intros Hnone. cbn [persistedRoutes req_body req].
        subst ok. rewrite Hnone. cbn. apply Hf. intros k. apply Hnone.
Qed.

(** X3.  The count [saveSessionPathsAsRoutes] returns is the number of routes
    the backend stored during the call: it is at most the number of paths
    with two or more points, equal to it when every request is accepted,
    and zero when every request is rejected. *)
Theorem saved_count_is_number_of_stored_routes :
  forall (today : string) (v : View),
    let n := fst (saveSessionPathsAsRoutes today v) in
    let v' := snd (saveSessionPathsAsRoutes today v) in
    List.length (persistedRoutes (served (backend v'))) =
      (List.length (persistedRoutes (served (backend v))) + n)%nat
    /\ (n <= List.length (archivable (memberPaths v)))%nat
    /\ ((forall k, accepts (backend v) k = true) ->
        n = List.length (archivable (memberPaths v)))
    /\ ((forall k, accepts (backend v) k = false) -> n = 0%nat).
Proof.
  intros today v. unfold saveSessionPathsAsRoutes, archivable.
  pose proof (savePathsLoop_log v today (JsMap.entries (memberPaths v)) 0
                (backend v)) as (added & Hs & Hl & Hn & Hf).
  pose proof (savePathsLoop_spec v today (JsMap.entries (memberPaths v)) 0
                (backend v)) as (_ & _ & Hp).
  destruct (savePathsLoop v today (JsMap.entries (memberPaths v)) 0
              (backend v)) as [n b]. cbn [fst snd backend with_backend] in *.
  assert (Hle : (List.length (persistedRoutes added) <= List.length added)%nat).
  { clear. induction added as [|[r ok] l IH]; cbn; [lia|].
    destruct (req_body r); [destruct (ok && isRoutePost r)|]; cbn; lia. }
  split; [|split; [|split]].
  - rewrite Hs, persistedRoutes_app, length_app. lia.
  - rewrite Hn. cbn [Nat.add]. eapply Nat.le_trans; [exact Hle|].
    rewrite Hl. apply Nat.le_refl.
  - intros Hall. specialize (Hp Hall). rewrite Hs, persistedRoutes_app in Hp.
    apply app_inv_head in Hp. rewrite Hn, Hp, length_map. reflexivity.
  - intros Hnone. rewrite Hn, (Hf Hnone). reflexivity.
Qed.

(** X4.  Ending a session sends one request per path with two or more points
    and then, whatever became of those, exactly one [DELETE] of the
    session as the last request.  The toast [All paths have been saved as
    routes] and the move to the home page depend on the outcome of that
    [DELETE] alone; when it is rejected the view shows no toast and stays
    where it is. *)
Theorem end_request_is_sent_whatever_the_saves_did :
  forall (today : string) (v : View),
    let v' := deleteMutation today v in
    let n := List.length (archivable (memberPaths v)) in
    let ok := accepts (backend v) (List.length (served (backend v)) + n) in
    List.length (served (backend v')) =
      (List.length (served (backend v)) + n + 1)%nat
    /\ lastElement (served (backend v')) =
       Some ({| req_method := DELETE; req_url := sessionUrl v;
                req_body := None |}, ok)
    /\ (ok = true ->
        location v' = HOME /\
        toasts v' =
          toasts v ++
          [{| toast_title := "Session ended";
              toast_description := "All paths have been saved as routes" |}])
    /\ (ok = false -> location v' = location v /\ toasts v' = toasts v).
Proof.
  intros today v. unfold deleteMutation, saveSessionPathsAsRoutes, archivable.
  pose proof (savePathsLoop_log v today (JsMap.entries (memberPaths v)) 0
                (backend v)) as (added & Hs & Hl & _).
  pose proof (savePathsLoop_spec v today (JsMap.entries (memberPaths v)) 0
                (backend v)) as (Ha & _).
  destruct (savePathsLoop v today (JsMap.entries (memberPaths v)) 0
              (backend v)) as [n b]. cbn [fst snd] in *.
  unfold apiRequest. cbn [backend with_backend].
  change (sessionUrl (with_backend b v)) with (sessionUrl v).
  assert (Hlen : List.length (served b) =
                 (List.length (served (backend v)) +
                  List.length
                    (List.filter
                       (fun e : Z * Path => (2 <=? List.length (snd e))%nat)
                       (JsMap.entries (memberPaths v))))%nat).
  { rewrite Hs, length_app, Hl. reflexivity. }
  rewrite Ha, Hlen.
  set (ok := accepts (backend v) _).
  split; [|split; [|split]].
  - destruct ok;
      cbn [backend with_backend with_location with_toast served];
      rewrite length_app, Hlen; cbn [List.length]; reflexivity.
  - destruct ok;
      cbn [backend with_backend with_location with_toast served];
      apply lastElement_snoc.
  - intros ->. cbn. split; reflexivity.
  - intros ->. cbn. split; reflexivity.
Qed.

End Requests.

(** X5.  When the local user's path has two or more points and the backend
    rejects the request that saves it, [leaveMutation] stops there: the
    only request made is the rejected [POST /api/routes], no leave request
    is sent, no toast is shown and the page stays open. *)
Theorem leave_is_abandoned_when_own_path_is_rejected :
  forall (M : JsMath) (today : string) (v : View) (myPath : Path),
    JsMap.get (myId v) (memberPaths v) = Some myPath ->
    (2 <= List.length myPath)%nat ->
    accepts (backend v) (List.length (served (backend v))) = false ->
    let v' := leaveMutation today v in
    served (backend v') =
      served (backend v) ++
      [({| req_method := POST; req_url := "/api/routes";
           req_body :=
             Some (recordedRoute v today
                     (sessionTitle v ++ " - My Path")%string myPath) |},
        false)]
    /\ location v' = location v
    /\ toasts v' = toasts v.
Proof.
  intros M today v myPath Hget Hlen Hrej. unfold leaveMutation.
  rewrite Hget. destruct (Nat.leb_spec 2 (List.length myPath)); [|lia].
  unfold apiRequest. cbn. rewrite Hrej. cbn. repeat split.
Qed.

(** X5 for Bob leaving while the backend rejects everything. *)
Lemma leave_abandoned_witness :
  let rejecting := {| accepts := fun _ => false; served := [] |} in
  let v := with_backend rejecting Sample.memberView in
  (JsMap.get (myId v) (memberPaths v) = Some Sample.bobsPath /\
   (2 <= List.length Sample.bobsPath)%nat /\
   accepts (backend v) (List.length (served (backend v))) = false) /\
  List.map (fun r => (req_url (fst r), snd r))
    (served (backend (@leaveMutation Reference.math Sample.today v))) =
    [("/api/routes"%string, false)] /\
  location (@leaveMutation Reference.math Sample.today v) =
    "/live-map/5"%string.
Proof.
  intros rejecting v.
  assert (H1 : JsMap.get (myId v) (memberPaths v) = Some Sample.bobsPath)
    by reflexivity.
  assert (H2 : (2 <= List.length Sample.bobsPath)%nat) by (cbn; lia).
  assert (H3 : accepts (backend v) (List.length (served (backend v))) = false)
    by reflexivity.
  split; [auto|].
  destruct (@leave_is_abandoned_when_own_path_is_rejected Reference.math
              Sample.today v Sample.bobsPath H1 H2 H3) as (Hs & Hl & _).
  split; [rewrite Hs; reflexivity|rewrite Hl; reflexivity].
Defined.

(** X6.  With a backend that accepts every request, leaving posts the local
    user's own path (and no other member's) when it has two or more
    points, followed by the leave request; with a shorter or no own path
    the leave request is the only one.  In both cases the toast says that
    the path has been saved and the view moves to the home page. *)
Theorem leave_posts_only_the_own_path :
  forall (M : JsMath) (today : string) (v : View),
    (forall k, accepts (backend v) k = true) ->
    let v' := leaveMutation today v in
    let leaveRequest :=
      {| req_method := POST; req_url := (sessionUrl v ++ "/leave")%string;
         req_body := None |} in
    (forall myPath : Path,
        JsMap.get (myId v) (memberPaths v) = Some myPath ->
        (2 <= List.length myPath)%nat ->
        served (backend v') =
          served (backend v) ++
          [({| req_method := POST; req_url := "/api/routes";
               req_body :=
                 Some (recordedRoute v today
                         (sessionTitle v ++ " - My Path")%string myPath) |},
            true);
           (leaveRequest, true)])
    /\ ((List.length (pathOf (myId v) (memberPaths v)) < 2)%nat ->
        served (backend v') = served (backend v) ++ [(leaveRequest, true)])
    /\ location v' = HOME
    /\ toasts v' =
       toasts v ++
       [{| toast_title := "Left session";
           toast_description := "Your path has been saved as a route" |}].
Proof.
  intros M today v Hall. cbv zeta. unfold leaveMutation, apiRequest, pathOf.
  destruct (JsMap.get (myId v) (memberPaths v)) as [myPath|].
  - destruct (Nat.leb_spec 2 (List.length myPath)) as [Hlong|Hshort].
    + cbn. rewrite !Hall. cbn. split; [|split; [|split]]; try reflexivity.
      * intros p Hp _. injection Hp as <-.
        now rewrite <- app_assoc.
      * intros Hlt. lia.
    + cbn. rewrite !Hall. cbn. split; [|split; [|split]]; try reflexivity.
      intros p Hp Hp2. injection Hp as <-. lia.
  - cbn. rewrite !Hall. cbn. split; [|split; [|split]]; try reflexivity.
    intros p Hp. discriminate Hp.
Qed.

(** X6 for Bob leaving with his two-point path. *)
Lemma leave_posts_witness :
  (forall k, accepts (backend Sample.memberView) k = true) /\
  List.map (fun r => (req_url (fst r), snd r))
    (served (backend (@leaveMutation Reference.math Sample.today
                        Sample.memberView))) =
    [("/api/routes"%string, true); ("/api/live-maps/5/leave"%string, true)] /\
  location (@leaveMutation Reference.math Sample.today Sample.memberView) =
    HOME.
Proof.
  assert (H : forall k, accepts (backend Sample.memberView) k = true)
    by (intros k; reflexivity).
  split; [exact H|].
  destruct (@leave_posts_only_the_own_path Reference.math Sample.today
              Sample.memberView H) as (Hown & _ & Hhome & _).
  split; [|exact Hhome].
  rewrite (Hown Sample.bobsPath eq_refl (le_n 2)). reflexivity.
Defined.

(* ================================================================== *)
(** * Seeding and recovery *)

Lemma seedMember_other : forall now v member uid,
  userId member <> uid ->
  JsMap.get uid (memberMarkersRef (seedMember now v member)) =
    JsMap.get uid (memberMarkersRef v) /\
  JsMap.get uid (memberLastUpdateRef (seedMember now v member)) =
    JsMap.get uid (memberLastUpdateRef v).
Proof.
  intros now v member uid Hne. unfold seedMember.
  destruct (latitude member) as [lat|]; [|now split].
  destruct (longitude member) as [lng|]; [|now split].
  assert (H1 : JsMap.get uid (memberMarkersRef
                 (updateMemberMarker now (userId member) lat lng v)) =
               JsMap.get uid (memberMarkersRef v) /\
               JsMap.get uid (memberLastUpdateRef
                 (updateMemberMarker now (userId member) lat lng v)) =
               JsMap.get uid (memberLastUpdateRef v)).
  { destruct (updateMemberMarker_lookup now (userId member) lat lng v)
      as [[Hm Hl]|(_ & _ & _ & Hother)].
    - now rewrite Hm, Hl.
    - now apply Hother. }
  destruct (lastActive member) as [t|]; [|exact H1].
  destruct (negb (isLocalUser _ (userId member))); [|exact H1].
  cbn. rewrite get_set_other by exact Hne. exact H1.
Qed.

Lemma seedMembers_other : forall now ms v uid,
  ~ In uid (List.map userId ms) ->
  JsMap.get uid (memberMarkersRef (List.fold_left (seedMember now) ms v)) =
    JsMap.get uid (memberMarkersRef v) /\
  JsMap.get uid (memberLastUpdateRef (List.fold_left (seedMember now) ms v)) =
    JsMap.get uid (memberLastUpdateRef v).
Proof.
  intros now ms. induction ms as [|m ms IH]; intros v uid Hnin; simpl;
    [now split|].
  simpl in Hnin.
  destruct (IH (seedMember now v m) uid) as [H1 H2]; [tauto|].
  destruct (@seedMember_other now v m uid) as [H3 H4]; [tauto|].
  now rewrite H1, H2, H3, H4.
Qed.

Lemma seedMembers_guards : forall now ms v,
  mapCurrent (List.fold_left (seedMember now) ms v) = mapCurrent v /\
  session (List.fold_left (seedMember now) ms v) = session v /\
  user (List.fold_left (seedMember now) ms v) = user v.
Proof.
  intros now ms. induction ms as [|m ms IH]; intros v; simpl;
    [now repeat split|].
  destruct (IH (seedMember now v m)) as (H1 & H2 & H3).
  destruct (seedMember_guards now v m) as (H4 & H5 & H6).
  rewrite H1, H2, H3. now repeat split.
Qed.

(** X8.  Rendering the members of the session data stamps a member other than
    the local user with the server's [lastActive] rather than with the
    time of rendering (which is used only when [lastActive] is missing),
    and puts the marker at the member's coordinates with the indicator
    off; the next sweep therefore judges the member by [lastActive].  The
    member ids of the session are assumed distinct. *)
Theorem seeding_uses_the_servers_last_active :
  forall (now : Z) (v : View) (s : SessionData) (member : LiveMapMember)
         (lat lng : float),
    session v = Some s -> mapCurrent v = true ->
    NoDup (List.map userId (members s)) ->
    In member (members s) ->
    latitude member = Some lat -> longitude member = Some lng ->
    isLocalUser v (userId member) = false ->
    let v' := seedMemberMarkers now v in
    JsMap.get (userId member) (memberLastUpdateRef v') =
      Some (match lastActive member with Some t => t | None => now end)
    /\ (exists m : Marker,
          JsMap.get (userId member) (memberMarkersRef v') = Some m /\
          lngLat m = (lng, lat) /\ lostOverlayShown m = false)
    /\ (forall (later t : Z) (m' : Marker),
          lastActive member = Some t ->
          JsMap.wf (memberLastUpdateRef v) ->
          JsMap.get (userId member)
            (memberMarkersRef (checkSignalLost later v')) = Some m' ->
          lostOverlayShown m' = signalLost later t).
Proof.
  intros now v s member lat lng Hs Hmap Hnd Hin Hlat Hlng Hloc.
  cbv zeta. unfold seedMemberMarkers. rewrite Hs, Hmap.
  destruct (in_split _ _ Hin) as (l1 & l2 & Hsplit).
  rewrite Hsplit in Hnd |- *. rewrite map_app in Hnd. cbn [List.map] in Hnd.
  apply NoDup_remove_2 in Hnd.
  assert (Hn1 : ~ In (userId member) (List.map userId l1))
    by (intros H; apply Hnd, in_or_app; now left).
  assert (Hn2 : ~ In (userId member) (List.map userId l2))
    by (intros H; apply Hnd, in_or_app; now right).
  rewrite fold_left_app. cbn [List.fold_left].
  set (v1 := List.fold_left (seedMember now) l1 v).
  destruct (seedMembers_guards now l1 v) as (G1 & G2 & G3). fold v1 in G1, G2, G3.
  set (v2 := seedMember now v1 member).
  assert (Hv2 : JsMap.get (userId member) (memberLastUpdateRef v2) =
                  Some (match lastActive member with
                        | Some t => t | None => now end) /\
                exists m, JsMap.get (userId member) (memberMarkersRef v2)
                          = Some m /\
                          lngLat m = (lng, lat) /\ lostOverlayShown m = false).
  { subst v2. unfold seedMember. rewrite Hlat, Hlng.
    assert (Hloc1 : isLocalUser v1 (userId member) = false)
      by (now rewrite (isLocalUser_user v v1 (userId member) G3)).
    assert (Hupd : JsMap.get (userId member)
                     (memberLastUpdateRef
                        (updateMemberMarker now (userId member) lat lng v1))
                   = Some now /\
                   exists m, JsMap.get (userId member)
                               (memberMarkersRef
                                  (updateMemberMarker now (userId member)
                                     lat lng v1)) = Some m /\
                             lngLat m = (lng, lat) /\
                             lostOverlayShown m = false).
    { unfold updateMemberMarker. unfold membersLoaded.
      rewrite G1, G2, Hmap, Hs. cbn [negb orb].
      change (isLocalUser (with_memberPaths _ v1) (userId member))
        with (isLocalUser v1 (userId member)).
      rewrite Hloc1. cbn.
      destruct (JsMap.get (userId member) (memberMarkersRef v1)); cbn;
        rewrite !get_set_same; (split; [reflexivity|]);
        eexists; (split; [reflexivity|]); split; reflexivity. }
    destruct Hupd as [Hl Hm].
    pose proof (updateMemberMarker_props now (userId member) lat lng v1)
      as (_ & _ & Hu & _).
    destruct (lastActive member) as [t|]; [|split; assumption].
    rewrite (isLocalUser_user _ _ (userId member) Hu), Hloc1. cbn.
    rewrite get_set_same. split; [reflexivity|exact Hm]. }
  destruct (@seedMembers_other now l2 v2 _ Hn2) as [Hm2 Hl2].
  destruct Hv2 as [Hl Hm].
  split; [now rewrite Hl2|]. split; [now rewrite Hm2|].
  intros later t m' Hact Hwf Hget.
  set (v3 := List.fold_left (seedMember now) l2 v2) in *.
  assert (Hwf3 : JsMap.wf (memberLastUpdateRef v3)).
  { subst v3. apply lastUpdate_wf_seedMembers.
    apply (@lastUpdate_wf_seedMembers now [member] v1).
    now apply lastUpdate_wf_seedMembers. }
  rewrite (sweep_marker_after later v3 (userId member) Hwf3) in Hget.
  destruct Hm as (m & Hm & _ & Hov). rewrite Hm2, Hm in Hget.
  destruct (seedMembers_guards now l2 v2) as (_ & _ & G6).
  destruct (seedMember_guards now v1 member) as (_ & _ & G9).
  assert (Hloc3 : isLocalUser v3 (userId member) = false).
  { rewrite (isLocalUser_user v2 v3 (userId member) G6).
    rewrite (isLocalUser_user v1 v2 (userId member) G9).
    now rewrite (isLocalUser_user v v1 (userId member) G3). }
  rewrite Hloc3, Hl2, Hl, Hact in Hget.
  injection Hget as <-. destruct (signalLost later t);
    [reflexivity|exact Hov].
Qed.

(** X8 for a member last active long before the page is rendered. *)
Lemma seeding_witness :
  let carol :=
    {| userId := 3; latitude := Some 46.5%float; longitude := Some 7.25%float;
       lastActive := Some 5000%Z; member_username := "carol"%string;
       member_fullName := None |} in
  let s :=
    {| session_id := 5; ownerId := 1; session_name := "Ridge Walk"%string;
       isActive := true; members := [Sample.memberAlice; carol] |} in
  let v := with_session (Some s)
             (Sample.ownerView JsMap.empty Sample.alwaysOk) in
  let v' := seedMemberMarkers 900000 v in
  (session v = Some s /\ mapCurrent v = true /\
   NoDup (List.map userId (members s)) /\ In carol (members s) /\
   isLocalUser v (userId carol) = false) /\
  JsMap.get 3 (memberLastUpdateRef v') = Some 5000%Z /\
  option_map lostOverlayShown
    (JsMap.get 3 (memberMarkersRef (checkSignalLost 900000 v'))) = Some true.
Proof.
  intros carol s v v'.
  assert (H1 : session v = Some s) by reflexivity.
  assert (H2 : mapCurrent v = true) by reflexivity.
  assert (H3 : NoDup (List.map userId (members s))).
  { cbn. constructor; [cbn; intros [H|[]]; discriminate H|].
    constructor; [intros []|constructor]. }
  assert (H4 : In carol (members s)) by (right; left; reflexivity).
  assert (H5 : isLocalUser v (userId carol) = false) by reflexivity.
  split; [auto 6|].
  destruct (@seeding_uses_the_servers_last_active 900000 v s carol
              46.5%float 7.25%float H1 H2 H3 H4 eq_refl eq_refl H5)
    as (Hstamp & _ & _).
  split; [exact Hstamp|reflexivity].
Defined.

(** X9.  A location update from another member resets that member's marker
    whatever state it was in: it moves to the new position, pulses at full
    opacity, and the signal-lost overlay and label are hidden; the time
    stamp becomes the time of the update.  A sweep up to two minutes after
    the update leaves the marker like that, a later one marks it lost
    since the update. *)
Theorem location_update_clears_signal_lost :
  forall (now later uid : Z) (lat lng : float) (v : View),
    mapCurrent v = true -> membersLoaded v = true ->
    isLocalUser v uid = false ->
    JsMap.wf (memberLastUpdateRef v) ->
    let v1 := updateMemberMarker now uid lat lng v in
    let shown :=
      {| lngLat := (lng, lat); dotPulsing := true; dotDimmed := false;
         lostOverlayShown := false; lostLabelShown := false;
         lostLabelSince :=
           match JsMap.get uid (memberMarkersRef v) with
           | Some old => lostLabelSince old
           | None => None
           end |} in
    JsMap.get uid (memberMarkersRef v1) = Some shown
    /\ JsMap.get uid (memberLastUpdateRef v1) = Some now
    /\ ((later - now <= SIGNAL_LOST_THRESHOLD)%Z ->
        JsMap.get uid (memberMarkersRef (checkSignalLost later v1)) =
        Some shown)
    /\ ((SIGNAL_LOST_THRESHOLD < later - now)%Z ->
        JsMap.get uid (memberMarkersRef (checkSignalLost later v1)) =
        Some (markLost now shown)).
Proof.
  intros now later uid lat lng v Hmap Hmem Hloc Hwf. cbv zeta.
  assert (Hwf1 : JsMap.wf (memberLastUpdateRef
                             (updateMemberMarker now uid lat lng v)))
    by now apply lastUpdate_wf_updateMemberMarker.
  pose proof (updateMemberMarker_props now uid lat lng v) as (_ & _ & Hu & _).
  assert (Hm : JsMap.get uid (memberMarkersRef
                                (updateMemberMarker now uid lat lng v)) =
               Some {| lngLat := (lng, lat); dotPulsing := true;
                       dotDimmed := false; lostOverlayShown := false;
                       lostLabelShown := false;
                       lostLabelSince :=
                         match JsMap.get uid (memberMarkersRef v) with
                         | Some old => lostLabelSince old
                         | None => None
                         end |} /\
               JsMap.get uid (memberLastUpdateRef
                                (updateMemberMarker now uid lat lng v)) =
               Some now).
  { unfold updateMemberMarker. rewrite Hmap, Hmem. cbn [negb orb].
    change (isLocalUser (with_memberPaths _ v) uid) with (isLocalUser v uid).
    rewrite Hloc. cbn.
    destruct (JsMap.get uid (memberMarkersRef v)); cbn;
      rewrite !get_set_same; split; reflexivity. }
  destruct Hm as [Hm Hl].
  split; [exact Hm|]. split; [exact Hl|].
  rewrite (sweep_marker_after later _ uid Hwf1), Hm, Hl,
    (isLocalUser_user _ _ uid Hu), Hloc.
  unfold signalLost. split; intros Hle.
  - destruct (Z.ltb_spec SIGNAL_LOST_THRESHOLD (later - now)); [lia|].
    reflexivity.
  - destruct (Z.ltb_spec SIGNAL_LOST_THRESHOLD (later - now)); [|lia].
    reflexivity.
Qed.

(** X9 for member 2, lost at the sweep and heard again later. *)
Lemma update_clears_witness :
  let lost :=
    @run Reference.math (initialView (Some Sample.alice) 5 Sample.alwaysOk)
      [EvSessionData 0 Sample.ridgeWalk;
       EvMessage 1000 (MemberLocationUpdate 2 10 10);
       EvSweep 121001] in
  let v1 := updateMemberMarker 130000 2 10.5 10.25 lost in
  (mapCurrent lost = true /\ membersLoaded lost = true /\
   isLocalUser lost 2 = false /\ JsMap.wf (memberLastUpdateRef lost)) /\
  option_map lostOverlayShown (JsMap.get 2 (memberMarkersRef lost)) =
    Some true /\
  option_map lostOverlayShown (JsMap.get 2 (memberMarkersRef v1)) =
    Some false /\
  option_map lostOverlayShown
    (JsMap.get 2 (memberMarkersRef (checkSignalLost 250000 v1))) =
    Some false /\
  option_map lostOverlayShown
    (JsMap.get 2 (memberMarkersRef (checkSignalLost 250001 v1))) =
    Some true.
Proof.
  intros lost v1.
  assert (H1 : mapCurrent lost = true) by reflexivity.
  assert (H2 : membersLoaded lost = true) by reflexivity.
  assert (H3 : isLocalUser lost 2 = false) by reflexivity.
  assert (H4 : JsMap.wf (memberLastUpdateRef lost)).
  { cbn. constructor; [intros []|constructor]. }
  split; [auto|]. split; [reflexivity|].
  destruct (@location_update_clears_signal_lost 130000 250000 2
              10.5%float 10.25%float lost H1 H2 H3 H4) as (Hm & _ & Hlive & _).
  split; [unfold v1; rewrite Hm; reflexivity|].
  split; [unfold v1; rewrite Hlive; [reflexivity|cbn; lia]|].
  reflexivity.
Defined.

Lemma checkMember_keeps_lost : forall me now markers entry uid (m : Marker),
  JsMap.get uid markers = Some m ->
  lostOverlayShown m = true -> lostLabelShown m = true ->
  exists m', JsMap.get uid (checkMember me now markers entry) = Some m' /\
             lostOverlayShown m' = true /\ lostLabelShown m' = true /\
             lngLat m' = lngLat m.
Proof.
  intros me now markers [k t] uid m Hget Ho Hl. unfold checkMember.
  destruct (match me with Some id => Z.eqb k id | None => false end);
    [eauto|].
  destruct (JsMap.get k markers) as [mk|] eqn:Hk; [|eauto].
  destruct (Z.eq_dec k uid) as [->|Hne].
  - assert (mk = m) by congruence. subst mk.
    destruct (signalLost now t); rewrite get_set_same; eexists;
      (split; [reflexivity|]); cbn; auto.
  - destruct (signalLost now t); rewrite get_set_other by exact Hne; eauto.
Qed.

(** X10.  A sweep never takes a signal-lost indicator down: a marker whose
    overlay and label are shown still shows both after [checkSignalLost],
    at any clock reading, and is not moved.  (Only a location update hides
    them, see X9.) *)
Theorem sweep_never_takes_the_indicator_down :
  forall (now : Z) (v : View) (uid : Z) (m : Marker),
    JsMap.get uid (memberMarkersRef v) = Some m ->
    lostOverlayShown m = true -> lostLabelShown m = true ->
    exists m' : Marker,
      JsMap.get uid (memberMarkersRef (checkSignalLost now v)) = Some m' /\
      lostOverlayShown m' = true /\ lostLabelShown m' = true /\
      lngLat m' = lngLat m.
Proof.
  intros now v uid m. unfold checkSignalLost. cbn.
  generalize (JsMap.entries (memberLastUpdateRef v)).
  generalize (memberMarkersRef v). intros markers entries.
  revert markers m. induction entries as [|e rest IH];
    intros markers m Hget Ho Hl; simpl; [eauto|].
  destruct (checkMember_keeps_lost (option_map au_id (user v)) now markers e
              uid Hget Ho Hl) as (m1 & H1 & Ho1 & Hl1 & Hp1).
  destruct (IH _ m1 H1 Ho1 Hl1) as (m2 & H2 & Ho2 & Hl2 & Hp2).
  exists m2. repeat split; try assumption. congruence.
Qed.

(** X10 for member 2 and a sweep whose clock reads an earlier time. *)
Lemma sweep_keeps_witness :
  let lost :=
    @run Reference.math (initialView (Some Sample.alice) 5 Sample.alwaysOk)
      [EvSessionData 0 Sample.ridgeWalk;
       EvMessage 1000 (MemberLocationUpdate 2 10 10);
       EvSweep 121001] in
  let m := markLost 1000 (freshMarker 10 10) in
  (JsMap.get 2 (memberMarkersRef lost) = Some m /\
   lostOverlayShown m = true /\ lostLabelShown m = true) /\
  exists m' : Marker,
    JsMap.get 2 (memberMarkersRef (checkSignalLost 500 lost)) = Some m' /\
    lostOverlayShown m' = true /\ lostLabelShown m' = true /\
    lngLat m' = lngLat m.
Proof.
  intros lost m.
  assert (H1 : JsMap.get 2 (memberMarkersRef lost) = Some m) by reflexivity.
  split; [auto|].
  exact (@sweep_never_takes_the_indicator_down 500 lost 2 m H1
           eq_refl eq_refl).
Defined.

(* ================================================================== *)
(** * The connection controller along a run *)

Lemma Forall_updateAt : forall A (P : A -> Prop) (f : A -> A) i (l : list A),
  Forall P l ->
  (forall x, List.nth_error l i = Some x -> P x -> P (f x)) ->
  Forall P (updateAt i f l).
Proof.
  intros A P f i l. revert i.
  induction l as [|y l IH]; intros i Hall Hf;
    [destruct i; simpl; constructor|].
  inversion Hall as [|? ? Hy Hl]; subst.
  destruct i as [|i]; simpl.
  - constructor; [now apply Hf|exact Hl].
  - constructor; [exact Hy|]. apply IH; [exact Hl|].
    intros x Hx. now apply Hf.
Qed.

Lemma Forall_snoc : forall A (P : A -> Prop) (l : list A) (x : A),
  Forall P l -> P x -> Forall P (l ++ [x]).
Proof.
  intros A P l x Hl Hx. apply Forall_app. split; [exact Hl|].
  constructor; [exact Hx|constructor].
Qed.

Lemma updateAt_updateAt : forall A (f g : A -> A) i (l : list A),
  updateAt i f (updateAt i g l) = updateAt i (fun x => f (g x)) l.
Proof.
  intros A f g i l. revert i.
  induction l as [|y l IH]; intros [|i]; simpl; try reflexivity.
  now rewrite IH.
Qed.

Lemma reconnectDelay_steps : forall attempt : N,
  In (reconnectDelay attempt) [1000; 2000; 4000; 8000; 16000; 30000]%N.
Proof.
  intros a. unfold reconnectDelay.
  destruct (N.lt_ge_cases a 5) as [Hlt|Hge].
  - assert (H : (a = 0 \/ a = 1 \/ a = 2 \/ a = 3 \/ a = 4)%N) by lia.
    destruct H as [-> | [-> | [-> | [-> | ->]]]]; cbn; auto 10.
  - assert (H : (2 ^ 5 <= 2 ^ a)%N) by (apply N.pow_le_mono_r; lia).
    change (2 ^ 5)%N with 32%N in H.
    rewrite N.min_r by lia. cbn. auto 10.
Qed.

Lemma delaySeconds_steps : forall d : N,
  In d [1000; 2000; 4000; 8000; 16000; 30000]%N ->
  In (delaySeconds d) [1; 2; 4; 8; 16; 30]%N.
Proof.
  intros d H. cbn in H.
  destruct H as [<- | [<- | [<- | [<- | [<- | [<- | []]]]]]]; cbn; auto 10.
Qed.

Lemma onSchedule_updateAt : forall t l,
  Forall onSchedule l ->
  Forall onSchedule
    (updateAt t (fun tm => {| delay := delay tm; pending := false |}) l).
Proof.
  intros t l H. apply Forall_updateAt; [exact H|].
  intros x _ Hx. exact Hx.
Qed.

Lemma scheduleKept_same : forall c c',
  List.map delay (timers (backoff c')) = List.map delay (timers (backoff c)) ->
  notices (backoff c') = notices (backoff c) ->
  scheduleKept c -> scheduleKept c'.
Proof.
  intros c c' Ht Hn (H1 & H2 & H3). unfold scheduleKept.
  rewrite Hn. split; [|split; [exact H2|]].
  - unfold onSchedule in *. rewrite Forall_forall in *.
    intros t Hin. apply (in_map delay) in Hin. rewrite Ht in Hin.
    apply in_map_iff in Hin. destruct Hin as (t0 & Heq & Hin0). rewrite <- Heq.
    now apply H1.
  - rewrite H3, <- (length_map delay (timers (backoff c'))), Ht.
    now rewrite length_map.
Qed.

Lemma scheduleKept_step : forall c e,
  scheduleKept c -> scheduleKept (connStep c e).
Proof.
  intros c e Hk.
  destruct e as [| |s|s|s|t|w lat lng acc heading|vis|persisted|].
  - (* EffectsRun *)
    apply (@scheduleKept_same c); [| |exact Hk];
      cbn [connStep]; unfold locationEffect, wsEffect, connect, openSocket,
        watchPosition; break_matches; reflexivity.
  - (* EffectsCleanup *)
    apply (@scheduleKept_same c); [| |exact Hk];
      cbn [connStep]; unfold locationEffectCleanup, clearCurrentWatch,
        wsEffectCleanup; break_matches; cbn;
      rewrite ?map_delay_updateAt; reflexivity.
  - (* SocketOpened *)
    apply (@scheduleKept_same c); [| |exact Hk];
      cbn [connStep]; unfold onopen_connect, onopen_resume, updateSocket;
      break_matches; reflexivity.
  - (* SocketClosed *)
    cbn [connStep].
    destruct (socketAt c s) as [sock|]; [|exact Hk].
    destruct (readyState sock) eqn:Hrs; try exact Hk;
      (destruct (origin sock);
       [|apply (@scheduleKept_same c); [reflexivity|reflexivity|exact Hk]]);
      unfold onclose_connect; cbn [backoff updateSocket with_transport];
      (destruct (intentionalCloseRef (backoff c)); cbn [negb];
       [apply (@scheduleKept_same c); [reflexivity|reflexivity|exact Hk]|]);
      destruct Hk as (H1 & H2 & H3); unfold scheduleKept;
      cbn [backoff with_backoff timers notices];
      (split; [apply Forall_snoc; [exact H1|apply reconnectDelay_steps]|]);
      (split; [apply Forall_snoc;
               [exact H2|apply delaySeconds_steps, reconnectDelay_steps]|]);
      rewrite !length_app, H3; reflexivity.
  - (* SocketError *)
    exact Hk.
  - (* TimerFired *)
    apply (@scheduleKept_same c); [| |exact Hk];
      cbn [connStep]; unfold connect, openSocket; break_matches; cbn;
      rewrite ?map_delay_updateAt; reflexivity.
  - (* PositionFix *)
    apply (@scheduleKept_same c); [| |exact Hk];
      cbn [connStep]; break_matches; rewrite ?backoff_onPosition;
      reflexivity.
  - (* VisibilityChange *)
    apply (@scheduleKept_same c); [| |exact Hk];
      cbn [connStep]; unfold handleVisibilityChange; break_matches;
      reflexivity.
  - (* PageShow *)
    apply (@scheduleKept_same c); [| |exact Hk];
      cbn [connStep]; unfold handlePageShow; break_matches; reflexivity.
  - (* ResumeTimerFired *)
    apply (@scheduleKept_same c); [| |exact Hk];
      cbn [connStep]; unfold resumeTimerCallback; break_matches;
      rewrite ?backoff_handleLiveMapResume; reflexivity.
Qed.

(** X11.  Whatever happens to the connection controller, every reconnect timer
    it ever made has a delay of 1, 2, 4, 8, 16 or 30 seconds, every
    [Reconnecting...] notice announces one of these numbers of seconds,
    and there is one notice per timer. *)
Theorem every_reconnect_delay_is_a_backoff_step :
  forall (uid sid : option Z) (geo : bool) (events : list ConnEvent),
    let c := connRun (initialConn uid sid geo) events in
    Forall (fun t => In (delay t) [1000; 2000; 4000; 8000; 16000; 30000]%N)
      (timers (backoff c))
    /\ Forall (fun n => In n [1; 2; 4; 8; 16; 30]%N) (notices (backoff c))
    /\ List.length (notices (backoff c)) = List.length (timers (backoff c)).
Proof.
  intros uid sid geo events. cbv zeta.
  assert (H : forall c, scheduleKept c -> scheduleKept (connRun c events)).
  { unfold connRun. induction events as [|e es IH]; intros c Hc; simpl;
      [exact Hc|]. apply IH. now apply scheduleKept_step. }
  apply (H (initialConn uid sid geo)).
  unfold scheduleKept. cbn. repeat split; constructor.
Qed.

(* ================================================================== *)
(** * The order of messages on a socket *)

Lemma handshakeFirst_closing : forall uid sid sock r,
  (r = CLOSING \/ r = CLOSED) ->
  handshakeFirst uid sid sock ->
  handshakeFirst uid sid (setReadyState r sock).
Proof.
  intros uid sid sock r Hr H. unfold handshakeFirst in *.
  destruct Hr as [-> | ->]; cbn; destruct (readyState sock); auto.
Qed.

Lemma handshakeFirst_fresh : forall uid sid o,
  handshakeFirst uid sid {| origin := o; readyState := CONNECTING; sent := [] |}.
Proof. reflexivity. Qed.

Lemma handshakeKept_same : forall uid sid c c',
  conn_user c' = conn_user c -> conn_sessionId c' = conn_sessionId c ->
  sockets (transport c') = sockets (transport c) ->
  handshakeKept uid sid c -> handshakeKept uid sid c'.
Proof.
  intros uid sid c c' Hu Hs Hsock (H1 & H2 & H3). unfold handshakeKept.
  now rewrite Hu, Hs, Hsock.
Qed.

Lemma handshakeKept_open : forall uid sid c o,
  handshakeKept uid sid c -> handshakeKept uid sid (openSocket o c).
Proof.
  intros uid sid c o (H1 & H2 & H3). unfold handshakeKept, openSocket. cbn.
  split; [exact H1|]. split; [exact H2|].
  apply Forall_snoc; [exact H3|apply handshakeFirst_fresh].
Qed.

Lemma handshakeKept_clear : forall uid sid c,
  handshakeKept uid sid c -> handshakeKept uid sid (clearCurrentWatch c).
Proof.
  intros uid sid c H.
  unfold clearCurrentWatch. destruct (watchIdRef (gps c)); [|exact H].
  now apply (@handshakeKept_same uid sid c).
Qed.

Lemma handshakeKept_watch : forall uid sid c,
  handshakeKept uid sid c -> handshakeKept uid sid (watchPosition c).
Proof.
  intros uid sid c H. now apply (@handshakeKept_same uid sid c).
Qed.

Lemma handshakeKept_resume : forall uid sid c,
  handshakeKept uid sid c -> handshakeKept uid sid (handleLiveMapResume c).
Proof.
  intros uid sid c H. unfold handleLiveMapResume.
  set (c1 := if wsIsOpen c then c else openSocket ByResume c).
  assert (H1 : handshakeKept uid sid c1).
  { subst c1. destruct (wsIsOpen c); [exact H|now apply handshakeKept_open]. }
  pose proof (handshakeKept_clear H1) as H2.
  destruct (geolocation (clearCurrentWatch c1)); [|exact H2].
  now apply handshakeKept_watch.
Qed.

Lemma handshakeKept_onopen : forall uid sid c s sock,
  handshakeKept uid sid c ->
  socketAt c s = Some sock -> readyState sock = CONNECTING ->
  Forall (handshakeFirst uid sid)
    (updateAt s (pushSent (SessionJoin sid))
       (updateAt s (pushSent (Auth uid))
          (updateAt s (setReadyState OPEN) (sockets (transport c))))).
Proof.
  intros uid sid c s sock (H1 & H2 & H3) Hs Hr.
  rewrite !updateAt_updateAt. apply Forall_updateAt; [exact H3|].
  intros x Hx Hok. unfold socketAt in Hs. rewrite Hs in Hx.
  injection Hx as <-. unfold handshakeFirst in *. rewrite Hr in Hok.
  cbn. rewrite Hok. exists []. split; reflexivity.
Qed.

Lemma handshakeKept_step : forall uid sid c e,
  handshakeKept uid sid c -> handshakeKept uid sid (connStep c e).
Proof.
  intros uid sid c e Hk.
  destruct e as [| |s|s|s|t|w lat lng acc heading|vis|persisted|].
  - (* EffectsRun *)
    cbn [connStep].
    assert (H1 : handshakeKept uid sid (wsEffect c)).
    { unfold wsEffect. destruct (isActiveConn c); [|exact Hk].
      apply handshakeKept_open.
      now apply (@handshakeKept_same uid sid c). }
    apply (@handshakeKept_same uid sid (locationEffect (wsEffect c)));
      try reflexivity.
    unfold locationEffect. break_matches; exact H1.
  - (* EffectsCleanup *)
    cbn [connStep].
    destruct (isActiveConn c);
      [|now apply (@handshakeKept_same uid sid c)].
    apply (@handshakeKept_same uid sid
             (locationEffectCleanup (wsEffectCleanup c))); try reflexivity.
    apply handshakeKept_clear.
    destruct Hk as (H1 & H2 & H3). unfold wsEffectCleanup, handshakeKept.
    cbn [transport with_backoff wsRef].
    destruct (wsRef (transport c)); cbn; (split; [exact H1|]);
      (split; [exact H2|]); [|exact H3].
    apply Forall_updateAt; [exact H3|].
    intros x _ Hx. destruct (readyState x) eqn:Hr; try exact Hx;
      apply handshakeFirst_closing; auto.
  - (* SocketOpened *)
    cbn [connStep].
    destruct (socketAt c s) as [sock|] eqn:Hs; [|exact Hk].
    destruct (readyState sock) eqn:Hr; try exact Hk.
    pose proof (@handshakeKept_onopen uid sid c s sock Hk Hs Hr) as Hopen.
    destruct Hk as (H1 & H2 & H3).
    destruct (origin sock); unfold onopen_connect, onopen_resume;
      cbn [conn_user conn_sessionId with_backoff updateSocket with_transport];
      rewrite H1, H2; unfold handshakeKept, updateSocket; cbn;
      (split; [exact H1|]); (split; [exact H2|]); exact Hopen.
  - (* SocketClosed *)
    cbn [connStep].
    destruct (socketAt c s) as [sock|] eqn:Hs; [|exact Hk].
    assert (Hc : handshakeKept uid sid
                   (updateSocket s (setReadyState CLOSED) c)).
    { destruct Hk as (H1 & H2 & H3). unfold handshakeKept, updateSocket. cbn.
      split; [exact H1|]. split; [exact H2|].
      apply Forall_updateAt; [exact H3|].
      intros x _ Hx. apply handshakeFirst_closing; auto. }
    destruct (readyState sock); try exact Hk;
      (destruct (origin sock); [|exact Hc]);
      apply (@handshakeKept_same uid sid
               (updateSocket s (setReadyState CLOSED) c));
      try exact Hc; unfold onclose_connect; break_matches; reflexivity.
  - (* SocketError *)
    exact Hk.
  - (* TimerFired *)
    cbn [connStep].
    destruct (List.nth_error (timers (backoff c)) t) as [tm|]; [|exact Hk].
    destruct (pending tm); [|exact Hk].
    apply handshakeKept_open. now apply (@handshakeKept_same uid sid c).
  - (* PositionFix *)
    cbn [connStep].
    destruct (List.nth_error (watches (gps c)) w) as [[|]|]; try exact Hk.
    unfold onPosition. destruct (wsIsOpen c) eqn:Hopen; [|exact Hk].
    unfold wsIsOpen in Hopen.
    destruct (wsRef (transport c)) as [s|]; [|exact Hk].
    destruct (socketAt c s) as [sock|] eqn:Hs; [|discriminate].
    destruct (readyState sock) eqn:Hr; try discriminate.
    destruct Hk as (H1 & H2 & H3). unfold handshakeKept, updateSocket. cbn.
    split; [exact H1|]. split; [exact H2|].
    apply Forall_updateAt; [exact H3|].
    intros x Hx Hok. unfold socketAt in Hs. rewrite Hs in Hx.
    injection Hx as <-. unfold handshakeFirst in *. cbn. rewrite Hr in *.
    destruct Hok as (reports & Hsent & Hall).
    exists (reports ++ [SessionLocation lat lng acc heading]).
    rewrite Hsent. split; [reflexivity|].
    rewrite forallb_app, Hall. reflexivity.
  - (* VisibilityChange *)
    cbn [connStep]. unfold handleVisibilityChange.
    break_matches; exact Hk.
  - (* PageShow *)
    cbn [connStep]. unfold handlePageShow.
    break_matches; exact Hk.
  - (* ResumeTimerFired *)
    cbn [connStep]. destruct (resumeTimers c) as [|checked rest]; [exact Hk|].
    assert (H1 : handshakeKept uid sid (with_resumeTimers rest c))
      by now apply (@handshakeKept_same uid sid c).
    unfold resumeTimerCallback.
    destruct (negb checked || isActiveConn (with_resumeTimers rest c));
      [|exact H1].
    now apply handshakeKept_resume.
Qed.

Lemma handshakeKept_run : forall uid sid events c,
  handshakeKept uid sid c -> handshakeKept uid sid (connRun c events).
Proof.
  intros uid sid. unfold connRun.
  induction events as [|e es IH]; intros c Hc; simpl; [exact Hc|].
  apply IH. now apply handshakeKept_step.
Qed.

(** X12.  On every socket the controller ever opens, by [connect] or on resume,
    nothing is sent before the socket is open, the first two messages are
    [auth] for the user and [session:join] for the session, in this
    order, and every later message is a location report. *)
Theorem handshake_precedes_location_reports :
  forall (uid : Z) (sid : option Z) (geo : bool) (events : list ConnEvent)
         (s : nat) (sock : Socket),
    socketAt (connRun (initialConn (Some uid) sid geo) events) s = Some sock ->
    (sent sock = [] /\ readyState sock <> OPEN)
    \/ (exists reports : list ClientMessage,
          sent sock = Auth uid :: SessionJoin sid :: reports /\
          List.forallb isLocationReport reports = true /\
          readyState sock <> CONNECTING).
Proof.
  intros uid sid geo events s sock Hs.
  assert (H0 : handshakeKept uid sid (initialConn (Some uid) sid geo)).
  { unfold handshakeKept. cbn. repeat split; constructor. }
  destruct (@handshakeKept_run uid sid events _ H0) as (_ & _ & Hall).
  rewrite Forall_forall in Hall.
  unfold socketAt in Hs. apply nth_error_In in Hs.
  specialize (Hall sock Hs). unfold handshakeFirst in Hall.
  destruct (readyState sock) eqn:Hr.
  - left. split; [exact Hall|discriminate].
  - right. destruct Hall as (reports & H1 & H2). exists reports.
    repeat split; try assumption. discriminate.
  - destruct Hall as [Hall|(reports & H1 & H2)].
    + left. split; [exact Hall|discriminate].
    + right. exists reports. repeat split; try assumption. discriminate.
  - destruct Hall as [Hall|(reports & H1 & H2)].
    + left. split; [exact Hall|discriminate].
    + right. exists reports. repeat split; try assumption. discriminate.
Qed.

(** X12 on the first socket after one fix. *)
Lemma handshake_witness :
  let events := [EffectsRun; SocketOpened 0;
                 PositionFix 0 46.5 7.25 12 None] in
  let sock :=
    {| origin := ByConnect; readyState := OPEN;
       sent := [Auth 1; SessionJoin (Some 5%Z);
                SessionLocation 46.5 7.25 12 None] |} in
  socketAt (connRun (initialConn (Some 1%Z) (Some 5%Z) true) events) 0 =
    Some sock /\
  ((sent sock = [] /\ readyState sock <> OPEN)
   \/ (exists reports : list ClientMessage,
         sent sock = Auth 1 :: SessionJoin (Some 5%Z) :: reports /\
         List.forallb isLocationReport reports = true /\
         readyState sock <> CONNECTING)).
Proof.
  intros events sock.
  assert (H : socketAt (connRun (initialConn (Some 1%Z) (Some 5%Z) true)
                          events) 0 = Some sock) by reflexivity.
  split; [exact H|].
  exact (@handshake_precedes_location_reports 1 (Some 5%Z) true events 0
           sock H).
Defined.

(* ================================================================== *)
(** * Sockets opened on resume *)

Lemma map_origin_updateAt : forall (f : Socket -> Socket) i (l : list Socket),
  (forall x, origin (f x) = origin x) ->
  List.map origin (updateAt i f l) = List.map origin l.
Proof.
  intros f i l Hf. revert i.
  induction l as [|y l IH]; intros [|i]; simpl; try reflexivity.
  - now rewrite Hf.
  - now rewrite IH.
Qed.

Lemma origins_updateSocket : forall s f c,
  (forall x, origin (f x) = origin x) ->
  List.map origin (sockets (transport (updateSocket s f c))) =
  List.map origin (sockets (transport c)).
Proof.
  intros s f c Hf. unfold updateSocket. cbn. now apply map_origin_updateAt.
Qed.

Lemma origins_resume : forall c,
  exists extra,
    List.map origin (sockets (transport (handleLiveMapResume c))) =
    List.map origin (sockets (transport c)) ++ extra.
Proof.
  intros c. unfold handleLiveMapResume, clearCurrentWatch, watchPosition,
    openSocket.
  destruct (wsIsOpen c); break_matches; cbn;
    try (exists []; now rewrite app_nil_r);
    exists [ByResume]; now rewrite map_app.
Qed.

Lemma origins_step : forall c e,
  exists extra,
    List.map origin (sockets (transport (connStep c e))) =
    List.map origin (sockets (transport c)) ++ extra.
Proof.
  intros c e.
  assert (Hsame : forall c',
            List.map origin (sockets (transport c')) =
            List.map origin (sockets (transport c)) ->
            exists extra,
              List.map origin (sockets (transport c')) =
              List.map origin (sockets (transport c)) ++ extra).
  { intros c' ->. exists []. now rewrite app_nil_r. }
  destruct e as [| |s|s|s|t|w lat lng acc heading|vis|persisted|];
    cbn [connStep].
  - (* EffectsRun *)
    unfold locationEffect, wsEffect, connect, openSocket, watchPosition.
    break_matches; cbn; try (now apply Hsame);
      exists [ByConnect]; now rewrite map_app.
  - (* EffectsCleanup *)
    apply Hsame.
    unfold locationEffectCleanup, clearCurrentWatch, wsEffectCleanup.
    break_matches; cbn; try reflexivity;
      apply map_origin_updateAt; intros x; now destruct (readyState x).
  - (* SocketOpened *)
    apply Hsame. unfold onopen_connect, onopen_resume, with_backoff.
    break_matches;
      repeat (progress (cbn [transport]; rewrite ?origins_updateSocket));
      reflexivity.
  - (* SocketClosed *)
    apply Hsame. unfold onclose_connect, with_backoff.
    break_matches;
      repeat (progress (cbn [transport]; rewrite ?origins_updateSocket));
      reflexivity.
  - now apply Hsame.
  - (* TimerFired *)
    unfold connect, openSocket.
    break_matches; cbn; try (now apply Hsame);
      exists [ByConnect]; now rewrite map_app.
  - (* PositionFix *)
    apply Hsame. unfold onPosition.
    break_matches; rewrite ?origins_updateSocket; reflexivity.
  - apply Hsame. unfold handleVisibilityChange. break_matches; reflexivity.
  - apply Hsame. unfold handlePageShow. break_matches; reflexivity.
  - (* ResumeTimerFired *)
    unfold resumeTimerCallback.
    destruct (resumeTimers c) as [|checked rest]; [now apply Hsame|].
    destruct (negb checked || isActiveConn (with_resumeTimers rest c));
      [|now apply Hsame].
    apply (origins_resume (with_resumeTimers rest c)).
Qed.

Lemma origins_run : forall events c,
  exists extra,
    List.map origin (sockets (transport (connRun c events))) =
    List.map origin (sockets (transport c)) ++ extra.
Proof.
  unfold connRun. induction events as [|e es IH]; intros c; simpl.
  - exists []. now rewrite app_nil_r.
  - destruct (IH (connStep c e)) as [x2 H2].
    destruct (origins_step c e) as [x1 H1].
    exists (x1 ++ x2). now rewrite H2, H1, app_assoc.
Qed.

Lemma origin_kept : forall events c s sock,
  socketAt c s = Some sock ->
  exists sock', socketAt (connRun c events) s = Some sock' /\
                origin sock' = origin sock.
Proof.
  intros events c s sock Hs.
  destruct (origins_run events c) as [extra He].
  assert (Hn : List.nth_error
                 (List.map origin (sockets (transport (connRun c events)))) s
               = Some (origin sock)).
  { rewrite He. unfold socketAt in Hs.
    rewrite nth_error_app1
      by (rewrite length_map; apply nth_error_Some; congruence).
    now rewrite nth_error_map, Hs. }
  rewrite nth_error_map in Hn. unfold socketAt.
  destruct (List.nth_error (sockets (transport (connRun c events))) s)
    as [sock'|]; [|discriminate].
  exists sock'. split; [reflexivity|]. cbn in Hn. congruence.
Qed.

(** X13.  [handleLiveMapResume] leaves the sockets alone when the one in [wsRef]
    is open.  Otherwise it opens exactly one new socket and stores it in
    [wsRef] without closing the old one, and this socket carries no close
    handler: whenever it closes later, no reconnect timer is made, the
    attempt counter does not move and no socket is opened. *)
Theorem resume_socket_is_never_reconnected :
  forall (c : Conn),
    let c1 := handleLiveMapResume c in
    let s := List.length (sockets (transport c)) in
    (wsIsOpen c = true -> transport c1 = transport c)
    /\ (wsIsOpen c = false ->
        wsRef (transport c1) = Some s /\
        sockets (transport c1) =
          sockets (transport c) ++
          [{| origin := ByResume; readyState := CONNECTING; sent := [] |}] /\
        forall events : list ConnEvent,
          let c2 := connRun c1 events in
          backoff (connStep c2 (SocketClosed s)) = backoff c2 /\
          List.length (sockets (transport (connStep c2 (SocketClosed s)))) =
          List.length (sockets (transport c2))).
Proof.
  intros c. cbv zeta.
  assert (Ht : transport (handleLiveMapResume c) =
               transport (if wsIsOpen c then c else openSocket ByResume c)).
  { unfold handleLiveMapResume, clearCurrentWatch, watchPosition.
    break_matches; reflexivity. }
  split; intros Hopen; rewrite Hopen in Ht; [exact Ht|].
  rewrite Ht. unfold openSocket at 1 2. cbn [transport with_transport wsRef sockets].
  split; [reflexivity|]. split; [reflexivity|].
  intros events.
  assert (Hs : socketAt (handleLiveMapResume c)
                 (List.length (sockets (transport c))) =
               Some {| origin := ByResume; readyState := CONNECTING;
                       sent := [] |}).
  { unfold socketAt. rewrite Ht. cbn. apply nth_error_snoc. }
  destruct (origin_kept events _ _ Hs) as (sock' & Hs' & Ho). cbn in Ho.
  cbn [connStep]. rewrite Hs'.
  destruct (readyState sock'); try (split; reflexivity);
    rewrite Ho; unfold updateSocket; cbn; rewrite updateAt_length;
    split; reflexivity.
Qed.

(* ================================================================== *)
(** * Member colours *)

Lemma insertByUserId_perm : forall m l,
  Permutation (m :: l) (insertByUserId m l).
Proof.
  intros m l. induction l as [|x r IH]; simpl; [reflexivity|].
  destruct (userId m <=? userId x)%Z; [reflexivity|].
  rewrite perm_swap. now constructor.
Qed.

Lemma sortByUserId_perm : forall l, Permutation l (sortByUserId l).
Proof.
  induction l as [|x r IH]; simpl; [constructor|].
  rewrite <- insertByUserId_perm. now constructor.
Qed.

Lemma insertByUserId_sorted : forall m l,
  StronglySorted byUserId l -> StronglySorted byUserId (insertByUserId m l).
Proof.
  intros m l. induction l as [|x r IH]; intros Hs; simpl.
  - constructor; constructor.
  - inversion Hs as [|? ? Hr Hx]; subst.
    destruct (Z.leb_spec (userId m) (userId x)) as [Hle|Hgt].
    + constructor; [exact Hs|]. constructor; [exact Hle|].
      rewrite Forall_forall in *. intros y Hy. specialize (Hx y Hy).
      unfold byUserId in *. lia.
    + constructor; [now apply IH|].
      rewrite Forall_forall in *. intros y Hy.
      apply (Permutation_in _ (Permutation_sym (insertByUserId_perm m r)))
        in Hy.
      destruct Hy as [<-|Hy]; [unfold byUserId; lia|now apply Hx].
Qed.

Lemma sortByUserId_sorted : forall l, StronglySorted byUserId (sortByUserId l).
Proof.
  induction l as [|x r IH]; simpl; [constructor|].
  now apply insertByUserId_sorted.
Qed.

Lemma findIndex_range : forall A (p : A -> bool) (l : list A),
  (-1 <= findIndex p l < Z.of_nat (List.length l))%Z.
Proof.
  intros A p l. induction l as [|x r IH]; simpl List.length; cbn [findIndex].
  - lia.
  - destruct (p x); [lia|].
    destruct (Z.ltb_spec (findIndex p r) 0); lia.
Qed.

Lemma filter_none : forall A (p : A -> bool) (l : list A),
  (forall y, In y l -> p y = false) -> List.filter p l = [].
Proof.
  intros A p l. induction l as [|x r IH]; intros H; [reflexivity|].
  simpl. rewrite (H x) by now left. apply IH. intros y Hy. apply H. now right.
Qed.

Lemma findIndex_sorted : forall uid l,
  StronglySorted byUserId l ->
  findIndex (fun m => Z.eqb (userId m) uid) l =
  if List.existsb (fun m => Z.eqb (userId m) uid) l
  then Z.of_nat (rankAmong uid l) else (-1)%Z.
Proof.
  intros uid l. unfold rankAmong.
  induction l as [|x r IH]; intros Hs; [reflexivity|].
  inversion Hs as [|? ? Hr Hx]; subst. specialize (IH Hr).
  cbn [findIndex List.existsb List.filter].
  destruct (Z.eqb_spec (userId x) uid) as [Heq|Hne]; cbn [orb].
  - destruct (Z.ltb_spec (userId x) uid); [lia|].
    assert (Hnone : List.filter (fun m => (userId m <? uid)%Z) r = []).
    { apply filter_none.
      intros y Hy. rewrite Forall_forall in Hx. specialize (Hx y Hy).
      unfold byUserId in Hx. apply Z.ltb_ge. lia. }
    now rewrite Hnone.
  - rewrite IH.
    destruct (List.existsb (fun m => Z.eqb (userId m) uid) r) eqn:Hex.
    + apply existsb_exists in Hex. destruct Hex as (y & Hy & Hyu).
      apply Z.eqb_eq in Hyu.
      rewrite Forall_forall in Hx. specialize (Hx y Hy).
      unfold byUserId in Hx.
      destruct (Z.ltb_spec (userId x) uid); [|lia].
      cbn [List.length].
      destruct (Z.ltb_spec
                  (Z.of_nat (List.length
                     (List.filter (fun m => (userId m <? uid)%Z) r))) 0);
        lia.
    + reflexivity.
Qed.

Lemma filter_perm : forall A (p : A -> bool) (l l' : list A),
  Permutation l l' -> Permutation (List.filter p l) (List.filter p l').
Proof.
  intros A p l l' H. induction H as [|x l l' H IH|x y l|l l' l'' H1 IH1 H2 IH2];
    simpl.
  - constructor.
  - destruct (p x); [now constructor|exact IH].
  - destruct (p x), (p y); try reflexivity. apply perm_swap.
  - now transitivity (List.filter p l').
Qed.

Lemma rankAmong_perm : forall uid l l',
  Permutation l l' -> rankAmong uid l = rankAmong uid l'.
Proof.
  intros uid l l' H. unfold rankAmong.
  apply Permutation_length. now apply filter_perm.
Qed.

Lemma existsb_perm : forall A (p : A -> bool) (l l' : list A),
  Permutation l l' -> List.existsb p l = List.existsb p l'.
Proof.
  intros A p l l' H.
  destruct (List.existsb p l) eqn:H1, (List.existsb p l') eqn:H2;
    try reflexivity.
  - apply existsb_exists in H1. destruct H1 as (x & Hx & Hp).
    assert (H3 : List.existsb p l' = true).
    { apply existsb_exists. exists x. split; [|exact Hp].
      now apply (Permutation_in _ H). }
    congruence.
  - apply existsb_exists in H2. destruct H2 as (x & Hx & Hp).
    assert (H3 : List.existsb p l = true).
    { apply existsb_exists. exists x. split; [|exact Hp].
      now apply (Permutation_in _ (Permutation_sym H)). }
    congruence.
Qed.

(** The index [getMemberColor] looks up for a user other than the current
    one. *)
Lemma getMemberColor_index : forall uid members cur,
  isCurrentUser cur uid = false ->
  getMemberColor uid members cur =
  elementAt MEMBER_COLORS
    (Z.rem (if List.existsb (fun m => Z.eqb (userId m) uid)
                 (otherMembersOf members cur)
            then Z.of_nat (rankAmong uid (otherMembersOf members cur))
            else (-1)%Z) 9 + 1).
Proof.
  intros uid members cur Hcur. unfold getMemberColor. rewrite Hcur.
  fold (otherMembersOf members cur).
  rewrite findIndex_sorted by apply sortByUserId_sorted.
  rewrite <- (existsb_perm _ (sortByUserId_perm (otherMembersOf members cur))).
  rewrite <- (rankAmong_perm uid (sortByUserId_perm (otherMembersOf members cur))).
  reflexivity.
Qed.

Lemma listed_other : forall uid members cur,
  isCurrentUser cur uid = false ->
  List.existsb (fun m => Z.eqb (userId m) uid) (otherMembersOf members cur) =
  List.existsb (fun m => Z.eqb (userId m) uid) members.
Proof.
  intros uid members cur Hcur. unfold otherMembersOf.
  induction members as [|x r IH]; [reflexivity|].
  cbn [List.filter List.existsb].
  destruct (isCurrentUser cur (userId x)) eqn:Hx; cbn [negb List.existsb].
  - destruct (Z.eqb_spec (userId x) uid) as [Heq|Hne]; [congruence|].
    exact IH.
  - now rewrite IH.
Qed.

Lemma existsb_userId : forall uid members,
  List.existsb (fun m => Z.eqb (userId m) uid) members = true <->
  In uid (List.map userId members).
Proof.
  intros uid members. rewrite existsb_exists, in_map_iff. split.
  - intros (m & Hm & He). apply Z.eqb_eq in He. eauto.
  - intros (m & He & Hm). exists m. split; [exact Hm|]. now apply Z.eqb_eq.
Qed.

Lemma elementAt_palette : forall k : Z,
  (0 <= k < 10)%Z ->
  exists c, elementAt MEMBER_COLORS k = Some c /\ In c MEMBER_COLORS.
Proof.
  intros k Hk. unfold elementAt.
  destruct (Z.ltb_spec k 0); [lia|].
  destruct (List.nth_error MEMBER_COLORS (Z.to_nat k)) as [c|] eqn:Hc.
  - exists c. split; [reflexivity|]. now apply nth_error_In in Hc.
  - apply nth_error_None in Hc. cbn in Hc. lia.
Qed.

Lemma elementAt_injective : forall j k : Z,
  (0 <= j < 10)%Z -> (0 <= k < 10)%Z ->
  elementAt MEMBER_COLORS j = elementAt MEMBER_COLORS k -> j = k.
Proof.
  intros j k Hj Hk. unfold elementAt.
  destruct (Z.ltb_spec j 0); [lia|]. destruct (Z.ltb_spec k 0); [lia|].
  intros Heq.
  assert (Hnd : NoDup MEMBER_COLORS).
  { unfold MEMBER_COLORS.
    repeat (constructor; [cbn; intuition discriminate|]). constructor. }
  assert (Z.to_nat j = Z.to_nat k).
  { apply (proj1 (NoDup_nth_error MEMBER_COLORS) Hnd); [cbn; lia|exact Heq]. }
  lia.
Qed.

Lemma rankAmong_bound : forall uid l,
  List.existsb (fun m => Z.eqb (userId m) uid) l = true ->
  (rankAmong uid l < List.length l)%nat.
Proof.
  intros uid l. unfold rankAmong. induction l as [|x r IH]; simpl;
    [discriminate|].
  destruct (Z.eqb_spec (userId x) uid) as [Heq|Hne]; cbn [orb].
  - intros _. destruct (Z.ltb_spec (userId x) uid); [lia|].
    pose proof (filter_length_le (fun m => (userId m <? uid)%Z) r). lia.
  - intros H. specialize (IH H).
    destruct (userId x <? uid)%Z; cbn [List.length]; lia.
Qed.

(** X14.  [getMemberColor] never returns [undefined]: for every user id, member
    list and current user the result is one of the ten colours of
    [MEMBER_COLORS], and it is the first of them (blue) for the current
    user. *)
Theorem member_colour_is_always_in_the_palette :
  forall (uid : Z) (members : list LiveMapMember) (currentUserId : option Z),
    (exists c : string,
        getMemberColor uid members currentUserId = Some c /\
        In c MEMBER_COLORS)
    /\ (isCurrentUser currentUserId uid = true ->
        getMemberColor uid members currentUserId = Some "#3b82f6"%string).
Proof.
  intros uid members cur. split.
  - destruct (isCurrentUser cur uid) eqn:Hcur.
    + unfold getMemberColor. rewrite Hcur. apply elementAt_palette. lia.
    + rewrite getMemberColor_index by exact Hcur. apply elementAt_palette.
      destruct (List.existsb _ _); [|cbn; lia].
      pose proof (Z.rem_bound_pos
                    (Z.of_nat (rankAmong uid (otherMembersOf members cur))) 9).
      lia.
  - intros Hcur. unfold getMemberColor. now rewrite Hcur.
Qed.

(** X15.  For a user other than the current one, the colour is decided by the
    number of other listed members with a smaller id: a listed user gets
    entry [(rank mod 9) + 1] of the palette and so never the blue of the
    current user, while a user who is not in the member list (the creator
    of a route who has left, say) gets that blue. *)
Theorem member_colour_follows_rank :
  forall (uid : Z) (members : list LiveMapMember) (currentUserId : option Z),
    isCurrentUser currentUserId uid = false ->
    (In uid (List.map userId members) ->
     getMemberColor uid members currentUserId =
       elementAt MEMBER_COLORS
         (Z.of_nat
            (rankAmong uid (otherMembersOf members currentUserId) mod 9) + 1)
     /\ getMemberColor uid members currentUserId <> Some "#3b82f6"%string)
    /\ (~ In uid (List.map userId members) ->
        getMemberColor uid members currentUserId = Some "#3b82f6"%string).
Proof.
  intros uid members cur Hcur.
  rewrite getMemberColor_index by exact Hcur.
  rewrite listed_other by exact Hcur. split.
  - intros Hin. apply existsb_userId in Hin. rewrite Hin.
    assert (Hrem : Z.rem (Z.of_nat (rankAmong uid (otherMembersOf members cur)))
                     9 =
                   Z.of_nat (rankAmong uid (otherMembersOf members cur) mod 9)).
    { rewrite Z.rem_mod_nonneg by lia.
      now rewrite (Nat2Z.inj_mod _ 9). }
    rewrite Hrem. split; [reflexivity|].
    change (Some "#3b82f6"%string) with (elementAt MEMBER_COLORS 0).
    intros Heq. apply elementAt_injective in Heq; [lia| |lia].
    pose proof (Nat.mod_upper_bound
                  (rankAmong uid (otherMembersOf members cur)) 9).
    lia.
  - intros Hnin.
    destruct (List.existsb (fun m => Z.eqb (userId m) uid) members) eqn:Hex;
      [apply existsb_userId in Hex; contradiction|].
    reflexivity.
Qed.

(** X15 for users 2, 3 and the unlisted 7 seen by user 1. *)
Lemma colour_rank_witness :
  let carol :=
    {| userId := 3; latitude := None; longitude := None; lastActive := None;
       member_username := "carol"%string; member_fullName := None |} in
  let members := [carol; Sample.memberAlice; Sample.memberBob] in
  isCurrentUser (Some 1%Z) 3 = false /\
  getMemberColor 2 members (Some 1%Z) = Some "#10b981"%string /\
  getMemberColor 3 members (Some 1%Z) = Some "#f59e0b"%string /\
  getMemberColor 3 members (Some 1%Z) <> Some "#3b82f6"%string /\
  getMemberColor 7 members (Some 1%Z) = Some "#3b82f6"%string.
Proof.
  intros carol members.
  assert (H : isCurrentUser (Some 1%Z) 3 = false) by reflexivity.
  split; [exact H|].
  destruct (@member_colour_follows_rank 3 members (Some 1%Z) H)
    as [Hlisted _].
  destruct Hlisted as [_ Hnot]; [left; reflexivity|].
  repeat split; try reflexivity. exact Hnot.
Defined.

(** X16.  The colour of a user does not depend on the order in which the
    server lists the members. *)
Theorem member_colour_ignores_listing_order :
  forall (uid : Z) (members members' : list LiveMapMember)
         (currentUserId : option Z),
    Permutation members members' ->
    getMemberColor uid members currentUserId =
    getMemberColor uid members' currentUserId.
Proof.
  intros uid members members' cur Hperm.
  destruct (isCurrentUser cur uid) eqn:Hcur.
  - unfold getMemberColor. now rewrite Hcur.
  - rewrite !getMemberColor_index by exact Hcur.
    assert (Hp : Permutation (otherMembersOf members cur)
                   (otherMembersOf members' cur))
      by now apply filter_perm.
    now rewrite (existsb_perm _ Hp), (rankAmong_perm uid Hp).
Qed.

(** X16 for two members listed either way round. *)
Lemma colour_order_witness :
  Permutation [Sample.memberAlice; Sample.memberBob]
              [Sample.memberBob; Sample.memberAlice] /\
  getMemberColor 2 [Sample.memberAlice; Sample.memberBob] None =
  getMemberColor 2 [Sample.memberBob; Sample.memberAlice] None /\
  getMemberColor 2 [Sample.memberBob; Sample.memberAlice] None =
    Some "#f59e0b"%string.
Proof.
  assert (H : Permutation [Sample.memberAlice; Sample.memberBob]
                          [Sample.memberBob; Sample.memberAlice])
    by apply perm_swap.
  split; [exact H|]. split; [|reflexivity].
  exact (@member_colour_ignores_listing_order 2 _ _ None H).
Defined.

Lemma rankAmong_lt : forall uid1 uid2 l,
  (uid1 < uid2)%Z ->
  List.existsb (fun m => Z.eqb (userId m) uid1) l = true ->
  (rankAmong uid1 l < rankAmong uid2 l)%nat.
Proof.
  intros uid1 uid2 l Hlt. unfold rankAmong.
  assert (Hle : forall r,
            (List.length (List.filter (fun m => (userId m <? uid1)%Z) r) <=
             List.length (List.filter (fun m => (userId m <? uid2)%Z) r))%nat).
  { induction r as [|x r IH]; simpl; [lia|].
    destruct (Z.ltb_spec (userId x) uid1), (Z.ltb_spec (userId x) uid2);
      cbn [List.length]; lia. }
  induction l as [|x r IH]; simpl; [discriminate|].
  destruct (Z.eqb_spec (userId x) uid1) as [Heq|Hne]; cbn [orb].
  - intros _. specialize (Hle r).
    destruct (Z.ltb_spec (userId x) uid1), (Z.ltb_spec (userId x) uid2);
      cbn [List.length]; lia.
  - intros H. specialize (IH H).
    destruct (Z.ltb_spec (userId x) uid1), (Z.ltb_spec (userId x) uid2);
      cbn [List.length]; lia.
Qed.

(** X17.  While the session has at most nine members besides the current user,
    two listed users with different ids, neither of them the current
    user, get different colours. *)
Theorem up_to_nine_others_get_distinct_colours :
  forall (uid1 uid2 : Z) (members : list LiveMapMember)
         (currentUserId : option Z),
    (List.length (otherMembersOf members currentUserId) <= 9)%nat ->
    isCurrentUser currentUserId uid1 = false ->
    isCurrentUser currentUserId uid2 = false ->
    In uid1 (List.map userId members) ->
    In uid2 (List.map userId members) ->
    uid1 <> uid2 ->
    getMemberColor uid1 members currentUserId <>
    getMemberColor uid2 members currentUserId.
Proof.
  intros uid1 uid2 members cur Hlen Hc1 Hc2 Hin1 Hin2 Hne.
  rewrite !getMemberColor_index by assumption.
  apply existsb_userId in Hin1, Hin2.
  rewrite <- (@listed_other uid1 members cur Hc1) in Hin1.
  rewrite <- (@listed_other uid2 members cur Hc2) in Hin2.
  rewrite Hin1, Hin2.
  pose proof (@rankAmong_bound uid1 _ Hin1) as Hb1.
  pose proof (@rankAmong_bound uid2 _ Hin2) as Hb2.
  rewrite !Z.rem_small by lia.
  intros Heq. apply elementAt_injective in Heq; try lia.
  destruct (Z.lt_total uid1 uid2) as [Hlt|[Heq'|Hgt]]; [|contradiction|].
  - pose proof (@rankAmong_lt uid1 uid2 _ Hlt Hin1). lia.
  - pose proof (@rankAmong_lt uid2 uid1 _ Hgt Hin2). lia.
Qed.

(** X17 for users 2 and 3 seen by user 1. *)
Lemma distinct_colours_witness :
  let members := [Sample.memberAlice; Sample.memberBob;
                  {| userId := 3; latitude := None; longitude := None;
                     lastActive := None; member_username := "carol"%string;
                     member_fullName := None |}] in
  ((List.length (otherMembersOf members (Some 1%Z)) <= 9)%nat /\
   isCurrentUser (Some 1%Z) 2 = false /\ isCurrentUser (Some 1%Z) 3 = false /\
   In 2%Z (List.map userId members) /\ In 3%Z (List.map userId members) /\
   2%Z <> 3%Z) /\
  getMemberColor 2 members (Some 1%Z) <> getMemberColor 3 members (Some 1%Z).
Proof.
  intros members.
  assert (H1 : (List.length (otherMembersOf members (Some 1%Z)) <= 9)%nat)
    by (cbn; lia).
  assert (H2 : In 2%Z (List.map userId members)) by (right; left; reflexivity).
  assert (H3 : In 3%Z (List.map userId members))
    by (right; right; left; reflexivity).
  assert (H4 : 2%Z <> 3%Z) by discriminate.
  split; [auto 8|].
  exact (@up_to_nine_others_get_distinct_colours 2 3 members (Some 1%Z)
           H1 eq_refl eq_refl H2 H3 H4).
Defined.

(* ================================================================== *)
(** * Waypoint markers *)

Lemma get_delete_same : forall V (k : Z) (m : JsMap.t V),
  JsMap.get k (JsMap_delete k m) = None.
Proof.
  intros V k m. unfold JsMap_delete.
  induction m as [|[k' v] r IH]; simpl; [reflexivity|].
  destruct (Z.eqb_spec k' k) as [->|Hne]; cbn [negb]; [exact IH|].
  simpl. destruct (Z.eqb_spec k k'); [congruence|exact IH].
Qed.

Lemma get_delete_other : forall V (k k' : Z) (m : JsMap.t V),
  k <> k' -> JsMap.get k' (JsMap_delete k m) = JsMap.get k' m.
Proof.
  intros V k k' m Hne. unfold JsMap_delete.
  induction m as [|[k0 v] r IH]; simpl; [reflexivity|].
  destruct (Z.eqb_spec k0 k) as [->|Hne0]; cbn [negb].
  - destruct (Z.eqb_spec k' k); [congruence|exact IH].
  - simpl. now rewrite IH.
Qed.

Lemma find_poi : forall pois id,
  find_first (fun p => Z.eqb (poi_id p) id) pois = None <->
  ~ In id (List.map poi_id pois).
Proof.
  intros pois id. unfold find_first.
  induction pois as [|p r IH]; simpl; [tauto|].
  destruct (Z.eqb_spec (poi_id p) id) as [Heq|Hne].
  - split; [discriminate|]. intros H. exfalso. apply H. now left.
  - rewrite IH. tauto.
Qed.

Lemma removeStale_get : forall pois entries markers id,
  JsMap.get id (List.fold_left (removeStalePoiMarker pois) entries markers) =
  if List.existsb (Z.eqb id) (List.map fst entries)
     && negb (List.existsb (fun p => Z.eqb (poi_id p) id) pois)
  then None else JsMap.get id markers.
Proof.
  intros pois entries. induction entries as [|[k pt] rest IH];
    intros markers id; simpl; [reflexivity|].
  rewrite IH. unfold removeStalePoiMarker. cbn [fst].
  destruct (find_first (fun p => Z.eqb (poi_id p) k) pois) as [p|] eqn:Hf.
  - destruct (Z.eqb_spec id k) as [->|Hne]; cbn [orb]; [|reflexivity].
    assert (Hex : List.existsb (fun p => Z.eqb (poi_id p) k) pois = true).
    { apply existsb_exists. unfold find_first in Hf.
      apply find_some in Hf. now exists p. }
    rewrite Hex. cbn. now rewrite andb_false_r.
  - destruct (Z.eqb_spec id k) as [->|Hne]; cbn [orb].
    + assert (Hex : List.existsb (fun p => Z.eqb (poi_id p) k) pois = false).
      { destruct (List.existsb _ pois) eqn:Hex; [|reflexivity].
        apply existsb_exists in Hex. destruct Hex as (q & Hq & Hqk).
        unfold find_first in Hf.
        pose proof (find_none _ _ Hf q Hq) as Hn. cbn in Hn. congruence. }
      rewrite Hex. cbn. rewrite get_delete_same.
      now destruct (List.existsb (Z.eqb k) (List.map fst rest)).
    + rewrite get_delete_other by congruence. reflexivity.
Qed.

Lemma addPoi_get : forall pois markers id,
  JsMap.get id (List.fold_left addPoiMarker pois markers) =
  match JsMap.get id markers with
  | Some pt => Some pt
  | None =>
      option_map (fun p => (poi_longitude p, poi_latitude p))
        (find_first (fun p => Z.eqb (poi_id p) id) pois)
  end.
Proof.
  intros pois. induction pois as [|p rest IH]; intros markers id; simpl.
  - now destruct (JsMap.get id markers).
  - rewrite IH. unfold addPoiMarker, JsMap.has.
    destruct (Z.eqb_spec (poi_id p) id) as [Heq|Hne].
    + rewrite Heq.
      destruct (JsMap.get id markers) as [pt|] eqn:Hg.
      * now rewrite Hg.
      * now rewrite get_set_same.
    + destruct (JsMap.get (poi_id p) markers) as [pt|] eqn:Hg;
        [reflexivity|].
      now rewrite get_set_other by exact Hne.
Qed.

Lemma get_in_keys : forall V (k : Z) (m : JsMap.t V),
  List.existsb (Z.eqb k) (List.map fst (JsMap.entries m)) =
  JsMap.has k m.
Proof.
  intros V k m. unfold JsMap.has, JsMap.entries.
  induction m as [|[k' v] r IH]; simpl; [reflexivity|].
  destruct (Z.eqb k k'); [reflexivity|exact IH].
Qed.

Lemma wf_delete : forall V (k : Z) (m : JsMap.t V),
  JsMap.wf m -> JsMap.wf (JsMap_delete k m).
Proof.
  intros V k m. unfold JsMap.wf, JsMap.keys, JsMap_delete.
  induction m as [|[k0 v] r IH]; intros Hwf; simpl; [constructor|].
  inversion Hwf as [|? ? Hnin Hnd]; subst.
  destruct (negb (Z.eqb k0 k)); [|now apply IH].
  simpl. constructor; [|now apply IH].
  intros Hin. apply Hnin. apply in_map_iff in Hin.
  destruct Hin as (x & Hx & Hxin). apply filter_In in Hxin.
  apply in_map_iff. exists x. tauto.
Qed.

Lemma removeStale_wf : forall pois entries markers,
  JsMap.wf markers ->
  JsMap.wf (List.fold_left (removeStalePoiMarker pois) entries markers).
Proof.
  intros pois entries. induction entries as [|e rest IH];
    intros markers Hwf; simpl; [exact Hwf|].
  apply IH. unfold removeStalePoiMarker.
  destruct (find_first _ pois); [exact Hwf|now apply wf_delete].
Qed.

Lemma addPoi_wf : forall pois markers,
  JsMap.wf markers -> JsMap.wf (List.fold_left addPoiMarker pois markers).
Proof.
  intros pois. induction pois as [|p rest IH]; intros m Hm; simpl;
    [exact Hm|].
  apply IH. unfold addPoiMarker.
  destruct (JsMap.has (poi_id p) m); [exact Hm|now apply wf_set].
Qed.

Lemma poi_listed : forall pois id,
  List.existsb (fun p => Z.eqb (poi_id p) id) pois = true <->
  In id (List.map poi_id pois).
Proof.
  intros pois id. rewrite existsb_exists, in_map_iff. split.
  - intros (p & Hp & He). apply Z.eqb_eq in He. eauto.
  - intros (p & He & Hp). exists p. split; [exact Hp|]. now apply Z.eqb_eq.
Qed.

(** The marker of a waypoint id after the effect has run. *)
Lemma poiMarkersEffect_get : forall pois markers id,
  JsMap.get id (poiMarkersEffect (Some pois) true markers) =
  match JsMap.get id markers with
  | Some pt =>
      if List.existsb (fun p => Z.eqb (poi_id p) id) pois
      then Some pt else None
  | None =>
      option_map (fun p => (poi_longitude p, poi_latitude p))
        (find_first (fun p => Z.eqb (poi_id p) id) pois)
  end.
Proof.
  intros pois markers id. unfold poiMarkersEffect.
  rewrite addPoi_get, removeStale_get, get_in_keys. unfold JsMap.has.
  destruct (JsMap.get id markers) as [pt|] eqn:Hg; cbn [andb].
  - destruct (List.existsb (fun p => Z.eqb (poi_id p) id) pois) eqn:Hex;
      cbn [negb]; [reflexivity|].
    destruct (find_first _ pois) as [q|] eqn:Hf; [|reflexivity].
    unfold find_first in Hf. apply find_some in Hf.
    assert (List.existsb (fun p => Z.eqb (poi_id p) id) pois = true)
      by (apply existsb_exists; now exists q).
    congruence.
  - reflexivity.
Qed.

Lemma poiMarkersEffect_has : forall pois markers id,
  JsMap.has id (poiMarkersEffect (Some pois) true markers) = true <->
  In id (List.map poi_id pois).
Proof.
  intros pois markers id. unfold JsMap.has. rewrite poiMarkersEffect_get.
  destruct (JsMap.get id markers) as [pt|].
  - destruct (List.existsb _ pois) eqn:Hex.
    + split; [intros _; now apply poi_listed|reflexivity].
    + split; [discriminate|]. intros Hin. apply poi_listed in Hin.
      congruence.
  - destruct (find_first _ pois) as [q|] eqn:Hf; cbn.
    + split; [intros _|reflexivity].
      unfold find_first in Hf. apply find_some in Hf.
      apply poi_listed, existsb_exists. now exists q.
    + split; [discriminate|]. intros Hin. apply find_poi in Hf.
      contradiction.
Qed.

(** X18.  After the waypoint effect has run, [poiMarkersRef] holds a marker for
    exactly the waypoints of the session: markers of waypoints that are
    gone are removed, a marker that stays is not touched (it keeps its
    position even if the waypoint's coordinates changed), and a waypoint
    without a marker gets one at its [[longitude, latitude]] (the first
    listed, should an id occur twice).  The map stays a map. *)
Theorem poi_markers_follow_the_session :
  forall (pois : list Poi) (markers : JsMap.t Point) (id : Z),
    let markers' := poiMarkersEffect (Some pois) true markers in
    (JsMap.has id markers' = true <-> In id (List.map poi_id pois))
    /\ (forall pt : Point,
          JsMap.get id markers = Some pt -> In id (List.map poi_id pois) ->
          JsMap.get id markers' = Some pt)
    /\ (JsMap.get id markers = None ->
        JsMap.get id markers' =
        option_map (fun p => (poi_longitude p, poi_latitude p))
          (find_first (fun p => Z.eqb (poi_id p) id) pois))
    /\ (JsMap.wf markers -> JsMap.wf markers').
Proof.
  intros pois markers id. cbv zeta.
  split; [apply poiMarkersEffect_has|]. split; [|split].
  - intros pt Hg Hin. rewrite poiMarkersEffect_get, Hg.
    apply poi_listed in Hin. now rewrite Hin.
  - intros Hg. now rewrite poiMarkersEffect_get, Hg.
  - intros Hwf. unfold poiMarkersEffect.
    now apply addPoi_wf, removeStale_wf.
Qed.

Lemma removeStale_none : forall pois entries markers,
  (forall e, In e entries -> In (fst e) (List.map poi_id pois)) ->
  List.fold_left (removeStalePoiMarker pois) entries markers = markers.
Proof.
  intros pois entries. induction entries as [|e rest IH];
    intros markers H; simpl; [reflexivity|].
  assert (He : removeStalePoiMarker pois markers e = markers).
  { unfold removeStalePoiMarker.
    destruct (find_first _ pois) eqn:Hf; [reflexivity|].
    apply find_poi in Hf. exfalso. apply Hf, H. now left. }
  rewrite He. apply IH. intros e' He'. apply H. now right.
Qed.

Lemma addPoi_none : forall pois markers,
  (forall p, In p pois -> JsMap.has (poi_id p) markers = true) ->
  List.fold_left addPoiMarker pois markers = markers.
Proof.
  intros pois. induction pois as [|p rest IH]; intros markers H; simpl;
    [reflexivity|].
  assert (Hp : addPoiMarker markers p = markers).
  { unfold addPoiMarker. rewrite (H p) by now left. reflexivity. }
  rewrite Hp. apply IH. intros q Hq. apply H. now right.
Qed.

(** X19.  Running the waypoint effect again on the same session data changes
    nothing. *)
Theorem poi_markers_effect_is_idempotent :
  forall (pois : option (list Poi)) (mapCurrent : bool)
         (markers : JsMap.t Point),
    poiMarkersEffect pois mapCurrent
      (poiMarkersEffect pois mapCurrent markers) =
    poiMarkersEffect pois mapCurrent markers.
Proof.
  intros [ps|] [|] markers; try reflexivity.
  set (m' := poiMarkersEffect (Some ps) true markers).
  assert (Hkeys : forall id, JsMap.has id m' = true <->
                             In id (List.map poi_id ps)).
  { intros id. apply poiMarkersEffect_has. }
  unfold poiMarkersEffect at 1.
  rewrite removeStale_none.
  - apply addPoi_none. intros p Hp. apply Hkeys. now apply in_map.
  - intros e He. apply Hkeys, has_keys. unfold JsMap.keys.
    now apply in_map.
Qed.

(* ================================================================== *)
(** * Path lines *)

Lemma drawMemberPath_other : forall ms cur lines entry uid,
  fst entry <> uid ->
  JsMap.get uid (drawMemberPath ms cur lines entry) = JsMap.get uid lines.
Proof.
  intros ms cur lines [k path] uid Hne. cbn [fst] in Hne.
  unfold drawMemberPath.
  destruct (List.length path <? 2)%nat; [reflexivity|].
  destruct (JsMap.get k lines); now apply get_set_other.
Qed.

Lemma drawMemberPath_self : forall ms cur lines uid path,
  JsMap.get uid (drawMemberPath ms cur lines (uid, path)) =
  if (List.length path <? 2)%nat then JsMap.get uid lines
  else Some {| line_coordinates := path;
               line_color :=
                 match JsMap.get uid lines with
                 | Some existing => line_color existing
                 | None => getMemberColor uid ms cur
                 end |}.
Proof.
  intros ms cur lines uid path. unfold drawMemberPath.
  destruct (List.length path <? 2)%nat; [reflexivity|].
  destruct (JsMap.get uid lines); now rewrite get_set_same.
Qed.

Lemma drawPaths_absent : forall ms cur entries lines uid,
  ~ In uid (List.map fst entries) ->
  JsMap.get uid (List.fold_left (drawMemberPath ms cur) entries lines) =
  JsMap.get uid lines.
Proof.
  intros ms cur entries. induction entries as [|e rest IH];
    intros lines uid Hnin; simpl; [reflexivity|].
  simpl in Hnin. rewrite IH by tauto.
  apply drawMemberPath_other. tauto.
Qed.

Lemma drawPaths_once : forall ms cur entries lines uid path,
  NoDup (List.map fst entries) ->
  In (uid, path) entries ->
  JsMap.get uid (List.fold_left (drawMemberPath ms cur) entries lines) =
  JsMap.get uid (drawMemberPath ms cur lines (uid, path)).
Proof.
  intros ms cur entries. induction entries as [|[k p] rest IH];
    intros lines uid path Hnd Hin; [contradiction|].
  simpl in Hnd. inversion Hnd as [|? ? Hnin Hnd']; subst.
  destruct Hin as [Heq|Hin].
  - injection Heq as -> ->. cbn [List.fold_left].
    now apply drawPaths_absent.
  - assert (Hne : k <> uid).
    { intros ->. apply Hnin. now apply (in_map fst) in Hin. }
    cbn [List.fold_left]. rewrite (IH _ uid path Hnd' Hin).
    rewrite !drawMemberPath_self.
    now rewrite (@drawMemberPath_other ms cur lines (k, p) uid Hne).
Qed.

(** X25.  After the effect that draws the path lines has run, the line of
    every member whose recorded path has two or more points shows exactly
    that path; it keeps the colour it was created with, and a new line
    gets the member's [getMemberColor].  Members with a shorter path, or
    none, get no line, and no line is ever removed. *)
Theorem path_lines_follow_the_paths :
  forall (members : list LiveMapMember) (currentUserId : option Z)
         (paths : JsMap.t Path) (lines : JsMap.t PathLine) (uid : Z),
    JsMap.wf paths ->
    let lines' :=
      pathLinesEffect true true (Some members) currentUserId paths lines in
    (forall path : Path,
        JsMap.get uid paths = Some path -> (2 <= List.length path)%nat ->
        JsMap.get uid lines' =
        Some {| line_coordinates := path;
                line_color :=
                  match JsMap.get uid lines with
                  | Some existing => line_color existing
                  | None => getMemberColor uid members currentUserId
                  end |})
    /\ ((List.length (pathOf uid paths) < 2)%nat ->
        JsMap.get uid lines' = JsMap.get uid lines).
Proof.
  intros members cur paths lines uid Hwf. cbv zeta. unfold pathLinesEffect.
  cbn [andb]. split.
  - intros path Hget Hlen.
    rewrite (@drawPaths_once members cur (JsMap.entries paths) lines uid path
               Hwf (entry_of_get _ _ Hget)).
    rewrite drawMemberPath_self.
    destruct (Nat.ltb_spec (List.length path) 2); [lia|reflexivity].
  - intros Hshort. unfold pathOf in Hshort.
    destruct (JsMap.get uid paths) as [path|] eqn:Hget.
    + rewrite (@drawPaths_once members cur (JsMap.entries paths) lines uid
                 path Hwf (entry_of_get _ _ Hget)).
      rewrite drawMemberPath_self.
      destruct (Nat.ltb_spec (List.length path) 2); [reflexivity|lia].
    + apply drawPaths_absent. intros Hin.
      apply (proj2 (has_keys uid paths)) in Hin. unfold JsMap.has in Hin.
      rewrite Hget in Hin. discriminate.
Qed.

(** X25 for the sample paths drawn on a map without lines. *)
Lemma path_lines_witness :
  let members := members Sample.ridgeWalk in
  let lines' :=
    pathLinesEffect true true (Some members) (Some 1%Z) Sample.twoPaths
      JsMap.empty in
  JsMap.wf Sample.twoPaths /\
  JsMap.get 2 lines' =
    Some {| line_coordinates := Sample.bobsPath;
            line_color := Some "#10b981"%string |} /\
  JsMap.get 3 lines' = None.
Proof.
  intros members lines'.
  assert (Hwf : JsMap.wf Sample.twoPaths).
  { unfold JsMap.wf. cbn.
    repeat (constructor; [cbn; intuition discriminate|]). constructor. }
  split; [exact Hwf|].
  destruct (@path_lines_follow_the_paths members (Some 1%Z) Sample.twoPaths
              JsMap.empty 2 Hwf) as [Hdrawn _].
  split; [|reflexivity].
  unfold lines'. rewrite (Hdrawn Sample.bobsPath eq_refl (le_n 2)).
  reflexivity.
Defined.

(* ================================================================== *)
(** * The activity recorder *)

Section RecordingFacts.
Context {M : JsMath}.

Lemma calculateDistance_haversine : forall p q : Recording.TrackPoint,
  Recording.calculateDistance (Recording.latitude p) (Recording.longitude p)
    (Recording.latitude q) (Recording.longitude q) =
  haversine (Recording.longitude p, Recording.latitude p)
    (Recording.longitude q, Recording.latitude q).
Proof. reflexivity. Qed.

Lemma statsLoop_distance : forall rest prev t,
  Recording.totalDistance (Recording.statsLoop prev rest t) =
  distanceLoop (Recording.longitude prev, Recording.latitude prev)
    (Recording.pathCoordinatesOf rest) (Recording.totalDistance t).
Proof.
  induction rest as [|curr rest IH]; intros prev t; [reflexivity|].
  cbn [Recording.statsLoop Recording.pathCoordinatesOf List.map distanceLoop].
  rewrite IH. reflexivity.
Qed.

Lemma updateStats_distance : forall now points start,
  Recording.distance (Recording.updateStats now points (Some start)) =
  calculatePathDistance (Recording.pathCoordinatesOf points).
Proof.
  intros now points start. destruct points as [|p [|q rest]];
    try reflexivity.
  unfold Recording.updateStats, calculatePathDistance.
  cbn [Recording.distance]. rewrite statsLoop_distance. reflexivity.
Qed.

Lemma spaced_snoc : forall points last p,
  Recording.spaced points ->
  lastElement points = Some last ->
  (Recording.calculateDistance (Recording.latitude last)
     (Recording.longitude last) (Recording.latitude p)
     (Recording.longitude p)
   <? Recording.MIN_DISTANCE_THRESHOLD)%float = false ->
  Recording.spaced (points ++ [p]).
Proof.
  induction points as [|x [|y rest] IH]; intros last p Hs Hl Hd.
  - discriminate.
  - cbn in Hl. injection Hl as <-. cbn. split; [exact Hd|exact I].
  - destruct Hs as [Hxy Hrest]. cbn [app Recording.spaced].
    split; [exact Hxy|]. apply (IH last p Hrest); [exact Hl|exact Hd].
Qed.

Lemma recorderKept_same : forall h h',
  Recording.trackPoints (Recording.state h') =
    Recording.trackPoints (Recording.state h) ->
  Recording.lastValidPointRef h' = Recording.lastValidPointRef h ->
  Recording.distance (Recording.stats (Recording.state h')) =
    Recording.distance (Recording.stats (Recording.state h)) ->
  Recording.startTime (Recording.state h') =
    Recording.startTime (Recording.state h) ->
  (Recording.isRecording (Recording.state h') = true ->
   Recording.isRecording (Recording.state h) = true) ->
  recorderKept h -> recorderKept h'.
Proof.
  intros h h' Hp Hl Hd Hs Hr (K1 & K2 & K3 & K4 & K5). unfold recorderKept.
  rewrite Hp, Hl, Hd, Hs. repeat split; try assumption.
  intros H. now apply K5, Hr.
Qed.

Lemma lastElement_none : forall A (l : list A), lastElement l = None -> l = [].
Proof.
  intros A l. destruct l as [|x r]; [reflexivity|].
  revert x. induction r as [|y r IH]; intros x H; [discriminate|].
  exfalso. specialize (IH y H). discriminate.
Qed.

Lemma recorderKept_step : forall h e,
  recorderKept h -> recorderKept (Recording.step h e).
Proof.
  intros h e Hk.
  destruct e as [now type| | | | |now point|now|now]; cbn [Recording.step].
  - (* Start *)
    unfold recorderKept. cbn. repeat split; try constructor. discriminate.
  - (* Pause *)
    now apply (@recorderKept_same h).
  - (* Resume *)
    now apply (@recorderKept_same h).
  - (* Stop *)
    apply (@recorderKept_same h); try reflexivity; [|exact Hk].
    intros Hr; discriminate Hr.
  - (* Discard *)
    unfold recorderKept. cbn. repeat split; try constructor.
    intros Hr; discriminate Hr.
  - (* Position *)
    unfold Recording.handlePositionUpdate.
    destruct (Recording.MIN_ACCURACY_THRESHOLD <? Recording.accuracy point)%float
      eqn:Hacc; [exact Hk|].
    destruct (Recording.isRecording (Recording.state h)) eqn:Hrec;
      cbn [negb orb]; [|now apply (@recorderKept_same h)].
    destruct (Recording.isPaused (Recording.state h)) eqn:Hp;
      [now apply (@recorderKept_same h)|].
    pose proof Hk as (Hs & Ha & Hl & Hd & Ht).
    assert (Hstart : exists start,
               Recording.startTime (Recording.state h) = Some start).
    { destruct (Recording.startTime (Recording.state h)) as [start|];
        [eauto|]. exfalso. now apply Ht. }
    destruct Hstart as [start Hstart].
    destruct (Recording.lastValidPointRef h) as [lastPoint|] eqn:Href.
    + destruct (Recording.calculateDistance _ _ _ _ <? _)%float eqn:Hdist.
      * now apply (@recorderKept_same h).
      * unfold recorderKept.
        cbn [Recording.state Recording.trackPoints Recording.stats
             Recording.lastValidPointRef Recording.isRecording
             Recording.startTime].
        split; [now apply (@spaced_snoc _ lastPoint)|].
        split; [apply Forall_app; split; [exact Ha|now repeat constructor]|].
        split; [now rewrite lastElement_snoc|].
        split; [|intros _; now apply Ht].
        rewrite Hstart. apply updateStats_distance.
    + symmetry in Hl. apply lastElement_none in Hl.
      unfold recorderKept.
      cbn [Recording.state Recording.trackPoints Recording.stats
           Recording.lastValidPointRef Recording.isRecording
           Recording.startTime].
      rewrite Hl, Hstart. cbn [app].
      split; [exact I|]. split; [now repeat constructor|].
      split; [reflexivity|]. split; [reflexivity|].
      intros _. discriminate.
  - (* Tick *)
    unfold Recording.tick.
    destruct (Recording.startTime (Recording.state h)) as [start|] eqn:Hst;
      [|exact Hk].
    destruct (negb _ || _); [exact Hk|].
    now apply (@recorderKept_same h).
  - (* ForegroundResume *)
    unfold Recording.handleForegroundResume.
    assert (H1 : recorderKept (Recording.watchPosition (Recording.clearWatch h))).
    { apply (@recorderKept_same h); try exact Hk;
        unfold Recording.clearWatch; now destruct (Recording.watchIdRef h). }
    destruct (Recording.startTime _) as [start|] eqn:Hst; [|exact H1].
    destruct (negb _); [exact H1|].
    now apply (@recorderKept_same
                 (Recording.watchPosition (Recording.clearWatch h))).
Qed.

Lemma recorderKept_run : forall events h,
  recorderKept h -> recorderKept (Recording.run h events).
Proof.
  unfold Recording.run. induction events as [|e es IH]; intros h Hh; simpl;
    [exact Hh|].
  apply IH. now apply recorderKept_step.
Qed.

Lemma recorderKept_initial : recorderKept Recording.initialHook.
Proof.
  unfold recorderKept. cbn. repeat split; try constructor. discriminate.
Qed.

(** X20.  Whatever the recorder goes through (starting, pausing, resuming,
    stopping, discarding, fixes, clock ticks, returns to the foreground),
    the track it holds passed both filters of [handlePositionUpdate]: no
    point has an accuracy above 30 m, no point fails the 3 m distance test
    against the point recorded before it, and [lastValidPointRef] is the
    last point of the track. *)
Theorem recorded_points_pass_both_filters :
  forall events : list Recording.Event,
    let h := Recording.run Recording.initialHook events in
    Recording.spaced (Recording.trackPoints (Recording.state h))
    /\ Forall (fun p => (Recording.MIN_ACCURACY_THRESHOLD <?
                         Recording.accuracy p)%float = false)
         (Recording.trackPoints (Recording.state h))
    /\ Recording.lastValidPointRef h =
       lastElement (Recording.trackPoints (Recording.state h)).
Proof.
  intros events.
  destruct (recorderKept_run events recorderKept_initial)
    as (H1 & H2 & H3 & _).
  repeat split; assumption.
Qed.

(** X21.  The distance the recorder shows is at all times the length of the
    recorded track as the live map computes it: [calculatePathDistance],
    the sum of the haversine lengths of consecutive points, applied to the
    [[longitude, latitude]] pairs [saveRecording] stores. *)
Theorem recorded_distance_is_the_path_length :
  forall events : list Recording.Event,
    let h := Recording.run Recording.initialHook events in
    Recording.distance (Recording.stats (Recording.state h)) =
      calculatePathDistance
        (Recording.pathCoordinatesOf
           (Recording.trackPoints (Recording.state h)))
    /\ Recording.distance (Recording.stats (Recording.state h)) =
       haversineSum
         (Recording.pathCoordinatesOf
            (Recording.trackPoints (Recording.state h))).
Proof.
  intros events.
  destruct (recorderKept_run events recorderKept_initial)
    as (_ & _ & _ & H4 & _).
  cbv zeta. split; [exact H4|].
  rewrite H4. apply calculatePathDistance_is_haversineSum.
Qed.

(** X22.  [handleForegroundResume], the recorder's [onForegroundResume],
    replaces the geolocation watch (the one in [watchIdRef] is cleared, a
    fresh one is registered and stored) and, while recording, paused or
    not, sets the elapsed time to the wall-clock time since the start.
    The track, [lastValidPointRef] and the pause flag are left alone, and
    nothing of the state changes when no recording is running. *)
Theorem foreground_resume_restarts_gps_and_clock :
  forall (now : float) (h : Recording.Hook),
    let h' := Recording.handleForegroundResume now h in
    let fresh := List.length (Recording.watches h) in
    Recording.watchIdRef h' = Some fresh
    /\ List.nth_error (Recording.watches h') fresh = Some true
    /\ (forall w, Recording.watchIdRef h = Some w -> (w < fresh)%nat ->
                  List.nth_error (Recording.watches h') w = Some false)
    /\ Recording.trackPoints (Recording.state h') =
       Recording.trackPoints (Recording.state h)
    /\ Recording.lastValidPointRef h' = Recording.lastValidPointRef h
    /\ Recording.isPaused (Recording.state h') =
       Recording.isPaused (Recording.state h)
    /\ (forall start,
          Recording.isRecording (Recording.state h) = true ->
          Recording.startTime (Recording.state h) = Some start ->
          Recording.elapsedTime (Recording.stats (Recording.state h')) =
          ((now - start) / 1000)%float)
    /\ (Recording.isRecording (Recording.state h) = false ->
        Recording.state h' = Recording.state h).
Proof.
  intros now h. cbv zeta. unfold Recording.handleForegroundResume.
  set (h1 := Recording.watchPosition (Recording.clearWatch h)).
  assert (Hst : Recording.state h1 = Recording.state h).
  { subst h1. unfold Recording.clearWatch.
    now destruct (Recording.watchIdRef h). }
  assert (Hl : Recording.lastValidPointRef h1 = Recording.lastValidPointRef h).
  { subst h1. unfold Recording.clearWatch.
    now destruct (Recording.watchIdRef h). }
  assert (Hw : Recording.watchIdRef h1 =
               Some (List.length (Recording.watches h)) /\
               List.nth_error (Recording.watches h1)
                 (List.length (Recording.watches h)) = Some true /\
               (forall w, Recording.watchIdRef h = Some w ->
                          (w < List.length (Recording.watches h))%nat ->
                          List.nth_error (Recording.watches h1) w =
                          Some false)).
  { subst h1. unfold Recording.watchPosition, Recording.clearWatch.
    destruct (Recording.watchIdRef h) as [w|] eqn:Hwid; cbn.
    - rewrite updateAt_length. split; [reflexivity|]. split.
      + rewrite <- (updateAt_length w (fun _ => false) (Recording.watches h)).
        apply nth_error_snoc.
      + intros w0 [= <-] Hlt.
        rewrite nth_error_app1 by (now rewrite updateAt_length).
        destruct (List.nth_error (Recording.watches h) w) as [b|] eqn:Hb.
        * exact (@updateAt_nth_same _ w (fun _ => false) _ _ Hb).
        * apply nth_error_None in Hb. lia.
    - split; [reflexivity|]. split; [apply nth_error_snoc|]. discriminate. }
  destruct Hw as (W1 & W2 & W3).
  rewrite Hst.
  destruct (Recording.startTime (Recording.state h)) as [start|] eqn:Hstart.
  - destruct (Recording.isRecording (Recording.state h)) eqn:Hrec;
      cbn [negb].
    + cbn. repeat split; try assumption.
      * intros s _ [= <-]. reflexivity.
      * discriminate.
    + rewrite Hst, Hl. repeat split; try assumption. discriminate.
  - rewrite Hst, Hl. repeat split; try assumption.
    intros s _ Hs. discriminate Hs.
Qed.

End RecordingFacts.

(* ================================================================== *)
(** * The map tools *)

Lemma toolsTidy_step : forall t e, toolsTidy t -> toolsTidy (toolStep t e).
Proof.
  intros t e [Hm Hd]. unfold toolsTidy.
  destruct e; cbn [toolStep];
    unfold handleClick, clickMeasure, clickDoneMeasurement, clearMeasurement,
      clickRoute, clickDrawNewRoute, clickUndo, clickCancelDrawing,
      saveRouteSucceeded, dragRoutePoint;
    repeat match goal with
           | |- context [if ?b then _ else _] => destruct b eqn:?
           end;
    cbn; split; intros H; auto; try congruence.
  - apply andb_prop in Heqb1. tauto.
  - specialize (Hm H). discriminate Hm.
  - apply Hd. intros E. rewrite E in H. now apply H.
  - apply Hd. intros E. rewrite E in H. destruct index; now apply H.
Qed.

(** X23.  Whatever the user does with the map tools, the measuring tool holds
    points only while measuring is on and the route tool only while
    drawing is on: switching a tool off by any of its buttons, or saving
    the drawn route, always drops its points. *)
Theorem points_are_held_only_by_an_active_tool :
  forall events : list ToolEvent,
    let t := toolRun initialTools events in
    (isMeasuring t = false -> measurementPath t = [])
    /\ (isDrawingRoute t = false -> drawRoutePoints t = []).
Proof.
  intros events. cbv zeta.
  assert (H : forall t, toolsTidy t -> toolsTidy (toolRun t events)).
  { unfold toolRun. induction events as [|e es IH]; intros t Ht; simpl;
      [exact Ht|]. apply IH. now apply toolsTidy_step. }
  destruct (H initialTools) as [Hm Hd].
  { split; intros E; now exfalso. }
  split; intros Hoff.
  - destruct (measurementPath (toolRun initialTools events)); [reflexivity|].
    assert (isMeasuring (toolRun initialTools events) = true)
      by (apply Hm; discriminate).
    congruence.
  - destruct (drawRoutePoints (toolRun initialTools events)); [reflexivity|].
    assert (isDrawingRoute (toolRun initialTools events) = true)
      by (apply Hd; discriminate).
    congruence.
Qed.

(** X24.  While a route is being drawn (and neither waypoint placement nor
    measuring is on), a click on the map touches neither the measurement
    nor the pending waypoint.  When the click handler saw
    [isEditingSharedRoute] as false, the click appends its [[lng, lat]] to
    the route and Undo takes the state back to what it was before the
    click.  When the handler saw it as true (a shared route is being
    edited while the drawing banner is up), the click changes nothing, and
    Undo after it removes the last point drawn earlier, if there is one. *)
Theorem undo_reverts_the_last_click :
  forall (lng lat : float) (editingSeen : bool) (t : Tools),
    isAddingPoi t = false -> isMeasuring t = false ->
    isDrawingRoute t = true ->
    let clicked := toolStep t (MapClick lng lat editingSeen) in
    measurementPath clicked = measurementPath t
    /\ pendingPoiLocation clicked = pendingPoiLocation t
    /\ (editingSeen = false ->
        drawRoutePoints clicked = drawRoutePoints t ++ [(lng, lat)]
        /\ toolStep clicked ClickUndo = t)
    /\ (editingSeen = true ->
        clicked = t
        /\ drawRoutePoints (toolStep clicked ClickUndo) =
           List.removelast (drawRoutePoints t)).
Proof.
  intros lng lat editingSeen t Ha Hm Hd. cbv zeta. cbn [toolStep].
  unfold handleClick. rewrite Ha, Hm, Hd.
  destruct editingSeen; cbn;
    (split; [reflexivity|]); (split; [reflexivity|]);
    split; intros E; try discriminate E; split; try reflexivity.
  unfold clickUndo, setDrawing. cbn.
  rewrite removelast_last. destruct t; cbn in *. congruence.
Qed.

(** X24 for the second point of a route: appended and undone when the
    handler saw no edit, ignored when it saw one, after which Undo takes
    the first point away. *)
Lemma undo_witness :
  let t := setDrawing true [(7.25, 46.5)%float] initialTools in
  (isAddingPoi t = false /\ isMeasuring t = false /\
   isDrawingRoute t = true) /\
  drawRoutePoints (toolStep t (MapClick 7.5 46.75 false)) =
    [(7.25, 46.5); (7.5, 46.75)]%float /\
  toolStep (toolStep t (MapClick 7.5 46.75 false)) ClickUndo = t /\
  toolStep t (MapClick 7.5 46.75 true) = t /\
  drawRoutePoints (toolStep (toolStep t (MapClick 7.5 46.75 true)) ClickUndo)
    = [].
Proof.
  intros t. split; [repeat split|].
  destruct (@undo_reverts_the_last_click 7.5%float 46.75%float false t
              eq_refl eq_refl eq_refl) as (_ & _ & Hseen & _).
  destruct (@undo_reverts_the_last_click 7.5%float 46.75%float true t
              eq_refl eq_refl eq_refl) as (_ & _ & _ & Hblind).
  destruct (Hseen eq_refl) as [Hp Hu]. destruct (Hblind eq_refl) as [Hi Hr].
  repeat split; assumption.
Defined.
